(** * DNDC configuration editor and output dashboard: a shallow embedding

    The development follows the two Python sources:
    - [update_config.py]: the event list extractor, the event and soil
      merges, the auto-fertilization generator and the fraction sliders;
    - [dndc_dashboard.py]: the date reconstruction and date-range filter.

    Python values are embedded as a small JSON data type.  A Python
    exception is the result [None] of the embedded function. *)

From Stdlib Require Import ZArith List String Ascii Bool Lia.
From Stdlib Require Import DecimalString DecimalZ.
From Stdlib Require Import PrimFloat FloatOps SpecFloat FloatAxioms.
Import ListNotations.

Set Implicit Arguments.
Set Warnings "-register-all,-inexact-float".


(* ================================================================== *)
(** * Python values *)
(* ================================================================== *)

Module Py.

Open Scope string_scope.
Open Scope list_scope.

(** What [json.load] produces: [None], [bool], [int], [float], [str],
    [list] and [dict] (insertion ordered, keys are strings). *)
Inductive json : Type :=
| JNull
| JBool (b : bool)
| JInt (z : Z)
| JFloat (f : float)
| JStr (s : string)
| JList (l : list json)
| JDict (d : list (string * json)).

Definition dict := list (string * json).

Notation "x <- c ;; k" :=
  (match c with Some x => k | None => None end)
  (at level 61, c at next level, right associativity).

(** ** Dictionaries *)

(** [d[k]], with [None] for [KeyError]. *)
Fixpoint dict_get (k : string) (d : dict) : option json :=
  match d with
  | [] => None
  | (k', v) :: d' => if String.eqb k k' then Some v else dict_get k d'
  end.

(** [k in d] *)
Definition dict_has (k : string) (d : dict) : bool :=
  match dict_get k d with Some _ => true | None => false end.

(** [d.get(k, dflt)] *)
Definition get_default (d : dict) (k : string) (dflt : json) : json :=
  match dict_get k d with Some v => v | None => dflt end.

(** [d[k] = v]: an existing key keeps its position, a new key goes last. *)
Fixpoint dict_set (k : string) (v : json) (d : dict) : dict :=
  match d with
  | [] => [(k, v)]
  | (k', v') :: d' =>
      if String.eqb k k' then (k', v) :: d' else (k', v') :: dict_set k v d'
  end.

Definition keys (d : dict) : list string := map fst d.

(** [for key, value in src.items(): target[key] = value] *)
Definition assign_items (src target : dict) : dict :=
  fold_left (fun t kv => dict_set (fst kv) (snd kv) t) src target.

(** [k] is one of the keys that [assign_items src] assigns. *)
Definition assigned (k : string) (src : dict) : bool :=
  existsb (String.eqb k) (keys src).

(** The binding of the loop variable [key] after that loop: the last key of
    [src], or the earlier binding when [src] is empty. *)
Definition last_key (src : dict) (key : option string) : option string :=
  fold_left (fun _ kv => Some (fst kv)) src key.

(** ** Numbers: [==] across [bool], [int] and [float] *)

(** A number in canonical form: an integer, a binary fraction [m * 2^e]
    with [m] odd and [e < 0], or an infinity.  NaN has no canonical form. *)
Inductive num : Type :=
| NInt (z : Z)
| NFrac (neg : bool) (m : positive) (e : Z)
| NInf (neg : bool).

Fixpoint strip_twos (m : positive) (e : Z) : positive * Z :=
  match m with
  | xO m' => if (e <? 0)%Z then strip_twos m' (e + 1)%Z else (m, e)
  | _ => (m, e)
  end.

Definition num_of_finite (neg : bool) (m : positive) (e : Z) : num :=
  let '(m', e') := strip_twos m e in
  if (0 <=? e')%Z
  then NInt ((if neg then -1 else 1) * (Z.pos m' * 2 ^ e'))%Z
  else NFrac neg m' e'.

Definition num_of_float (f : float) : option num :=
  match Prim2SF f with
  | S754_zero _ => Some (NInt 0)
  | S754_infinity s => Some (NInf s)
  | S754_nan => None
  | S754_finite s m e => Some (num_of_finite s m e)
  end.

Definition num_of (j : json) : option num :=
  match j with
  | JBool b => Some (NInt (if b then 1 else 0))
  | JInt z => Some (NInt z)
  | JFloat f => num_of_float f
  | _ => None
  end.

Definition num_eqb (x y : num) : bool :=
  match x, y with
  | NInt a, NInt b => (a =? b)%Z
  | NFrac s m e, NFrac s' m' e' =>
      Bool.eqb s s' && (m =? m')%positive && (e =? e')%Z
  | NInf s, NInf s' => Bool.eqb s s'
  | _, _ => false
  end.

(** ** Comparison, truth value, membership *)

(** Elementwise comparison of two lists of equal length. *)
Fixpoint all2 (A : Type) (f : A -> A -> bool) (l m : list A) : bool :=
  match l, m with
  | [], [] => true
  | x :: l', y :: m' => f x y && all2 f l' m'
  | _, _ => false
  end.

(** [a == b].  Lists are compared element by element; dictionaries have
    the same number of keys, and every key of the first maps to an equal
    value in the second. *)
Fixpoint py_eq (a b : json) : bool :=
  match a, b with
  | JNull, JNull => true
  | JStr s, JStr t => String.eqb s t
  | JList l, JList m => all2 py_eq l m
  | JDict d, JDict e =>
      (List.length d =? List.length e)%nat &&
      forallb (fun kv => match dict_get (fst kv) e with
                         | Some w => py_eq (snd kv) w
                         | None => false
                         end) d
  | _, _ =>
      match num_of a, num_of b with
      | Some x, Some y => num_eqb x y
      | _, _ => false
      end
  end.

(** [bool(j)] *)
Definition py_truthy (j : json) : bool :=
  match j with
  | JNull => false
  | JBool b => b
  | JInt z => negb (z =? 0)%Z
  | JFloat f => negb (f =? 0)%float
  | JStr s => negb (String.eqb s "")
  | JList l => match l with [] => false | _ => true end
  | JDict d => match d with [] => false | _ => true end
  end.

(** NaN, the one number that [==] does not hold of itself. *)
Definition is_nan (j : json) : bool :=
  match j with
  | JFloat f => negb (f =? f)%float
  | _ => false
  end.

(** [a is b or a == b], the test that [in] and a dictionary lookup make,
    on the values of a loaded document.  [json.load] gives every NaN as one
    and the same object, so a NaN is the same as a NaN though not equal to
    it; a list or a dictionary compares its items by this test. *)
Fixpoint py_same (a b : json) : bool :=
  match a, b with
  | JList l, JList m => all2 py_same l m
  | JDict d, JDict e =>
      (List.length d =? List.length e)%nat &&
      forallb (fun kv => match dict_get (fst kv) e with
                         | Some w => py_same (snd kv) w
                         | None => false
                         end) d
  | _, _ => py_eq a b || (is_nan a && is_nan b)
  end.

(** [x in l] for a list [l] *)
Definition py_in (x : json) (l : list json) : bool :=
  existsb (fun y => py_same y x) l.

(** Lists and dicts cannot be dictionary keys. *)
Definition hashable (j : json) : bool :=
  match j with
  | JList _ | JDict _ => false
  | _ => true
  end.

(** [if x not in acc: acc.append(x)] *)
Definition add_key (acc : list json) (x : json) : list json :=
  if py_in x acc then acc else acc ++ [x].

(** [list(dict.fromkeys(l))]: [TypeError] on an unhashable element, else
    the elements without repetition, first occurrence first. *)
Definition py_fromkeys (l : list json) : option (list json) :=
  if forallb hashable l then Some (fold_left add_key l []) else None.

(** [d.get(k, None)] for a dict [d] with string keys and any key [k]. *)
Definition dict_get_key (d : dict) (k : json) : option json :=
  match k with
  | JStr s => Some (get_default d s JNull)
  | JList _ | JDict _ => None
  | _ => Some JNull
  end.

Fixpoint chars (s : string) : list json :=
  match s with
  | EmptyString => []
  | String c s' => JStr (String c EmptyString) :: chars s'
  end.

(** What [for x in j] iterates over; [None] when [j] is not iterable. *)
Definition py_iter (j : json) : option (list json) :=
  match j with
  | JList l => Some l
  | JStr s => Some (chars s)
  | JDict d => Some (map (fun kv => JStr (fst kv)) d)
  | _ => None
  end.

(** Every object of the document has distinct keys, as a Python dict has. *)
Fixpoint nodupb (l : list string) : bool :=
  match l with
  | [] => true
  | x :: l' => negb (existsb (String.eqb x) l') && nodupb l'
  end.

Fixpoint json_wf (j : json) : bool :=
  match j with
  | JList l => forallb json_wf l
  | JDict d => nodupb (map fst d) && forallb (fun kv => json_wf (snd kv)) d
  | _ => true
  end.

(** ** Subscript paths *)

Inductive step : Type :=
| Idx (n : nat)      (* [j[n]] *)
| Key (k : string).  (* [j["k"]] *)

Definition py_getitem (s : step) (j : json) : option json :=
  match s, j with
  | Idx n, JList l => nth_error l n
  | Idx n, JStr t =>
      match String.get n t with
      | Some c => Some (JStr (String c EmptyString))
      | None => None
      end
  | Key k, JDict d => dict_get k d
  | _, _ => None
  end.

Fixpoint get_path (p : list step) (j : json) : option json :=
  match p with
  | [] => Some j
  | s :: p' => x <- py_getitem s j ;; get_path p' x
  end.

Fixpoint list_set (n : nat) (x : json) (l : list json) : list json :=
  match l, n with
  | [], _ => []
  | _ :: l', O => x :: l'
  | y :: l', S n' => y :: list_set n' x l'
  end.

(** The document after the object reached by [p] has been mutated into
    [v]: the same tree with [v] in the place [p] leads to. *)
Fixpoint set_path (p : list step) (v : json) (j : json) : option json :=
  match p with
  | [] => Some v
  | Idx n :: p' =>
      match j with
      | JList l =>
          x <- nth_error l n ;;
          x' <- set_path p' v x ;;
          Some (JList (list_set n x' l))
      | _ => None
      end
  | Key k :: p' =>
      match j with
      | JDict d =>
          x <- dict_get k d ;;
          x' <- set_path p' v x ;;
          Some (JDict (dict_set k x' d))
      | _ => None
      end
  end.

(** Every index of the path is followed by a key: such a path never ends
    inside a string. *)
Fixpoint idx_then_key (p : list step) : bool :=
  match p with
  | [] => true
  | Key _ :: p' => idx_then_key p'
  | Idx _ :: p' =>
      match p' with
      | Key _ :: _ => idx_then_key p'
      | _ => false
      end
  end.

(** [try: x = json_data[0]<p>  except: x = json_data<p>]: the path that
    resolved, and what it resolved to. *)
Definition locate (p : list step) (json_data : json) : option (list step * json) :=
  match get_path (Idx 0 :: p) json_data with
  | Some x => Some (Idx 0 :: p, x)
  | None =>
      match get_path p json_data with
      | Some x => Some (p, x)
      | None => None
      end
  end.

(** ** Integers and text *)

(** [str(z)] and [f"{z}"] *)
Definition py_str_int (z : Z) : string := NilZero.string_of_int (Z.to_int z).

(** [int(s)] for an optional sign followed by decimal digits. *)
Definition py_int (s : string) : option Z :=
  match s with
  | String "-"%char s' => option_map (fun u => (- Z.of_uint u)%Z) (NilZero.uint_of_string s')
  | String "+"%char s' => option_map Z.of_uint (NilZero.uint_of_string s')
  | _ => option_map Z.of_uint (NilZero.uint_of_string s)
  end.

(** [s.split("-")] *)
Fixpoint split_dash (s : string) : list string :=
  match s with
  | EmptyString => [EmptyString]
  | String c s' =>
      if Ascii.eqb c "-"%char then EmptyString :: split_dash s'
      else match split_dash s' with
           | [] => [String c EmptyString]
           | w :: ws => String c w :: ws
           end
  end.

(** [range(a, b)] *)
Definition py_range (a b : Z) : list Z :=
  map (fun i => (a + Z.of_nat i)%Z) (seq 0 (Z.to_nat (b - a))).

(** [str(b)] for a [bool] *)
Definition py_str_bool (b : bool) : string := if b then "True" else "False".

(** [s.lower()], for the comparisons with ["true"] and ["false"] that the
    program makes: the letters A to Z are lowered and every other byte is
    kept. *)
Definition lower_char (c : ascii) : ascii :=
  let n := nat_of_ascii c in
  if (65 <=? n)%nat && (n <=? 90)%nat then ascii_of_nat (n + 32) else c.

Fixpoint py_lower (s : string) : string :=
  match s with
  | EmptyString => EmptyString
  | String c s' => String (lower_char c) (py_lower s')
  end.

(** [sub in s] for two strings *)
Fixpoint contains (sub s : string) : bool :=
  String.prefix sub s ||
  match s with
  | EmptyString => false
  | String _ s' => contains sub s'
  end.

(** ** More on dictionaries *)

(** [d.pop(k, None)]: the dictionary without the key (a dictionary holds a
    key once). *)
Definition dict_pop (k : string) (d : dict) : dict :=
  filter (fun kv => negb (String.eqb (fst kv) k)) d.

(** A dictionary that the program builds can have numbers among its keys.
    Two keys are one key when they are equal ([1], [1.0] and [True] are),
    or when both are the NaN of [json.load], which is a single object. *)
Definition key_eq (a b : json) : bool := py_eq a b || (is_nan a && is_nan b).

Definition pydict := list (json * json).

(** [d.get(k)], with [None] when the key is missing. *)
Fixpoint pd_get (k : json) (d : pydict) : option json :=
  match d with
  | [] => None
  | (k', v) :: d' => if key_eq k' k then Some v else pd_get k d'
  end.

(** [k in d] *)
Definition pd_has (k : json) (d : pydict) : bool :=
  match pd_get k d with Some _ => true | None => false end.

(** [d[k] = v] for a hashable [k]: an existing key keeps its place. *)
Fixpoint pd_set (k v : json) (d : pydict) : pydict :=
  match d with
  | [] => [(k, v)]
  | (k', v') :: d' =>
      if key_eq k' k then (k', v) :: d' else (k', v') :: pd_set k v d'
  end.

(** ** Ordering numbers *)

Definition is_number (j : json) : bool :=
  match j with
  | JBool _ | JInt _ | JFloat _ => true
  | _ => false
  end.

(** A finite number as [n * 2^e]. *)
Definition scaled (x : num) : Z * Z :=
  match x with
  | NInt z => (z, 0%Z)
  | NFrac neg m e => ((if neg then Z.neg m else Z.pos m), e)
  | NInf _ => (0%Z, 0%Z)
  end.

(** The exact order of two numbers, as Python compares an [int] with a
    [float]. *)
Definition num_ltb (x y : num) : bool :=
  match x, y with
  | NInf s, NInf s' => s && negb s'
  | NInf s, _ => s
  | _, NInf s' => negb s'
  | _, _ =>
      let e := Z.min (snd (scaled x)) (snd (scaled y)) in
      (fst (scaled x) * 2 ^ (snd (scaled x) - e)
       <? fst (scaled y) * 2 ^ (snd (scaled y) - e))%Z
  end.

(** [a < b] where one side is known to be a number: [TypeError] unless the
    other side is a number as well; nothing is below NaN and NaN is below
    nothing. *)
Definition lt_numbers (a b : json) : option bool :=
  if is_number a && is_number b then
    Some (match num_of a, num_of b with
          | Some x, Some y => num_ltb x y
          | _, _ => false
          end)
  else None.

(** [min(a, b)] and [max(a, b)] keep [a] unless [b] is strictly beyond it. *)
Definition py_min (a b : json) : option json :=
  lt <- lt_numbers b a ;; Some (if lt then b else a).

Definition py_max (a b : json) : option json :=
  gt <- lt_numbers a b ;; Some (if gt then b else a).

(** An argument of [range]: an [int] ([bool] included); a [float] raises
    [TypeError]. *)
Definition py_index (j : json) : option Z :=
  match j with
  | JInt z => Some z
  | JBool b => Some (if b then 1 else 0)%Z
  | _ => None
  end.

End Py.

(* ================================================================== *)
(** * update_config.py *)
(* ================================================================== *)

(** The functions take the document as [json.load] returns it; reading the
    upload and writing [json_out] are left out, and the value of a function
    is the document it returns or writes.  A document is a tree: no object
    sits in two places, so the mutation of an object in place is the
    replacement of a subtree. *)

Module UpdateConfig.

Import Py.
Open Scope string_scope.
Open Scope list_scope.

(** [for x in l: body], stopping at the first exception. *)
Fixpoint for_each {S A : Type} (body : S -> A -> option S) (l : list A) (st : S)
  : option S :=
  match l with
  | [] => Some st
  | x :: l' => st' <- body st x ;; for_each body l' st'
  end.

(** [["sites"][0]['fields'][0]['rotations'][0]['events']] *)
Definition events_path : list step :=
  [Key "sites"; Idx 0; Key "fields"; Idx 0; Key "rotations"; Idx 0; Key "events"].

(** [["sites"][0]['fields'][0]['soil']] *)
Definition soil_path : list step :=
  [Key "sites"; Idx 0; Key "fields"; Idx 0; Key "soil"].

(** ** [input_config_list] *)

(** The four lists the loop fills. *)
Record lists : Type := Lists {
  crop_names : list json;
  data : list json;
  data_full : list json;
  other_events : list json
}.

(** The body of [for event in events]. *)
Definition visit (st : lists) (event : json) : option lists :=
  match event with
  | JDict ev =>
      let event_type := get_default ev "_event_type" JNull in
      if py_truthy event_type then
        let st' :=
          if py_eq event_type (JStr "crop") then
            let crop := get_default ev "name" (JStr "") in
            if negb (py_in crop (crop_names st)) then
              Lists (crop_names st ++ [crop]) (data st ++ [event])
                    (data_full st) (other_events st)
            else st
          else
            if negb (py_in event_type (other_events st)) then
              Lists (crop_names st) (data st ++ [event])
                    (data_full st) (other_events st ++ [event_type])
            else st in
        Some (Lists (crop_names st') (data st')
                    (data_full st' ++ [event]) (other_events st'))
      else Some st
  | _ => None
  end.

(** Returns [(data, crop_names, other_events, data_full)]. *)
Definition input_config_list (json_data : json)
  : option (list json * list json * list json * list json) :=
  loc <- locate events_path json_data ;;
  evs <- py_iter (snd loc) ;;
  st <- for_each visit evs (Lists [] [] [] []) ;;
  crop_names' <- py_fromkeys (crop_names st) ;;
  other_events' <- py_fromkeys (other_events st) ;;
  Some (data st, crop_names', other_events', data_full st).

(** ** [input_config_replacement] *)

(** The body of [for crop_config in event_dict[event_type]].  The state is
    the event and the current binding of the variable [key], which the
    [print] after the inner loop reads together with [event[key]]. *)
Definition merge_crop (st : dict * option string) (crop_config : json)
  : option (dict * option string) :=
  match crop_config with
  | JDict cc =>
      if py_eq (get_default (fst st) "name" (JStr ""))
               (get_default cc "name" (JStr ""))
      then
        let event' := assign_items cc (fst st) in
        key' <- last_key cc (snd st) ;;
        if dict_has key' event' then Some (event', Some key') else None
      else Some st
  | _ => None
  end.

(** The body of [for event in events]. *)
Definition merge_event (event_dict : dict) (key : option string) (event : json)
  : option (json * option string) :=
  match event with
  | JDict ev =>
      let event_type := get_default ev "_event_type" JNull in
      if py_truthy event_type then
        entry <- dict_get_key event_dict event_type ;;
        if py_truthy entry then
          if py_eq event_type (JStr "crop") then
            ccs <- py_iter entry ;;
            r <- for_each merge_crop ccs (ev, key) ;;
            Some (JDict (fst r), snd r)
          else
            match entry with
            | JDict m =>
                let ev' := assign_items m ev in
                key' <- last_key m key ;;
                if dict_has key' ev' then Some (JDict ev', Some key') else None
            | _ => None
            end
        else Some (event, key)
      else Some (event, key)
  | _ => None
  end.

Fixpoint merge_events (event_dict : dict) (evs : list json) (key : option string)
  : option (list json * option string) :=
  match evs with
  | [] => Some ([], key)
  | e :: evs' =>
      r <- merge_event event_dict key e ;;
      rs <- merge_events event_dict evs' (snd r) ;;
      Some (fst r :: fst rs, snd rs)
  end.

(** The document that is returned, or written to [json_out]. *)
Definition input_config_replacement (event_dict : dict) (json_data : json)
  : option json :=
  loc <- locate events_path json_data ;;
  evs <- py_iter (snd loc) ;;
  r <- merge_events event_dict evs None ;;
  match snd loc with
  | JList _ => set_path (fst loc) (JList (fst r)) json_data
  | _ => Some json_data
  end.

(** ** [soil_config_replacement] *)

(** [for key in soil_data.keys(): if key in soil_dict: ...] *)
Definition soil_merge (soil_dict soil_data : dict) : dict :=
  fold_left
    (fun sd key =>
       match dict_get key soil_dict with
       | Some v => dict_set key v sd
       | None => sd
       end)
    (keys soil_data) soil_data.

Definition soil_config_replacement (soil_dict : dict) (json_data : json)
  : option json :=
  loc <- locate soil_path json_data ;;
  match snd loc with
  | JDict soil_data =>
      set_path (fst loc) (JDict (soil_merge soil_dict soil_data)) json_data
  | _ => None
  end.

(** ** [generate_autofertilization_event] *)

Definition date_dict (y m d : Z) : json :=
  JDict [("year", JInt y); ("month", JInt m); ("day", JInt d)].

(** The body of [for date in dates]; [events.append] needs a list. *)
Definition append_auto_fert (events : json) (date : string * string)
  : option json :=
  match split_dash (fst date), split_dash (snd date) with
  | [year_s; month_s; day_s], [year_e; month_e; day_e] =>
      ys <- py_int year_s ;; ms <- py_int month_s ;; ds <- py_int day_s ;;
      ye <- py_int year_e ;; me <- py_int month_e ;; de <- py_int day_e ;;
      match events with
      | JList l =>
          Some (JList (l ++ [JDict [("_event_type", JStr "alt_fertilizer");
                                    ("method", JStr "auto-fertilizer");
                                    ("start_date", date_dict ys ms ds);
                                    ("end_date", date_dict ye me de)]]))
      | _ => None
      end
  | _, _ => None
  end.

(** The document that is written to [json_out]. *)
Definition generate_autofertilization_event
  (json_data : json) (first_year last_year : Z) : option json :=
  let dates :=
    map (fun year => ((py_str_int year ++ "-01-01")%string,
                      (py_str_int year ++ "-12-30")%string))
        (py_range first_year (last_year + 1)) in
  loc <- locate events_path json_data ;;
  events' <- for_each append_auto_fert dates (snd loc) ;;
  set_path (fst loc) events' json_data.

(** ** [convert_to_event_dict] *)

(** [new_item = item.copy(); new_item.pop('_event_type', None)] *)
Definition new_item (item : dict) : dict := dict_pop "_event_type" item.

(** The body of [for item in data].  An event type that cannot be a key
    raises [TypeError]; [append] needs the list that the first crop put
    under ['crop']. *)
Definition convert_item (event_dict : pydict) (item : json) : option pydict :=
  match item with
  | JDict it =>
      let event_type := get_default it "_event_type" JNull in
      if py_truthy event_type then
        if py_eq event_type (JStr "crop") then
          let event_dict' :=
            if negb (pd_has (JStr "crop") event_dict)
            then pd_set (JStr "crop") (JList []) event_dict
            else event_dict in
          match pd_get (JStr "crop") event_dict' with
          | Some (JList l) =>
              Some (pd_set (JStr "crop") (JList (l ++ [JDict (new_item it)]))
                           event_dict')
          | _ => None
          end
        else
          if hashable event_type
          then Some (pd_set event_type (JDict (new_item it)) event_dict)
          else None
      else Some event_dict
  | _ => None
  end.

Definition convert_to_event_dict (data : list json) : option pydict :=
  for_each convert_item data [].

(** The overlay as [input_config_replacement] takes it: a dictionary whose
    keys are all strings. *)
Fixpoint str_keys (event_dict : pydict) : option dict :=
  match event_dict with
  | [] => Some []
  | (JStr s, v) :: rest => option_map (cons (s, v)) (str_keys rest)
  | _ => None
  end.

(** ** [input_config_soil_dict] *)

Definition input_config_soil_dict (json_data : json) : option json :=
  loc <- locate soil_path json_data ;;
  Some (snd loc).

(** ** [find_first_last_years] *)

(** The body of [for event in crop_events]: the state is
    [(first_year, last_year)].  [get] needs a dictionary, for the event and
    for both of its dates. *)
Definition first_last (st : json * json) (event : json) : option (json * json) :=
  match event with
  | JDict ev =>
      match get_default ev "start_date" (JDict []),
            get_default ev "end_date" (JDict []) with
      | JDict start_date, JDict end_date =>
          let start_year := get_default start_date "year" JNull in
          let end_year := get_default end_date "year" JNull in
          first_year <- match start_year with
                        | JNull => Some (fst st)
                        | _ => py_min (fst st) start_year
                        end ;;
          last_year <- match end_year with
                       | JNull => Some (snd st)
                       | _ => py_max (snd st) end_year
                       end ;;
          Some (first_year, last_year)
      | _, _ => None
      end
  | _ => None
  end.

Definition find_first_last_years (crop_events : list json) : option (json * json) :=
  for_each first_last crop_events (JFloat infinity, JFloat neg_infinity).

(** The step of the script that adds the auto-fertilization events:
    [first_year, last_year = find_first_last_years(data_full)], then the
    generator, whose [range] takes integers. *)
Definition auto_fertilize (json_data : json) (data_full : list json) : option json :=
  years <- find_first_last_years data_full ;;
  first_year <- py_index (fst years) ;;
  last_year <- py_index (snd years) ;;
  generate_autofertilization_event json_data first_year last_year.

(** ** [display_widgets]: the four crop fractions *)

Open Scope float_scope.

(** [fracs], in the order of [frac_keys]; the fields are binary64 numbers. *)
Record fracs : Type := Fracs {
  frac_grain : float;
  frac_leaf : float;
  frac_root : float;
  frac_stem : float
}.

(** [sum(fracs.values())] starts from [0]. *)
Definition total_frac (f : fracs) : float :=
  0 + frac_grain f + frac_leaf f + frac_root f + frac_stem f.

(** [if total_frac != 1: fracs[key] = fracs[key] / total_frac]; dividing by
    zero raises [ZeroDivisionError]. *)
Definition rescale (f : fracs) : option fracs :=
  let t := total_frac f in
  if negb (t =? 1) then
    if t =? 0 then None
    else Some (Fracs (frac_grain f / t) (frac_leaf f / t)
                     (frac_root f / t) (frac_stem f / t))
  else Some f.

Inductive frac_key : Type := Grain | Leaf | Root | Stem.

Definition frac_keys : list frac_key := [Grain; Leaf; Root; Stem].

Definition frac_key_eqb (a b : frac_key) : bool :=
  match a, b with
  | Grain, Grain | Leaf, Leaf | Root, Root | Stem, Stem => true
  | _, _ => false
  end.

Definition frac_get (k : frac_key) (f : fracs) : float :=
  match k with
  | Grain => frac_grain f
  | Leaf => frac_leaf f
  | Root => frac_root f
  | Stem => frac_stem f
  end.

Definition frac_put (k : frac_key) (v : float) (f : fracs) : fracs :=
  match k with
  | Grain => Fracs v (frac_leaf f) (frac_root f) (frac_stem f)
  | Leaf => Fracs (frac_grain f) v (frac_root f) (frac_stem f)
  | Root => Fracs (frac_grain f) (frac_leaf f) v (frac_stem f)
  | Stem => Fracs (frac_grain f) (frac_leaf f) (frac_root f) v
  end.

(** The body of the slider loop.  [slider key v] is what the widget for
    [key] returns when it is offered the value [v], or [None] when the
    widget raises. *)
Definition slide (slider : frac_key -> float -> option float)
  (f : fracs) (key : frac_key) : option fracs :=
  new_value <- slider key (frac_get key f) ;;
  let delta := new_value - frac_get key f in
  let f' :=
    if negb (delta =? 0) then
      fold_left
        (fun g other_key =>
           if negb (frac_key_eqb other_key key)
           then frac_put other_key (frac_get other_key g - delta / 3) g
           else g)
        frac_keys f
    else f in
  Some (frac_put key new_value f').

(** The fractions written back to the record: rescaled, then passed
    through the four sliders. *)
Definition display_fracs (slider : frac_key -> float -> option float) (f : fracs)
  : option fracs :=
  f' <- rescale f ;;
  for_each (slide slider) frac_keys f'.

(** ** [normalize_to_bool] *)

Definition normalize_to_bool (value : json) : bool :=
  match value with
  | JStr s => String.eqb (py_lower s) "true"
  | _ => py_truthy value
  end.

(** ** The widgets of the side bar *)

(** A call of a Streamlit widget, with its label and arguments. *)
Inductive widget : Type :=
| NumberInput (label : string) (value : json)
| Checkbox (label : string) (value : bool)
| TextInput (label : string) (value : string)
| Slider (label : string) (min_value max_value value : float).

(** What the widget offers before the user touches it. *)
Definition offered (w : widget) : json :=
  match w with
  | NumberInput _ value => value
  | Checkbox _ value => JBool value
  | TextInput _ value => JStr value
  | Slider _ _ _ value => JFloat value
  end.

(** [s in ("true", "false", True, False)] for a string [s] *)
Definition bool_text (s : string) : bool :=
  String.eqb s "true" || String.eqb s "false".

(** ** [display_soil_widgets]

    [ui w] is what the call [w] returns, or [None] when it raises. *)

(** The body of [for key, value in data.items()]. *)
Definition soil_widget (ui : widget -> option json) (data : dict)
  (kv : string * json) : option dict :=
  let key := fst kv in
  let value := snd kv in
  data1 <- (if is_number value
            then v <- ui (NumberInput key value) ;; Some (dict_set key v data)
            else Some data) ;;
  match value with
  | JBool b => v <- ui (Checkbox key b) ;; Some (dict_set key v data1)
  | JStr s =>
      if bool_text (py_lower s)
      then v <- ui (Checkbox key (normalize_to_bool value)) ;;
           Some (dict_set key v data1)
      else v <- ui (TextInput key s) ;; Some (dict_set key v data1)
  | _ => Some data1
  end.

Definition display_soil_widgets (ui : widget -> option json) (data : dict)
  : option dict :=
  for_each (soil_widget ui) data data.

(** ** [display_widgets]: the other fields of a record *)

(** The widget for one field, by the type of its value; the test for [int]
    comes before the test for [bool], and a [bool] is an [int].  [depth] is
    set in the loop for the events that are not crops, where a key with
    ["depth"] in it gets a slider from 0 to 200. *)
Definition field_widget (depth : bool) (label key : string) (value : json)
  : option widget :=
  match value with
  | JFloat f =>
      if depth && contains "depth" key then Some (Slider label 0 200 f)
      else Some (Slider label 0 (if f =? 0 then 1 else f * 3) f)
  | JInt z =>
      if bool_text (py_lower (py_str_int z))
      then Some (Checkbox label (normalize_to_bool value))
      else Some (NumberInput label value)
  | JBool b =>
      if bool_text (py_lower (py_str_bool b))
      then Some (Checkbox label (normalize_to_bool value))
      else Some (NumberInput label value)
  | JStr s =>
      if bool_text (py_lower s)
      then Some (Checkbox label (normalize_to_bool value))
      else Some (TextInput label s)
  | _ => None
  end.

(** The body of [for key, value in item.items()], for the keys that
    [shown] lets through. *)
Definition field_step (ui : widget -> option json) (shown : string -> bool)
  (depth : bool) (unique_key_suffix : string) (item : dict)
  (kv : string * json) : option dict :=
  if shown (fst kv) then
    match field_widget depth (fst kv ++ unique_key_suffix)%string (fst kv) (snd kv) with
    | Some w => v <- ui w ;; Some (dict_set (fst kv) v item)
    | None => Some item
    end
  else Some item.

(** [f"_{unique_id}" if unique_id else ""] *)
Definition key_suffix (unique_id : string) : string :=
  if String.eqb unique_id "" then "" else ("_" ++ unique_id)%string.

(** The loop over the fields of a crop, after its name and fractions:
    [if not "frac_" in str(key) and key != '_event_type' and key != 'name'] *)
Definition crop_shown (key : string) : bool :=
  negb (contains "frac_" key) && negb (String.eqb key "_event_type")
  && negb (String.eqb key "name").

Definition crop_fields (ui : widget -> option json) (unique_id : string)
  (item : dict) : option dict :=
  for_each (field_step ui crop_shown false (key_suffix unique_id)) item item.

(** The loop over the fields of any other event: [if key != '_event_type'] *)
Definition event_shown (key : string) : bool :=
  negb (String.eqb key "_event_type").

Definition event_fields (ui : widget -> option json) (unique_id : string)
  (item : dict) : option dict :=
  for_each (field_step ui event_shown true (key_suffix unique_id)) item item.

End UpdateConfig.

(* ================================================================== *)
(** * dndc_dashboard.py *)
(* ================================================================== *)

(** A table is the list of its rows; [return_output_df] is given the tables
    by name and returns the selected rows with their date. *)

Module Dashboard.

Import Py.
Open Scope string_scope.
Open Scope list_scope.
Open Scope Z_scope.

(** ** Calendar dates

    A timestamp is kept at day resolution, as the proleptic Gregorian
    ordinal of its date: 0001-01-01 is day 1.  The bounds of the filter are
    such ordinals as well. *)

Definition is_leap (y : Z) : bool :=
  (y mod 4 =? 0) && (negb (y mod 100 =? 0) || (y mod 400 =? 0)).

(** The number of days before January 1st of year [y]. *)
Definition days_before_year (y : Z) : Z :=
  let y' := y - 1 in y' * 365 + y' / 4 - y' / 100 + y' / 400.

Definition days_in_month (y m : Z) : Z :=
  if m =? 2 then (if is_leap y then 29 else 28)
  else if (m =? 4) || (m =? 6) || (m =? 9) || (m =? 11) then 30
  else 31.

(** The number of days of year [y] before the first day of month [m]. *)
Definition days_before_month (y m : Z) : Z :=
  fold_left (fun acc k => acc + days_in_month y k)
            (py_range 1 m) 0.

(** The ordinal of the date [y-m-d]. *)
Definition ymd_to_ordinal (y m d : Z) : Z :=
  days_before_year y + days_before_month y m + d.

(** The year and the day of the year of an ordinal (the calendar
    arithmetic of [date.fromordinal]). *)
Definition ordinal_year_day (o : Z) : Z * Z :=
  let n := o - 1 in
  let n400 := n / 146097 in
  let n := n mod 146097 in
  let n100 := n / 36524 in
  let n := n mod 36524 in
  let n4 := n / 1461 in
  let n := n mod 1461 in
  let n1 := n / 365 in
  let n := n mod 365 in
  let year := n400 * 400 + 1 + n100 * 100 + n4 * 4 + n1 in
  if (n1 =? 4) || (n100 =? 4) then (year - 1, 366) else (year, n + 1).

(** ** [pd.to_datetime(..., format='%Y%j')] *)

Definition digits_value (s : string) : option Z :=
  option_map Z.of_uint (NilEmpty.uint_of_string s).

(** [%Y] is exactly four digits, [%j] is what remains: one to three digits
    that make a day number from 1 to 366.  The date is that many days into
    the year. *)
Definition strptime_Yj (s : string) : option Z :=
  let len := String.length s in
  if (len <? 5)%nat || (7 <? len)%nat then None
  else
    year <- digits_value (substring 0 4 s) ;;
    julian <- digits_value (substring 4 (len - 4) s) ;;
    if (1 <=? year) && (1 <=? julian) && (julian <=? 366)
    then Some (days_before_year year + julian)
    else None.

(** The converted column holds nanoseconds in 64 bits, which reach from
    1677-09-21 00:12:43 to 2262-04-11 23:47:16: a date outside raises
    [OutOfBoundsDatetime]. *)
Definition ns_min_date : Z := ymd_to_ordinal 1677 9 22.
Definition ns_max_date : Z := ymd_to_ordinal 2262 4 11.

Definition in_ns_bounds (d : Z) : bool :=
  (ns_min_date <=? d) && (d <=? ns_max_date).

(** Converting a column: one bad entry makes the whole conversion fail. *)
Fixpoint to_datetime (l : list string) : option (list Z) :=
  match l with
  | [] => Some []
  | s :: l' =>
      d <- strptime_Yj s ;;
      if in_ns_bounds d then
        ds <- to_datetime l' ;;
        Some (d :: ds)
      else None
  end.

(** ** [return_output_df] *)

(** A row of a table with its integer [Year] and [Day] columns; [cells]
    holds the other columns. *)
Record row (A : Type) : Type := Row {
  Year : Z;
  Day : Z;
  cells : A
}.

Definition default_min_date : Z := ymd_to_ordinal 1900 1 1.
Definition default_max_date : Z := ymd_to_ordinal 3000 1 1.

(** [kwargs.get('min_date', '1900-01-01')] *)
Definition bound (given : option Z) (dflt : Z) : Z :=
  match given with Some d => d | None => dflt end.

(** [dataframes[column]] *)
Fixpoint frame (A : Type) (dataframes : list (string * list (row A)))
  (column : string) : option (list (row A)) :=
  match dataframes with
  | [] => None
  | (k, v) :: rest => if String.eqb column k then Some v else frame rest column
  end.

(** [df_['Year'].astype(str) + df_['Day'].astype(str)] for one row *)
Definition year_day_text (A : Type) (r : row A) : string :=
  (py_str_int (Year r) ++ py_str_int (Day r))%string.

(** [(df_['Date'] >= min_date) & (df_['Date'] <= max_date)] for one row *)
Definition in_range (A : Type) (lo hi : Z) (rd : row A * Z) : bool :=
  (lo <=? snd rd) && (snd rd <=? hi).

(** The rows that are returned, each with its [Date]. *)
Definition return_output_df (A : Type)
  (dataframes : list (string * list (row A))) (column : string)
  (min_date max_date : option Z) : option (list (row A * Z)) :=
  let min_date := bound min_date default_min_date in
  let max_date := bound max_date default_max_date in
  df_ <- frame dataframes column ;;
  dates <- to_datetime (map (@year_day_text A) df_) ;;
  Some (filter (in_range min_date max_date) (combine df_ dates)).

(** ** Checks on the text of years and days; they are evaluated over the
    whole range of four-digit years and of day numbers. *)

Definition year_text_ok (y : Z) : bool :=
  (String.length (py_str_int y) =? 4)%nat &&
  match digits_value (py_str_int y) with
  | Some v => v =? y
  | None => false
  end.

Definition day_text_ok (j : Z) : bool :=
  (1 <=? String.length (py_str_int j))%nat &&
  (String.length (py_str_int j) <=? 3)%nat &&
  match digits_value (py_str_int j) with
  | Some v => v =? j
  | None => false
  end.

(** The date the specification gives a row: January 1st of its year and
    [Day - 1] days. *)
Definition expected_date (A : Type) (r : row A) : Z :=
  ymd_to_ordinal (Year r) 1 1 + (Day r - 1).

(** The check of day 366: in a leap year it is the last day of the year,
    in any other year the first day of the next one.  It is evaluated over
    the years of the nanosecond timestamps. *)
Definition last_day_ok (y : Z) : bool :=
  let yd := ordinal_year_day (days_before_year y + 366) in
  if is_leap y then (fst yd =? y) && (snd yd =? 366)
  else (fst yd =? y + 1) && (snd yd =? 1).

(** ** [convert_json_to_dfs_updated]

    [DataFrame data columns] stands for [pd.DataFrame(data, columns=columns)]:
    the table, or [None] when pandas raises. *)

(** What is stored for a category: a table, or for ['crops'] a dictionary
    of tables by crop. *)
Inductive frames (T : Type) : Type :=
| Frame (df : T)
| Crops (dfs : list (string * T)).

(** [d[k] = v] for a dictionary with values of any type *)
Fixpoint assoc_set (V : Type) (k : string) (v : V) (d : list (string * V))
  : list (string * V) :=
  match d with
  | [] => [(k, v)]
  | (k', v') :: d' =>
      if String.eqb k k' then (k', v) :: d' else (k', v') :: assoc_set k v d'
  end.

Fixpoint assoc_get (V : Type) (k : string) (d : list (string * V)) : option V :=
  match d with
  | [] => None
  | (k', v) :: d' => if String.eqb k k' then Some v else assoc_get k d'
  end.

(** [pd.DataFrame(x['data'], columns=x['columns'])] *)
Definition table (T : Type) (DataFrame : json -> json -> option T)
  (category_data : json) : option T :=
  columns <- py_getitem (Key "columns") category_data ;;
  data <- py_getitem (Key "data") category_data ;;
  DataFrame data columns.

(** [for crop_key, crop_data in category_data.items()]: an exception leaves
    the loop, and what was stored before stays. *)
Fixpoint crop_tables (T : Type) (DataFrame : json -> json -> option T)
  (items : dict) (dfs : list (string * T)) : list (string * T) :=
  match items with
  | [] => dfs
  | (crop_key, crop_data) :: rest =>
      match table DataFrame crop_data with
      | Some df => crop_tables DataFrame rest (assoc_set crop_key df dfs)
      | None => dfs
      end
  end.

(** The body of [for category, category_data in json_data.items()], with
    its [try] and [except]. *)
Definition convert_category (T : Type) (DataFrame : json -> json -> option T)
  (dfs : list (string * frames T)) (kv : string * json)
  : list (string * frames T) :=
  let category := fst kv in
  let category_data := snd kv in
  if String.eqb category "crops" then
    assoc_set category
      (Crops (match category_data with
              | JDict items => crop_tables DataFrame items []
              | _ => []
              end))
      dfs
  else
    match table DataFrame category_data with
    | Some df => assoc_set category (Frame df) dfs
    | None => dfs
    end.

Definition convert_json_to_dfs_updated (T : Type)
  (DataFrame : json -> json -> option T) (json_data : json)
  : option (list (string * frames T)) :=
  match json_data with
  | JDict d => Some (fold_left (convert_category DataFrame) d [])
  | _ => None
  end.

(** ** [sanitize_filename]

    A file name is the list of its code points.  [isalnum c] stands for
    [chr(c).isalnum()], which the Unicode tables decide; [\w] is such a
    character or the underscore. *)

Definition word_char (isalnum : Z -> bool) (c : Z) : bool :=
  isalnum c || (c =? 95).

(** [[^\w\.-]] removes what this keeps (46 is the dot, 45 the hyphen). *)
Definition kept_char (isalnum : Z -> bool) (c : Z) : bool :=
  word_char isalnum c || (c =? 46) || (c =? 45).

Definition sanitize_filename (isalnum : Z -> bool) (filename : list Z) : list Z :=
  let filename := map (fun c => if c =? 32 then 95 else c) filename in
  filter (kept_char isalnum) filename.

End Dashboard.

(* ================================================================== *)
(** * Reference descriptions taken from the specification *)
(* ================================================================== *)

Module Spec.

Import Py UpdateConfig.
Open Scope string_scope.
Open Scope list_scope.

(** The order of attempts as the specification words it: the unwrapped
    path first, the wrapped path when that fails. *)
Definition locate_unwrapped_first (p : list step) (json_data : json)
  : option (list step * json) :=
  match get_path p json_data with
  | Some x => Some (p, x)
  | None =>
      match get_path (Idx 0 :: p) json_data with
      | Some x => Some (Idx 0 :: p, x)
      | None => None
      end
  end.

(** [event.get('_event_type', None)] and [event.get('name', '')] *)
Definition event_type_of (e : json) : json :=
  match e with JDict ev => get_default ev "_event_type" JNull | _ => JNull end.

Definition crop_name_of (e : json) : json :=
  match e with JDict ev => get_default ev "name" (JStr "") | _ => JStr "" end.

(** A record is tagged when its event type is present and not empty. *)
Definition tagged (e : json) : bool := py_truthy (event_type_of e).

Definition is_crop (e : json) : bool :=
  tagged e && py_eq (event_type_of e) (JStr "crop").

Definition is_other (e : json) : bool :=
  tagged e && negb (py_eq (event_type_of e) (JStr "crop")).

(** The earlier record [e'] stands for the later record [e]: two crop
    records of the same name, or two other records of the same type. *)
Definition same_kind (e' e : json) : bool :=
  if is_crop e
  then is_crop e' && py_same (crop_name_of e') (crop_name_of e)
  else is_other e' && py_same (event_type_of e') (event_type_of e).

(** The tagged records that no earlier record stands for, in order. *)
Fixpoint first_seen (earlier l : list json) : list json :=
  match l with
  | [] => []
  | e :: l' =>
      (if tagged e && negb (existsb (fun e' => same_kind e' e) earlier)
       then [e] else [])
      ++ first_seen (earlier ++ [e]) l'
  end.

(** The values that no earlier value is the same as, in order. *)
Fixpoint first_occurrences (earlier l : list json) : list json :=
  match l with
  | [] => []
  | x :: l' =>
      (if existsb (fun y => py_same y x) earlier then [] else [x])
      ++ first_occurrences (earlier ++ [x]) l'
  end.

(** A record the extractor can process: a dictionary whose event type and
    name can be dictionary keys. *)
Definition record_ok (e : json) : bool :=
  match e with
  | JDict _ => hashable (event_type_of e) && hashable (crop_name_of e)
  | _ => false
  end.

Unset Implicit Arguments.

(** The state of the loop after the records [pre]. *)
Record extracted (pre : list json) (st : lists) : Prop := {
  ex_crop_names :
    crop_names st = fold_left add_key (map crop_name_of (filter is_crop pre)) [];
  ex_other_events :
    other_events st = fold_left add_key (map event_type_of (filter is_other pre)) [];
  ex_data_full : data_full st = filter tagged pre;
  ex_data : data st = first_seen [] pre;
  ex_crop_data : crop_names st = map crop_name_of (filter is_crop (data st));
  ex_other_data : other_events st = map event_type_of (filter is_other (data st));
  ex_records : Forall (fun e => exists ev, e = JDict ev) pre
}.

Set Implicit Arguments.

(** [d.get('name', '')] *)
Definition name_of (d : dict) : json := get_default d "name" (JStr "").

(** The overlay entry that applies to an event type: the entry for that
    type, unless the type or the entry is empty. *)
Definition overlay_entry (event_dict : dict) (t : json) : option json :=
  if py_truthy t then
    match dict_get_key event_dict t with
    | Some entry => if py_truthy entry then Some entry else None
    | None => None
    end
  else None.

(** The value of [k] in the last of the dictionaries [ccs] that has [k]. *)
Definition last_value (k : string) (ccs : list dict) : option json :=
  fold_left (fun acc cc => match dict_get k cc with Some v => Some v | None => acc end)
            ccs None.

(** [ev'] is [ev] with the keys of [m] overwritten, where [m] is given by
    its lookup function. *)
Definition overwritten_by (m : string -> option json) (ev ev' : dict) : Prop :=
  forall k, dict_get k ev' = match m k with Some v => Some v | None => dict_get k ev end.

(** The selective update of one event record [e] into [e']. *)
Definition selectively_updated (event_dict : dict) (e e' : json) : Prop :=
  exists ev ev', e = JDict ev /\ e' = JDict ev' /\
    match overlay_entry event_dict (event_type_of e) with
    | None => ev' = ev
    | Some entry =>
        if py_eq (event_type_of e) (JStr "crop") then
          exists ccs, entry = JList (map JDict ccs) /\
            let hits := filter (fun cc => py_eq (name_of ev) (name_of cc)) ccs in
            (hits = [] -> ev' = ev) /\
            overwritten_by (fun k => last_value k hits) ev ev'
        else
          exists m, entry = JDict m /\
            overwritten_by (fun k => dict_get k m) ev ev'
    end.

(** An overlay the merge can apply: under ["crop"] a list of non-empty
    mappings, under any other type a mapping; an empty entry is skipped. *)
Definition crop_entry_ok (entry : json) : bool :=
  negb (py_truthy entry) ||
  match entry with
  | JList l => forallb (fun cc => match cc with JDict (_ :: _) => true | _ => false end) l
  | _ => false
  end.

Definition other_entry_ok (entry : json) : bool :=
  negb (py_truthy entry) ||
  match entry with JDict _ => true | _ => false end.

Definition overlay_ok (event_dict : dict) : bool :=
  forallb (fun kv => if String.eqb (fst kv) "crop"
                     then crop_entry_ok (snd kv)
                     else other_entry_ok (snd kv)) event_dict.

(** An event the merge can process: a dictionary whose event type can be
    looked up. *)
Definition event_ok (e : json) : bool :=
  match e with
  | JDict _ => hashable (event_type_of e)
  | _ => false
  end.

(** No mapping of the overlay carries the key ["_event_type"]. *)
Definition keeps_tag (m : json) : bool :=
  match m with
  | JDict d => negb (dict_has "_event_type" d)
  | _ => true
  end.

Definition entry_keeps_tags (entry : json) : bool :=
  match entry with
  | JList l => forallb keeps_tag l
  | JDict d => keeps_tag (JDict d)
  | _ => true
  end.

Definition overlay_keeps_tags (event_dict : dict) : bool :=
  forallb (fun kv => entry_keeps_tags (snd kv)) event_dict.

(** The event the specification asks for in year [year]. *)
Definition auto_fert_event (year : Z) : json :=
  JDict [("_event_type", JStr "alt_fertilizer");
         ("method", JStr "auto-fertilizer");
         ("start_date", JDict [("year", JInt year); ("month", JInt 1); ("day", JInt 1)]);
         ("end_date", JDict [("year", JInt year); ("month", JInt 12); ("day", JInt 30)])].

(** A record without its event type, as the overlay holds it. *)
Definition new_record (e : json) : json :=
  match e with
  | JDict it => JDict (new_item it)
  | _ => e
  end.

(** What the overlay of the records [data] holds under ['crop']: nothing
    when there is no crop, else the list of the crops, in order. *)
Definition crop_entry (data : list json) : option json :=
  match filter is_crop data with
  | [] => None
  | crops => Some (JList (map new_record crops))
  end.

(** What it holds under another key [t]: the last record of that type. *)
Definition last_of_type (t : json) (data : list json) : option json :=
  fold_left (fun acc e => if is_other e && key_eq (event_type_of e) t
                          then Some (new_record e) else acc)
            data None.

(** Every key of the dictionary is hashable. *)
Definition hashable_keys (d : pydict) : Prop :=
  Forall (fun kv => hashable (fst kv) = true) d.

(** The overlay of the records [data]: under ['crop'] the crops, under
    any other key the last record of that type, and no other key. *)
Definition overlay_of (data : list json) (event_dict : pydict) : Prop :=
  hashable_keys event_dict /\
  forall t, hashable t = true ->
    pd_get t event_dict
    = if key_eq (JStr "crop") t then crop_entry data else last_of_type t data.

(** What the editor's overlay is made of: distinct hashable keys, and
    well-formed values none of whose mappings carries ["_event_type"]. *)
Definition untagged_overlay (event_dict : pydict) : Prop :=
  NoDup (map fst event_dict) /\
  Forall (fun kv => hashable (fst kv) = true /\
                    entry_keeps_tags (snd kv) = true /\
                    json_wf (snd kv) = true) event_dict.

(** A mapping whose every item the record already holds. *)
Definition held_by (ev m : dict) : Prop :=
  forall kv, In kv m -> dict_get (fst kv) ev = Some (snd kv).

(** The overlay agrees with a record: the entry that applies to the record,
    if there is one, holds only items that the record already has (for a
    crop: the mappings of the record's name do, and they are not empty). *)
Definition agrees (event_dict : dict) (e : json) : Prop :=
  exists ev, e = JDict ev /\
    (py_truthy (event_type_of e) = true -> hashable (event_type_of e) = true) /\
    match overlay_entry event_dict (event_type_of e) with
    | None => True
    | Some entry =>
        if py_eq (event_type_of e) (JStr "crop") then
          exists ccs, entry = JList (map JDict ccs) /\
            forall cc, In cc ccs -> py_eq (name_of ev) (name_of cc) = true ->
                       cc <> [] /\ held_by ev cc
        else exists m, entry = JDict m /\ held_by ev m
    end.

(** The dictionary of a record. *)
Definition record_dict (e : json) : dict :=
  match e with
  | JDict d => d
  | _ => []
  end.

(** A value that gets no widget: [None], a list or a dictionary. *)
Definition plain (v : json) : bool :=
  match v with
  | JNull | JList _ | JDict _ => true
  | _ => false
  end.

(** What the widgets give back for a value when the user touches nothing:
    a text that reads "true" or "false" comes back as a boolean, any other
    value as it is. *)
Definition as_edited (v : json) : json :=
  match v with
  | JStr s => if bool_text (py_lower s) then JBool (normalize_to_bool v) else v
  | _ => v
  end.

(** The value that the soil loop leaves under the key of an item. *)
Definition soil_value (ui : widget -> option json) (kv : string * json)
  : option json :=
  v1 <- (if is_number (snd kv) then ui (NumberInput (fst kv) (snd kv))
         else Some (snd kv)) ;;
  match snd kv with
  | JBool b => ui (Checkbox (fst kv) b)
  | JStr s =>
      if bool_text (py_lower s)
      then ui (Checkbox (fst kv) (normalize_to_bool (snd kv)))
      else ui (TextInput (fst kv) s)
  | _ => Some v1
  end.

(** The value that a field loop leaves under the key of an item. *)
Definition field_value (ui : widget -> option json) (shown : string -> bool)
  (depth : bool) (unique_key_suffix : string) (kv : string * json)
  : option json :=
  if shown (fst kv) then
    match field_widget depth (fst kv ++ unique_key_suffix)%string (fst kv) (snd kv) with
    | Some w => ui w
    | None => Some (snd kv)
    end
  else Some (snd kv).

(** One item after a loop: the same key, with the value the loop leaves. *)
Definition item_after (f : string * json -> option json)
  (kv kv' : string * json) : Prop :=
  fst kv' = fst kv /\ f kv = Some (snd kv').

(** A record that [convert_to_event_dict] can take in. *)
Definition convertible (e : json) : Prop :=
  (exists it, e = JDict it) /\
  (is_other e = true -> hashable (event_type_of e) = true).

(** The year that a record gives under ["start_date"] or ["end_date"]. *)
Definition date_year (field : string) (e : json) : json :=
  match e with
  | JDict ev =>
      match get_default ev field (JDict []) with
      | JDict date => get_default date "year" JNull
      | _ => JNull
      end
  | _ => JNull
  end.

(** A record whose dates, where it has them, are dictionaries with an
    integer year or none. *)
Definition int_or_none (j : json) : bool :=
  match j with
  | JInt _ | JNull => true
  | _ => false
  end.

Definition dated (e : json) : bool :=
  match e with
  | JDict ev =>
      match get_default ev "start_date" (JDict []),
            get_default ev "end_date" (JDict []) with
      | JDict _, JDict _ =>
          int_or_none (date_year "start_date" e) &&
          int_or_none (date_year "end_date" e)
      | _, _ => false
      end
  | _ => false
  end.

(** The years that the records give, in order. *)
Definition int_years (field : string) (evs : list json) : list Z :=
  flat_map (fun e => match date_year field e with
                     | JInt y => [y]
                     | _ => []
                     end) evs.

(** The state of the loop after the years [l]: the float it starts from,
    or the year picked among [l]. *)
Definition running (pick : Z -> Z -> Z) (start : float) (l : list Z) : json :=
  match l with
  | [] => JFloat start
  | y :: ys => JInt (fold_left pick ys y)
  end.

Definition least (m : Z) (l : list Z) : Prop :=
  In m l /\ forall y, In y l -> (m <= y)%Z.

Definition greatest (m : Z) (l : list Z) : Prop :=
  In m l /\ forall y, In y l -> (y <= m)%Z.

(** ** Binary64 numbers as exact quantities

    Every finite binary64 number is a whole number of units of [2^-1074],
    the smallest positive one. *)

(** [2^e], in units. *)
Definition pow2 (e : Z) : Z := (2 ^ (e + 1074))%Z.

(** The value of a finite number, in units. *)
Definition sf_units (x : spec_float) : Z :=
  match x with
  | S754_finite s m e => cond_Zopp s (Zpos m * pow2 e)%Z
  | _ => 0%Z
  end.

Definition sf_finite (x : spec_float) : bool :=
  match x with
  | S754_zero _ | S754_finite _ _ _ => true
  | _ => false
  end.

(** [3.0] *)
Definition sf_three : spec_float := S754_finite false 6755399441055744 (-51).

Definition units (x : float) : Z := sf_units (Prim2SF x).

Definition finite (x : float) : bool := sf_finite (Prim2SF x).

(** [0 <= x <= 1]: the range of a fraction slider. *)
Definition slider_range (x : float) : bool := ((0 <=? x) && (x <=? 1))%float.

(** The fractions after one slider has been moved to [v], in the words of
    the specification: the other three are each lowered by a third of the
    change. *)
Definition moved (key : frac_key) (v : float) (f : fracs) : fracs :=
  let third := ((v - frac_get key f) / 3)%float in
  let other k := if frac_key_eqb k key then v else (frac_get k f - third)%float in
  Fracs (other Grain) (other Leaf) (other Root) (other Stem).

(** The exact sum of the four fractions, in units. *)
Definition exact_total (f : fracs) : Z :=
  (units (frac_grain f) + units (frac_leaf f)
   + units (frac_root f) + units (frac_stem f))%Z.

End Spec.

(* ================================================================== *)
(** * Sample documents *)
(* ================================================================== *)

Module Sample.

Import Py UpdateConfig.
Open Scope string_scope.
Open Scope list_scope.

(** A configuration document around an event list and a soil record. *)
Definition config (events soil : json) : json :=
  JDict [("sites",
          JList [JDict [("fields",
                         JList [JDict [("soil", soil);
                                       ("rotations",
                                        JList [JDict [("events", events)]])]])]])].

Definition soil : json :=
  JDict [("clay", JFloat 0.25); ("ph", JFloat 6.5); ("texture", JStr "loam")].

Definition crop (name : string) (tdd : float) : json :=
  JDict [("_event_type", JStr "crop"); ("name", JStr name);
         ("tdd", JFloat tdd); ("is_transplant", JInt 0)].

Definition irrigation (method : string) : json :=
  JDict [("_event_type", JStr "autoirrigation"); ("method", JStr method);
         ("depth", JFloat 0)].

(** Two crops, one of them twice, and two irrigation records. *)
Definition events : list json :=
  [crop "A" 1200; irrigation "drip"; crop "B" 1500; crop "A" 900;
   irrigation "furrow"].

Definition doc : json := config (JList events) soil.

(** A crop whose name is NaN: [json.load] makes one object of every NaN of
    the document. *)
Definition unnamed (tdd : float) : json :=
  JDict [("_event_type", JStr "crop"); ("name", JFloat PrimFloat.nan);
         ("tdd", JFloat tdd)].

Definition doc_nan_names : json := config (JList [unnamed 1200; unnamed 900]) soil.

(** A record without an event type among the events. *)
Definition note : json := JDict [("name", JStr "note")].

Definition doc_with_note : json := config (JList [crop "A" 1200; note]) soil.

(** An event location that holds an empty object, not a list. *)
Definition doc_events_object : json := config (JDict []) soil.

(** An overlay editing crop "A" and the irrigation. *)
Definition overlay : dict :=
  [("crop", JList [JDict [("name", JStr "A"); ("tdd", JFloat 4000)]]);
   ("autoirrigation", JDict [("method", JStr "furrow")])].

(** An overlay whose mapping retags the record it is merged into. *)
Definition retagging_overlay : dict :=
  [("autoirrigation", JDict [("_event_type", JStr "irrigation")]);
   ("irrigation", JDict [("depth", JFloat 5)])].

Definition soil_overlay : dict :=
  [("ph", JFloat 7); ("organic", JFloat 0.5)].

(** A document without repeated names or types, and an overlay that holds
    what its records hold. *)
Definition plain_events : list json := [crop "A" 1200; irrigation "drip"].

Definition plain_doc : json := config (JList plain_events) soil.

Definition same_overlay : dict :=
  [("crop", JList [JDict [("name", JStr "A"); ("tdd", JFloat 1200)]]);
   ("autoirrigation", JDict [("method", JStr "drip")])].

(** A soil record with a text that reads as a boolean and with a list. *)
Definition soil_flags : dict :=
  [("clay", JFloat 0.25); ("drained", JStr "True"); ("layers", JList []);
   ("texture", JStr "loam")].

(** A user who touches nothing, and one whose every widget returns [True]. *)
Definition untouched (w : widget) : option json := Some (offered w).

Definition all_true (w : widget) : option json := Some (JBool true).

(** An irrigation record with a depth, a flag and a count. *)
Definition flooding : dict :=
  [("_event_type", JStr "irrigation"); ("depth", JFloat 5); ("on", JBool true);
   ("times", JInt 3); ("note", JStr "false"); ("frac_x", JFloat 0.5)].

(** A stand-in for pandas: the table is made when the data and the
    columns are lists. *)
Definition frame_of (data columns : json) : option (json * json) :=
  match data, columns with
  | JList _, JList _ => Some (columns, data)
  | _, _ => None
  end.

Definition no_rows : json :=
  JDict [("columns", JList [JStr "Year"; JStr "Day"]); ("data", JList [])].

(** The output of a model run: a category without data, and a crop that is
    not a table between two that are. *)
Definition output : dict :=
  [("soil", no_rows);
   ("water", JDict [("columns", JList [JStr "Year"])]);
   ("crops", JDict [("maize", no_rows); ("rye", JNull); ("oats", no_rows)])].

(** Two crops with their seasons, and an irrigation record without dates. *)
Definition planting (name : string) (first last : Z) : json :=
  JDict [("_event_type", JStr "crop"); ("name", JStr name);
         ("start_date",
          JDict [("year", JInt first); ("month", JInt 4); ("day", JInt 1)]);
         ("end_date",
          JDict [("year", JInt last); ("month", JInt 10); ("day", JInt 1)])].

Definition plantings : list json :=
  [planting "A" 2002 2002; irrigation "drip"; planting "B" 2001 2003].

(** Fractions with the total 1.5, and fractions with the total 1. *)
Definition fractions : fracs := Fracs 0.5 0.25 0.5 0.25.

Definition quarters : fracs := Fracs 0.25 0.25 0.25 0.25.

(** The user moves the first slider to one half and leaves the others. *)
Definition grain_to_half (key : frac_key) (v : float) : option float :=
  match key with
  | Grain => Some 0.5%float
  | _ => Some v
  end.

(** Fractions with the total 1 that lie far outside the range of the
    sliders, and a user who moves the last slider to 0.3 and leaves the
    others. *)
Definition large_fractions : fracs := Fracs 1e16 (-1e16) 1 0.

Definition stem_to_0_3 (key : frac_key) (v : float) : option float :=
  match key with
  | Stem => Some 0.3%float
  | _ => Some v
  end.

End Sample.

(* ================================================================== *)
(** * Facts about the Python values *)
(* ================================================================== *)

Import Py UpdateConfig Dashboard Spec.
Open Scope string_scope.
Open Scope list_scope.

Unset Implicit Arguments.

Section JsonInduction.

Variable P : json -> Prop.
Hypothesis Hnull : P JNull.
Hypothesis Hbool : forall b, P (JBool b).
Hypothesis Hint : forall z, P (JInt z).
Hypothesis Hfloat : forall f, P (JFloat f).
Hypothesis Hstr : forall s, P (JStr s).
Hypothesis Hlist : forall l, Forall P l -> P (JList l).
Hypothesis Hdict : forall d, Forall (fun kv => P (snd kv)) d -> P (JDict d).

(** Induction over a document, with the hypothesis for every element of a
    list and every value of a dictionary. *)
Lemma json_nested_ind : forall j, P j.
Proof.
  fix IH 1. intros [ | b | z | f | s | l | d].
  - apply Hnull.
  - apply Hbool.
  - apply Hint.
  - apply Hfloat.
  - apply Hstr.
  - apply Hlist. induction l as [ | x l IHl]; constructor; [apply IH | exact IHl].
  - apply Hdict. induction d as [ | [k v] d IHd]; constructor; [apply IH | exact IHd].
Qed.

End JsonInduction.

(** ** Dictionaries *)

Lemma dict_get_set_same k v d : dict_get k (dict_set k v d) = Some v.
Proof.
  induction d as [ | [k' v'] d IH]; simpl.
  - now rewrite String.eqb_refl.
  - destruct (String.eqb k k') eqn:E; simpl; rewrite E; auto.
Qed.

Lemma dict_get_set_other k k' v d :
  k <> k' -> dict_get k (dict_set k' v d) = dict_get k d.
Proof.
  intros Hne. induction d as [ | [k0 v0] d IH]; simpl.
  - destruct (String.eqb_spec k k'); congruence.
  - destruct (String.eqb_spec k' k0); simpl.
    + subst. destruct (String.eqb_spec k k0); congruence.
    + now rewrite IH.
Qed.

Lemma dict_get_set k k' v d :
  dict_get k (dict_set k' v d) = if String.eqb k k' then Some v else dict_get k d.
Proof.
  destruct (String.eqb_spec k k').
  - subst. apply dict_get_set_same.
  - now apply dict_get_set_other.
Qed.

Lemma dict_has_set k k' v d :
  dict_has k (dict_set k' v d) = String.eqb k k' || dict_has k d.
Proof.
  unfold dict_has. rewrite dict_get_set. now destruct (String.eqb k k').
Qed.

Lemma dict_get_In k d v : dict_get k d = Some v -> In (k, v) d.
Proof.
  induction d as [ | [k' v'] d IH]; simpl; [discriminate | ].
  destruct (String.eqb_spec k k').
  - intros [= <-]. subst. now left.
  - intros H. right. auto.
Qed.

Lemma dict_get_None k d : dict_get k d = None <-> ~ In k (keys d).
Proof.
  induction d as [ | [k' v'] d IH]; simpl.
  - tauto.
  - destruct (String.eqb_spec k k').
    + subst. split; [discriminate | intros H; elim H; now left].
    + rewrite IH. split; [intros H [E | E]; [congruence | tauto] | tauto].
Qed.

Lemma dict_has_keys k d : dict_has k d = true <-> In k (keys d).
Proof.
  unfold dict_has. destruct (dict_get k d) eqn:E.
  - split; [intros _ | reflexivity].
    apply dict_get_In in E. apply (in_map fst) in E. exact E.
  - apply dict_get_None in E. split; [discriminate | tauto].
Qed.

(** Assigning to a key that is present keeps the keys and their order. *)
Lemma keys_set_present k v d : In k (keys d) -> keys (dict_set k v d) = keys d.
Proof.
  induction d as [ | [k' v'] d IH]; simpl; [tauto | ].
  destruct (String.eqb_spec k k'); simpl; [reflexivity | ].
  intros [E | E]; [congruence | ]. now rewrite IH.
Qed.

Lemma keys_set_absent k v d : ~ In k (keys d) -> keys (dict_set k v d) = keys d ++ [k].
Proof.
  induction d as [ | [k' v'] d IH]; simpl; [reflexivity | ].
  destruct (String.eqb_spec k k'); simpl.
  - intros H. elim H. now left.
  - intros H. rewrite IH; tauto.
Qed.

Lemma dict_set_set k v v' d : dict_set k v (dict_set k v' d) = dict_set k v d.
Proof.
  induction d as [ | [k' w] d IH]; simpl.
  - now rewrite String.eqb_refl.
  - destruct (String.eqb k k') eqn:E; simpl; rewrite E; [reflexivity | now rewrite IH].
Qed.

(** Two assignments commute when one of the keys is already there. *)
Lemma dict_set_comm k k' v v' d :
  k <> k' -> In k (keys d) ->
  dict_set k v (dict_set k' v' d) = dict_set k' v' (dict_set k v d).
Proof.
  intros Hne. induction d as [ | [k0 w] d IH]; simpl; [tauto | ].
  intros Hin.
  destruct (String.eqb_spec k' k0), (String.eqb_spec k k0); subst; simpl;
    rewrite ?String.eqb_refl; try congruence.
  - destruct (String.eqb_spec k k0); [congruence | reflexivity].
  - destruct (String.eqb_spec k' k0); [congruence | reflexivity].
  - destruct (String.eqb_spec k k0); [congruence | ].
    destruct (String.eqb_spec k' k0); [congruence | ].
    rewrite IH; [reflexivity | ]. destruct Hin; [congruence | assumption].
Qed.

Lemma dict_set_get_same k v d : dict_get k d = Some v -> dict_set k v d = d.
Proof.
  induction d as [ | [k' w] d IH]; simpl; [discriminate | ].
  destruct (String.eqb_spec k k').
  - now intros [= ->].
  - intros H. now rewrite IH.
Qed.

(** ** Copying the items of one dictionary into another *)

Lemma assign_items_cons kv src d :
  assign_items (kv :: src) d = assign_items src (dict_set (fst kv) (snd kv) d).
Proof. reflexivity. Qed.

Lemma assign_items_app s1 s2 d :
  assign_items (s1 ++ s2) d = assign_items s2 (assign_items s1 d).
Proof. unfold assign_items. apply fold_left_app. Qed.

Lemma assign_items_keeps_keys src : forall d k,
  In k (keys d) -> In k (keys (assign_items src d)).
Proof.
  induction src as [ | [k' v'] src IH]; intros d k Hin; [exact Hin | ].
  rewrite assign_items_cons. apply IH. simpl.
  apply dict_has_keys. rewrite dict_has_set.
  apply dict_has_keys in Hin. rewrite Hin. apply orb_true_r.
Qed.

Lemma assign_items_has_keys src : forall d k,
  In k (keys src) -> In k (keys (assign_items src d)).
Proof.
  induction src as [ | [k' v'] src IH]; intros d k Hin; [destruct Hin | ].
  rewrite assign_items_cons. simpl in Hin. destruct Hin as [-> | Hin].
  - apply assign_items_keeps_keys. simpl.
    apply dict_has_keys. rewrite dict_has_set, String.eqb_refl. reflexivity.
  - now apply IH.
Qed.

(** A key the source does not have keeps its value. *)
Lemma assign_items_get_other src : forall d k,
  ~ In k (keys src) -> dict_get k (assign_items src d) = dict_get k d.
Proof.
  induction src as [ | [k' v'] src IH]; intros d k Hin; [reflexivity | ].
  rewrite assign_items_cons, IH by (simpl in Hin; tauto).
  simpl. apply dict_get_set_other. simpl in Hin. intros ->. tauto.
Qed.

(** With distinct source keys, a key of the source gets the source's value. *)
Lemma assign_items_get src : forall d k,
  NoDup (keys src) ->
  dict_get k (assign_items src d) =
  match dict_get k src with Some v => Some v | None => dict_get k d end.
Proof.
  induction src as [ | [k' v'] src IH]; intros d k Hnd; [reflexivity | ].
  rewrite assign_items_cons. simpl in *. inversion_clear Hnd as [ | ? ? Hk Hnd'].
  rewrite IH by assumption.
  destruct (String.eqb_spec k k').
  - subst. apply dict_get_None in Hk. rewrite Hk. apply dict_get_set_same.
  - destruct (dict_get k src); [reflexivity | ]. now apply dict_get_set_other.
Qed.

Lemma assign_items_absorbs src : forall d k v,
  In k (keys d) -> assigned k src = true ->
  assign_items src (dict_set k v d) = assign_items src d.
Proof.
  induction src as [ | [k' v'] src IH]; intros d k v Hin Has; [discriminate | ].
  rewrite !assign_items_cons. unfold assigned in *. simpl in *.
  destruct (String.eqb_spec k k').
  - subst. now rewrite dict_set_set.
  - rewrite <- (dict_set_comm k k' v v' d n Hin). apply IH; [ | exact Has].
    apply dict_has_keys. rewrite dict_has_set.
    apply dict_has_keys in Hin. rewrite Hin. apply orb_true_r.
Qed.

Lemma assign_items_commutes src : forall d k v,
  In k (keys d) -> assigned k src = false ->
  assign_items src (dict_set k v d) = dict_set k v (assign_items src d).
Proof.
  induction src as [ | [k' v'] src IH]; intros d k v Hin Has; [reflexivity | ].
  rewrite !assign_items_cons. unfold assigned in *. simpl in *.
  destruct (String.eqb_spec k k'); [discriminate | ].
  rewrite <- (dict_set_comm k k' v v' d n Hin). apply IH; [ | exact Has].
  apply dict_has_keys. rewrite dict_has_set.
  apply dict_has_keys in Hin. rewrite Hin. apply orb_true_r.
Qed.

(** Copying the same items a second time changes nothing. *)
Lemma assign_items_idem src : forall d,
  assign_items src (assign_items src d) = assign_items src d.
Proof.
  induction src as [ | [k v] src IH]; intros d; [reflexivity | ].
  rewrite !assign_items_cons. simpl.
  assert (Hk : In k (keys (dict_set k v d))).
  { apply dict_has_keys. rewrite dict_has_set, String.eqb_refl. reflexivity. }
  destruct (assigned k src) eqn:Has.
  - rewrite assign_items_absorbs; auto using assign_items_keeps_keys.
  - rewrite assign_items_commutes, IH; auto using assign_items_keeps_keys.
    rewrite <- assign_items_commutes, dict_set_set; auto.
Qed.

(** ** Subscript paths *)

Lemma nth_error_list_set n x : forall l y,
  nth_error l n = Some y -> nth_error (list_set n x l) n = Some x.
Proof.
  induction n as [ | n IH]; intros [ | z l] y; simpl; try discriminate; auto.
  apply IH.
Qed.

Lemma list_set_list_set n x x' : forall l,
  list_set n x (list_set n x' l) = list_set n x l.
Proof.
  induction n as [ | n IH]; intros [ | z l]; simpl; auto. now rewrite IH.
Qed.

Lemma list_set_same n : forall l x, nth_error l n = Some x -> list_set n x l = l.
Proof.
  induction n as [ | n IH]; intros [ | z l] x; simpl; try discriminate.
  - now intros [= ->].
  - intros H. now rewrite IH.
Qed.

(** Writing through a path that resolves succeeds, and the path then
    resolves to what was written. *)
Lemma set_path_resolves p v : forall j x,
  idx_then_key p = true ->
  get_path p j = Some x ->
  exists j', set_path p v j = Some j' /\ get_path p j' = Some v.
Proof.
  induction p as [ | s p IH]; intros j x Hp Hget.
  - simpl. eauto.
  - destruct s as [n | k], j as [ | b | z | f | t | l | d];
      simpl in Hget; try discriminate.
    + destruct p as [ | [m | k] p]; simpl in Hp; try discriminate.
      destruct (String.get n t); discriminate.
    + assert (Hp' : idx_then_key p = true)
        by (destruct p as [ | [m | k] p]; simpl in Hp; try discriminate; exact Hp).
      destruct (nth_error l n) as [y | ] eqn:Hn; [ | discriminate].
      destruct (IH _ _ Hp' Hget) as (y' & Hy & Hy').
      simpl. rewrite Hn, Hy.
      eexists. split; [reflexivity | ]. simpl.
      now rewrite (nth_error_list_set _ _ _ _ Hn).
    + destruct (dict_get k d) as [y | ] eqn:Hk; [ | discriminate].
      destruct (IH _ _ Hp Hget) as (y' & Hy & Hy').
      simpl. rewrite Hk, Hy.
      eexists. split; [reflexivity | ]. simpl.
      now rewrite dict_get_set_same.
Qed.

Lemma set_path_idem p v : forall j j',
  set_path p v j = Some j' -> set_path p v j' = Some j'.
Proof.
  induction p as [ | s p IH]; intros j j' Hset; simpl in *.
  - congruence.
  - destruct s as [n | k], j as [ | b | z | f | t | l | d]; try discriminate.
    + destruct (nth_error l n) as [y | ] eqn:Hn; [ | discriminate].
      destruct (set_path p v y) as [y' | ] eqn:Hy; [ | discriminate].
      injection Hset as <-.
      simpl. rewrite (nth_error_list_set _ _ _ _ Hn), (IH _ _ Hy).
      now rewrite list_set_list_set.
    + destruct (dict_get k d) as [y | ] eqn:Hk; [ | discriminate].
      destruct (set_path p v y) as [y' | ] eqn:Hy; [ | discriminate].
      injection Hset as <-.
      simpl. rewrite dict_get_set_same, (IH _ _ Hy).
      now rewrite dict_set_set.
Qed.

Lemma set_path_same p : forall j x,
  idx_then_key p = true ->
  get_path p j = Some x -> set_path p x j = Some j.
Proof.
  induction p as [ | s p IH]; intros j x Hp Hget.
  - simpl in *. congruence.
  - destruct s as [n | k], j as [ | b | z | f | t | l | d];
      simpl in Hget; try discriminate.
    + destruct p as [ | [m | k] p]; simpl in Hp; try discriminate.
      destruct (String.get n t); discriminate.
    + assert (Hp' : idx_then_key p = true)
        by (destruct p as [ | [m | k] p]; simpl in Hp; try discriminate; exact Hp).
      destruct (nth_error l n) as [y | ] eqn:Hn; [ | discriminate].
      simpl. rewrite Hn, (IH _ _ Hp' Hget). now rewrite (list_set_same _ _ _ Hn).
    + destruct (dict_get k d) as [y | ] eqn:Hk; [ | discriminate].
      simpl. rewrite Hk, (IH _ _ Hp Hget). now rewrite (dict_set_get_same _ _ _ Hk).
Qed.

(** The wrapped and the unwrapped path never resolve on the same value:
    the first subscripts a list or a string, the second a dictionary. *)
Lemma wrapped_excludes_unwrapped k p j :
  get_path (Idx 0 :: Key k :: p) j <> None -> get_path (Key k :: p) j = None.
Proof.
  destruct j; simpl; try congruence; intros _; reflexivity.
Qed.

Lemma locate_cases k p j loc :
  locate (Key k :: p) j = Some loc ->
  get_path (fst loc) j = Some (snd loc) /\
  (fst loc = Idx 0 :: Key k :: p \/
   fst loc = Key k :: p /\ exists d, j = JDict d).
Proof.
  unfold locate.
  destruct (get_path (Idx 0 :: Key k :: p) j) eqn:Hw.
  - intros [= <-]. simpl fst. simpl snd. auto.
  - destruct (get_path (Key k :: p) j) eqn:Hu; [ | discriminate].
    intros [= <-]. simpl fst. simpl snd. split; [assumption | right].
    split; [reflexivity | ]. destruct j; try discriminate. eauto.
Qed.

(** After the located object has been replaced, the same path is located. *)
Lemma locate_after_set k p j loc v j' :
  idx_then_key (Idx 0 :: Key k :: p) = true ->
  locate (Key k :: p) j = Some loc ->
  set_path (fst loc) v j = Some j' ->
  locate (Key k :: p) j' = Some (fst loc, v).
Proof.
  intros Hp Hloc Hset.
  destruct (locate_cases _ _ _ _ Hloc) as (Hget & Hcase).
  assert (Hp' : idx_then_key (fst loc) = true)
    by (destruct Hcase as [E | (E & _)]; rewrite E; exact Hp).
  destruct (set_path_resolves _ v _ _ Hp' Hget) as (j2 & Hset2 & Hget2).
  rewrite Hset in Hset2. injection Hset2 as <-.
  unfold locate. destruct Hcase as [E | (E & d & ->)]; rewrite E in *.
  - now rewrite Hget2.
  - simpl in Hset. destruct (dict_get k d); [ | discriminate].
    destruct (set_path p v j); [ | discriminate]. injection Hset as <-.
    simpl in Hget2. simpl. now rewrite Hget2.
Qed.

(** ** Comparison *)

Arguments num_eqb : simpl never.
Arguments num_of_float : simpl never.

Lemma num_eqb_eq x y : num_eqb x y = true <-> x = y.
Proof.
  unfold num_eqb.
  destruct x as [a | s m e | s], y as [b | s' m' e' | s']; try (split; congruence).
  - rewrite Z.eqb_eq. split; congruence.
  - rewrite !andb_true_iff, Bool.eqb_true_iff, Pos.eqb_eq, Z.eqb_eq.
    split; [intros [[-> ->] ->]; reflexivity | intros [= -> -> ->]; auto].
  - rewrite Bool.eqb_true_iff. split; congruence.
Qed.

Ltac numbers :=
  simpl in *;
  repeat match goal with
         | H : context [num_of_float ?x] |- _ => destruct (num_of_float x)
         | |- context [num_of_float ?x] => destruct (num_of_float x)
         end;
  rewrite ?num_eqb_eq in *; try discriminate; try congruence.

Lemma nodupb_NoDup l : nodupb l = true <-> NoDup l.
Proof.
  induction l as [ | x l IH]; simpl.
  - split; [constructor | reflexivity].
  - rewrite andb_true_iff, negb_true_iff, IH. split.
    + intros [Hx Hl]. constructor; [ | assumption].
      intros Hin. apply Bool.not_true_iff_false in Hx. apply Hx.
      apply existsb_exists. exists x. split; [assumption | apply String.eqb_refl].
    + intros H. inversion_clear H as [ | ? ? Hx Hl]. split; [ | assumption].
      apply Bool.not_true_iff_false. intros Hex.
      apply existsb_exists in Hex. destruct Hex as (y & Hy & E).
      apply String.eqb_eq in E. subst. contradiction.
Qed.

Lemma dict_get_NoDup k v d : NoDup (keys d) -> In (k, v) d -> dict_get k d = Some v.
Proof.
  induction d as [ | [k' v'] d IH]; simpl; [tauto | ].
  intros Hnd [E | Hin]; inversion_clear Hnd as [ | ? ? Hk Hd].
  - injection E as -> ->. now rewrite String.eqb_refl.
  - destruct (String.eqb_spec k k'); [ | auto].
    subst. elim Hk. apply (in_map fst) in Hin. exact Hin.
Qed.

Lemma json_wf_dict_get k d v :
  json_wf (JDict d) = true -> dict_get k d = Some v -> json_wf v = true.
Proof.
  simpl. rewrite andb_true_iff. intros [_ H] Hget.
  rewrite forallb_forall in H. apply dict_get_In in Hget. apply (H _ Hget).
Qed.

(** [==] is transitive. *)
Lemma py_eq_trans : forall a b c,
  py_eq a b = true -> py_eq b c = true -> py_eq a c = true.
Proof.
  induction a as [ | x | x | x | x | l IH | d IH] using json_nested_ind;
    intros b c Hab Hbc.
  1-5: destruct b, c; simpl in *; try discriminate; try reflexivity; numbers.
  - apply String.eqb_eq in Hab, Hbc. apply String.eqb_eq. congruence.
  - destruct b as [ | | | | | m | ]; simpl in Hab; try discriminate.
    destruct c as [ | | | | | n | ]; simpl in Hbc; try discriminate.
    simpl. revert m n Hab Hbc.
    induction IH as [ | x l Hx _ IHl]; intros [ | y m] [ | z n];
      simpl; try discriminate; auto.
    rewrite !andb_true_iff. intros [H1 H2] [H3 H4]. eauto.
  - destruct b as [ | | | | | | e]; simpl in Hab; try discriminate.
    destruct c as [ | | | | | | g]; simpl in Hbc; try discriminate.
    simpl. rewrite andb_true_iff in *. destruct Hab as [L1 S1], Hbc as [L2 S2].
    apply Nat.eqb_eq in L1, L2. split; [apply Nat.eqb_eq; congruence | ].
    rewrite forallb_forall in *. intros [k v] Hin. simpl.
    specialize (S1 _ Hin). simpl in S1.
    destruct (dict_get k e) as [w | ] eqn:Hw; [ | discriminate].
    specialize (S2 _ (dict_get_In _ _ _ Hw)). simpl in S2.
    destruct (dict_get k g) as [u | ]; [ | discriminate].
    rewrite Forall_forall in IH. apply (IH _ Hin _ _ S1 S2).
Qed.

(** [==] is symmetric on values whose dictionaries have distinct keys. *)
Lemma py_eq_sym : forall a b,
  json_wf a = true -> json_wf b = true ->
  py_eq a b = true -> py_eq b a = true.
Proof.
  induction a as [ | x | x | x | x | l IH | d IH] using json_nested_ind;
    intros b Wa Wb Hab.
  1-5: destruct b; simpl in *; try discriminate; try reflexivity; numbers.
  - now rewrite String.eqb_sym.
  - destruct b as [ | | | | | m | ]; simpl in Hab; try discriminate.
    simpl in *. revert m Wa Wb Hab.
    induction IH as [ | x l Hx _ IHl]; intros [ | y m];
      simpl; try discriminate; auto.
    rewrite !andb_true_iff. intros [W1 W2] [W3 W4] [H1 H2]. auto.
  - destruct b as [ | | | | | | e]; simpl in Hab; try discriminate.
    simpl in *. rewrite andb_true_iff in *.
    destruct Hab as [L S], Wa as [Nd Wd], Wb as [Ne We].
    apply Nat.eqb_eq in L. apply nodupb_NoDup in Nd, Ne.
    split; [apply Nat.eqb_eq; congruence | ].
    rewrite forallb_forall in *. rewrite Forall_forall in IH.
    assert (Hincl : incl (keys d) (keys e)).
    { intros k Hk. apply in_map_iff in Hk. destruct Hk as ([k' v] & <- & Hin).
      specialize (S _ Hin). simpl in *.
      destruct (dict_get k' e) eqn:E; [ | discriminate].
      apply dict_get_In in E. apply (in_map fst) in E. exact E. }
    assert (Hback : incl (keys e) (keys d)).
    { apply NoDup_length_incl; [assumption | | assumption].
      unfold keys. rewrite !length_map. lia. }
    intros [k w] Hin. simpl.
    assert (Hk : In k (keys d)) by (apply Hback; apply (in_map fst) in Hin; exact Hin).
    apply dict_has_keys in Hk. unfold dict_has in Hk.
    destruct (dict_get k d) as [v | ] eqn:Hv; [ | discriminate].
    pose proof (dict_get_In _ _ _ Hv) as Hvin.
    specialize (S _ Hvin). simpl in S.
    rewrite (dict_get_NoDup _ _ _ Ne Hin) in S.
    exact (IH _ Hvin w (Wd _ Hvin) (We _ Hin) S).
Qed.

(** Equal values compare alike with every other value. *)
Lemma py_eq_congr a b :
  json_wf a = true -> json_wf b = true -> py_eq a b = true ->
  forall w, py_eq a w = py_eq b w.
Proof.
  intros Wa Wb Hab w.
  destruct (py_eq a w) eqn:Haw, (py_eq b w) eqn:Hbw; try reflexivity.
  - rewrite (py_eq_trans _ _ _ (py_eq_sym _ _ Wa Wb Hab) Haw) in Hbw. discriminate.
  - rewrite (py_eq_trans _ _ _ Hab Hbw) in Haw. discriminate.
Qed.

Lemma py_eq_crop t : py_eq t (JStr "crop") = true <-> t = JStr "crop".
Proof.
  destruct t; simpl; try (split; [discriminate | congruence]);
    try (split; [numbers | discriminate]).
  rewrite String.eqb_eq. split; congruence.
Qed.

(** ** Keys: equal values, and NaN *)

(** A value that equals a hashable value is hashable. *)
Lemma py_eq_hashable y x :
  py_eq y x = true -> hashable y = true -> hashable x = true.
Proof.
  intros Heq Hy.
  destruct y, x; simpl in *; try reflexivity; try discriminate; numbers.
Qed.

Lemma nan_no_number f : negb (f =? f)%float = true <-> num_of_float f = None.
Proof.
  rewrite eqb_spec. unfold num_of_float, SFeqb.
  destruct (Prim2SF f) as [s | s | | s m e]; simpl.
  - split; discriminate.
  - destruct s; split; discriminate.
  - split; reflexivity.
  - rewrite Z.compare_refl, Pcompare_refl. destruct s; simpl; split; discriminate.
Qed.

Lemma py_eq_nan_r a b : is_nan b = true -> py_eq a b = false.
Proof.
  destruct b as [ | | | f | | | ]; try discriminate. simpl is_nan.
  intros H. apply nan_no_number in H.
  destruct a; simpl; rewrite ?H; try reflexivity.
  match goal with
  | |- context [num_of_float ?x] => destruct (num_of_float x)
  end; reflexivity.
Qed.

Lemma py_eq_nan_l a b : is_nan a = true -> py_eq a b = false.
Proof.
  destruct a as [ | | | f | | | ]; try discriminate. simpl is_nan.
  intros H. apply nan_no_number in H.
  destruct b; simpl; rewrite ?H; reflexivity.
Qed.

Lemma hashable_wf a : hashable a = true -> json_wf a = true.
Proof. destruct a; simpl; congruence. Qed.

Lemma py_eq_refl_hashable a :
  hashable a = true -> is_nan a = false -> py_eq a a = true.
Proof.
  destruct a as [ | b | z | f | s | | ]; simpl; try discriminate; intros _ Hn.
  - reflexivity.
  - apply Z.eqb_refl.
  - apply Z.eqb_refl.
  - destruct (num_of_float f) as [x | ] eqn:E.
    + now apply num_eqb_eq.
    + apply nan_no_number in E. rewrite E in Hn. discriminate.
  - apply String.eqb_refl.
Qed.

Lemma key_eq_refl a : hashable a = true -> key_eq a a = true.
Proof.
  intros H. unfold key_eq. destruct (is_nan a) eqn:Hn.
  - apply orb_true_r.
  - now rewrite py_eq_refl_hashable.
Qed.

Lemma key_eq_sym a b :
  hashable a = true -> hashable b = true -> key_eq a b = key_eq b a.
Proof.
  intros Ha Hb. unfold key_eq. rewrite (andb_comm (is_nan a)). f_equal.
  destruct (py_eq a b) eqn:E1, (py_eq b a) eqn:E2; try reflexivity.
  - rewrite (py_eq_sym _ _ (hashable_wf _ Ha) (hashable_wf _ Hb) E1) in E2.
    discriminate.
  - rewrite (py_eq_sym _ _ (hashable_wf _ Hb) (hashable_wf _ Ha) E2) in E1.
    discriminate.
Qed.

Lemma key_eq_trans a b c :
  key_eq a b = true -> key_eq b c = true -> key_eq a c = true.
Proof.
  unfold key_eq. rewrite !orb_true_iff, !andb_true_iff.
  intros [H1 | (Na & Nb)] [H2 | (Nb' & Nc)].
  - left. eapply py_eq_trans; eauto.
  - rewrite (py_eq_nan_r a b Nb') in H1. discriminate.
  - rewrite (py_eq_nan_l b c Nb) in H2. discriminate.
  - auto.
Qed.

(** Two keys that are one key compare alike with every key. *)
Lemma key_eq_congr a b t :
  hashable a = true -> hashable b = true -> hashable t = true ->
  key_eq a b = true -> key_eq a t = key_eq b t.
Proof.
  intros Ha Hb Ht Hab.
  destruct (key_eq a t) eqn:E1, (key_eq b t) eqn:E2; try reflexivity.
  - rewrite key_eq_sym in Hab by assumption.
    rewrite (key_eq_trans _ _ _ Hab E1) in E2. discriminate.
  - rewrite (key_eq_trans _ _ _ Hab E2) in E1. discriminate.
Qed.

Lemma key_eq_str s t : key_eq (JStr s) t = true <-> t = JStr s.
Proof.
  unfold key_eq. simpl. rewrite orb_false_r.
  destruct t; simpl; try (split; [discriminate | congruence]).
  rewrite String.eqb_eq. split; congruence.
Qed.

Lemma py_eq_str t s : py_eq t (JStr s) = true <-> t = JStr s.
Proof.
  destruct t; simpl; try (split; [discriminate | congruence]);
    try (split; [numbers | discriminate]).
  rewrite String.eqb_eq. split; congruence.
Qed.

(** ** The test of [in]: the same object, or an equal one *)

(** Where one side is no list and no dictionary, the test is that of the
    dictionary keys. *)
Lemma py_same_scalar a b :
  hashable a = true \/ hashable b = true -> py_same a b = key_eq a b.
Proof. intros [H | H]; destruct a, b; try discriminate; reflexivity. Qed.

Lemma key_eq_hashable a b :
  key_eq a b = true -> hashable a = true -> hashable b = true.
Proof.
  unfold key_eq. rewrite orb_true_iff, andb_true_iff. intros [H | (_ & H)] Ha.
  - exact (py_eq_hashable _ _ H Ha).
  - destruct b; try discriminate; reflexivity.
Qed.

Lemma py_same_hashable a b :
  py_same a b = true -> hashable a = true -> hashable b = true.
Proof.
  intros H Ha. rewrite py_same_scalar in H by (left; exact Ha).
  exact (key_eq_hashable _ _ H Ha).
Qed.

(** An equal value is the same. *)
Lemma py_eq_same : forall a b, py_eq a b = true -> py_same a b = true.
Proof.
  induction a as [ | x | x | x | x | l IH | d IH] using json_nested_ind;
    intros b Hab.
  1-5: rewrite py_same_scalar by (left; reflexivity); unfold key_eq;
       now rewrite Hab.
  - destruct b as [ | | | | | m | ]; simpl in Hab; try discriminate.
    simpl. revert m Hab.
    induction IH as [ | x l Hx _ IHl]; intros [ | y m];
      simpl; try discriminate; auto.
    rewrite !andb_true_iff. intros [H1 H2]. auto.
  - destruct b as [ | | | | | | e]; simpl in Hab; try discriminate.
    simpl. rewrite andb_true_iff in *. destruct Hab as [L S].
    split; [exact L | ].
    rewrite forallb_forall in *. rewrite Forall_forall in IH.
    intros [k v] Hin. specialize (S _ Hin). simpl in *.
    destruct (dict_get k e) as [w | ]; [ | discriminate].
    apply (IH _ Hin _ S).
Qed.

(** The test is transitive. *)
Lemma py_same_trans : forall a b c,
  py_same a b = true -> py_same b c = true -> py_same a c = true.
Proof.
  induction a as [ | x | x | x | x | l IH | d IH] using json_nested_ind;
    intros b c Hab Hbc.
  1-5: rewrite py_same_scalar in Hab by (left; reflexivity);
       pose proof (key_eq_hashable _ _ Hab eq_refl) as Hb;
       rewrite py_same_scalar in Hbc by (left; exact Hb);
       rewrite py_same_scalar by (left; reflexivity);
       exact (key_eq_trans _ _ _ Hab Hbc).
  - destruct b as [ | | | | | m | ]; simpl in Hab; try discriminate.
    destruct c as [ | | | | | n | ]; simpl in Hbc; try discriminate.
    simpl. revert m n Hab Hbc.
    induction IH as [ | x l Hx _ IHl]; intros [ | y m] [ | z n];
      simpl; try discriminate; auto.
    rewrite !andb_true_iff. intros [H1 H2] [H3 H4]. eauto.
  - destruct b as [ | | | | | | e]; simpl in Hab; try discriminate.
    destruct c as [ | | | | | | g]; simpl in Hbc; try discriminate.
    simpl. rewrite andb_true_iff in *. destruct Hab as [L1 S1], Hbc as [L2 S2].
    apply Nat.eqb_eq in L1, L2. split; [apply Nat.eqb_eq; congruence | ].
    rewrite forallb_forall in *. intros [k v] Hin. simpl.
    specialize (S1 _ Hin). simpl in S1.
    destruct (dict_get k e) as [w | ] eqn:Hw; [ | discriminate].
    specialize (S2 _ (dict_get_In _ _ _ Hw)). simpl in S2.
    destruct (dict_get k g) as [u | ]; [ | discriminate].
    rewrite Forall_forall in IH. apply (IH _ Hin _ _ S1 S2).
Qed.

(* ================================================================== *)
(** * The event list extractor: [input_config_list] *)
(* ================================================================== *)

Lemma py_in_app x l m : py_in x (l ++ m) = py_in x l || py_in x m.
Proof. unfold py_in. apply existsb_app. Qed.

(** Collecting keys one by one keeps the first occurrences. *)
Lemma fold_add_key : forall l acc earlier,
  (forall x, py_in x acc = existsb (fun y => py_same y x) earlier) ->
  fold_left add_key l acc = acc ++ first_occurrences earlier l /\
  (forall x, py_in x (fold_left add_key l acc)
             = existsb (fun y => py_same y x) (earlier ++ l)).
Proof.
  induction l as [ | x0 l IH]; intros acc earlier Hacc; simpl.
  - rewrite !app_nil_r. auto.
  - assert (Hnext : forall x, py_in x (add_key acc x0)
                              = existsb (fun y => py_same y x) (earlier ++ [x0])).
    { intros x. rewrite existsb_app. simpl. rewrite orb_false_r, <- Hacc.
      unfold add_key. destruct (py_in x0 acc) eqn:Hin.
      - destruct (py_same x0 x) eqn:E; [ | now rewrite orb_false_r].
        rewrite orb_true_r. unfold py_in in *.
        apply existsb_exists in Hin. destruct Hin as (n & Hn & Hnx).
        apply existsb_exists. exists n. split; [assumption | ].
        now apply (py_same_trans n x0 x).
      - rewrite py_in_app. unfold py_in at 2. simpl. now rewrite orb_false_r. }
    destruct (IH _ _ Hnext) as (Hfold & Hin). split.
    + rewrite Hfold. unfold add_key. rewrite <- Hacc.
      destruct (py_in x0 acc); [reflexivity | now rewrite <- app_assoc].
    + intros x. rewrite Hin, <- app_assoc. reflexivity.
Qed.

Lemma dedup_first_occurrences l : fold_left add_key l [] = first_occurrences [] l.
Proof. now destruct (fold_add_key l [] [] (fun x => eq_refl)) as (-> & _). Qed.

Lemma first_occurrences_again : forall l E E',
  (forall x, existsb (fun y => py_same y x) E' = true ->
             existsb (fun y => py_same y x) E = true) ->
  first_occurrences E' (first_occurrences E l) = first_occurrences E l.
Proof.
  induction l as [ | x l IH]; intros E E' Hsub; [reflexivity | ].
  assert (Hsub' : forall y, existsb (fun z => py_same z y) (E' ++ [x]) = true ->
                            existsb (fun z => py_same z y) (E ++ [x]) = true).
  { intros y. rewrite !existsb_app, !orb_true_iff. intros [H | H]; auto. }
  simpl. destruct (existsb (fun y => py_same y x) E) eqn:HE; simpl.
  - apply IH. intros y Hy. rewrite existsb_app. now rewrite (Hsub _ Hy).
  - destruct (existsb (fun y => py_same y x) E') eqn:HE'.
    + rewrite (Hsub _ HE') in HE. discriminate.
    + simpl. f_equal. now apply IH.
Qed.

Lemma existsb_map_filter (A B : Type) (f : B -> bool) (g : A -> B) (p : A -> bool) l :
  existsb f (map g (filter p l)) = existsb (fun x => p x && f (g x)) l.
Proof.
  induction l as [ | x l IH]; simpl; [reflexivity | ].
  destruct (p x); simpl; now rewrite IH.
Qed.

Lemma filter_snoc (A : Type) (p : A -> bool) l x :
  filter p (l ++ [x]) = filter p l ++ (if p x then [x] else []).
Proof. rewrite filter_app. reflexivity. Qed.

Lemma first_seen_app : forall l1 l2 earlier,
  first_seen earlier (l1 ++ l2)
  = first_seen earlier l1 ++ first_seen (earlier ++ l1) l2.
Proof.
  induction l1 as [ | e l1 IH]; intros l2 earlier; simpl.
  - now rewrite app_nil_r.
  - rewrite IH, <- !app_assoc. reflexivity.
Qed.

Lemma tagged_split e : tagged e = is_crop e || is_other e.
Proof.
  unfold is_crop, is_other. destruct (tagged e), (py_eq _ _); reflexivity.
Qed.

Lemma crop_not_other e : is_crop e = true -> is_other e = false.
Proof.
  unfold is_crop, is_other. destruct (tagged e), (py_eq _ _); simpl; congruence.
Qed.

(** What one turn of the loop does to the four lists. *)
Lemma visit_spec st e st' :
  visit st e = Some st' ->
  (exists ev, e = JDict ev) /\
  crop_names st' = (if is_crop e then add_key (crop_names st) (crop_name_of e)
                    else crop_names st) /\
  other_events st' = (if is_other e then add_key (other_events st) (event_type_of e)
                      else other_events st) /\
  data_full st' = data_full st ++ (if tagged e then [e] else []) /\
  data st' = data st ++
             (if (is_crop e && negb (py_in (crop_name_of e) (crop_names st)))
                 || (is_other e && negb (py_in (event_type_of e) (other_events st)))
              then [e] else []).
Proof.
  destruct e as [ | | | | | | ev]; try discriminate.
  unfold visit, is_crop, is_other, tagged, add_key. simpl.
  destruct (py_truthy (get_default ev "_event_type" JNull)); simpl.
  - destruct (py_eq (get_default ev "_event_type" JNull) (JStr "crop")); simpl.
    + destruct (py_in (get_default ev "name" (JStr "")) (crop_names st));
        intros [= <-]; simpl; rewrite ?app_nil_r; eauto 10.
    + destruct (py_in (get_default ev "_event_type" JNull) (other_events st));
        intros [= <-]; simpl; rewrite ?app_nil_r; eauto 10.
  - intros [= <-]. rewrite !app_nil_r. eauto 10.
Qed.

Lemma extracted_seen_crop pre st e :
  extracted pre st -> is_crop e = true ->
  py_in (crop_name_of e) (crop_names st) = existsb (fun e' => same_kind e' e) pre.
Proof.
  intros H Hc. rewrite (ex_crop_names _ _ H).
  destruct (fold_add_key (map crop_name_of (filter is_crop pre)) [] []
              (fun x => eq_refl)) as (_ & ->).
  simpl. rewrite existsb_map_filter. unfold same_kind. rewrite Hc. reflexivity.
Qed.

Lemma extracted_seen_other pre st e :
  extracted pre st -> is_crop e = false ->
  py_in (event_type_of e) (other_events st) = existsb (fun e' => same_kind e' e) pre.
Proof.
  intros H Hc. rewrite (ex_other_events _ _ H).
  destruct (fold_add_key (map event_type_of (filter is_other pre)) [] []
              (fun x => eq_refl)) as (_ & ->).
  simpl. rewrite existsb_map_filter. unfold same_kind. rewrite Hc. reflexivity.
Qed.

Lemma extracted_step pre st e st' :
  extracted pre st -> visit st e = Some st' -> extracted (pre ++ [e]) st'.
Proof.
  intros H Hv.
  destruct (visit_spec _ _ _ Hv) as (Hrec & Hcn & Hoe & Hfull & Hdata).
  pose proof (extracted_seen_crop pre st e H) as Hsc.
  pose proof (extracted_seen_other pre st e H) as Hso.
  assert (Hkeep : (is_crop e && negb (py_in (crop_name_of e) (crop_names st)))
                  || (is_other e && negb (py_in (event_type_of e) (other_events st)))
                  = tagged e && negb (existsb (fun e' => same_kind e' e) pre)).
  { rewrite tagged_split. destruct (is_crop e) eqn:Hc.
    - rewrite (crop_not_other _ Hc), Hsc by reflexivity. simpl. now rewrite orb_false_r.
    - rewrite Hso by reflexivity. reflexivity. }
  constructor.
  - rewrite Hcn, filter_snoc, map_app, fold_left_app, <- (ex_crop_names _ _ H).
    destruct (is_crop e); reflexivity.
  - rewrite Hoe, filter_snoc, map_app, fold_left_app, <- (ex_other_events _ _ H).
    destruct (is_other e); reflexivity.
  - rewrite Hfull, filter_snoc, (ex_data_full _ _ H). reflexivity.
  - rewrite Hdata, Hkeep, first_seen_app, (ex_data _ _ H). simpl.
    now rewrite app_nil_r.
  - rewrite Hcn, Hdata, filter_app, map_app, <- (ex_crop_data _ _ H).
    unfold add_key. destruct (is_crop e) eqn:Hc.
    + rewrite (crop_not_other _ Hc). simpl. rewrite orb_false_r.
      destruct (py_in (crop_name_of e) (crop_names st)); simpl;
        rewrite ?Hc; simpl; rewrite ?app_nil_r; reflexivity.
    + simpl. destruct (is_other e && _); simpl;
        rewrite ?Hc; simpl; rewrite ?app_nil_r; reflexivity.
  - rewrite Hoe, Hdata, filter_app, map_app, <- (ex_other_data _ _ H).
    unfold add_key. destruct (is_other e) eqn:Ho.
    + assert (Hc : is_crop e = false)
        by (destruct (is_crop e) eqn:Hc;
            [now rewrite (crop_not_other _ Hc) in Ho | reflexivity]).
      rewrite Hc. simpl.
      destruct (py_in (event_type_of e) (other_events st)); simpl;
        rewrite ?Ho; simpl; rewrite ?app_nil_r; reflexivity.
    + rewrite andb_false_l, orb_false_r.
      destruct (is_crop e && _); simpl;
        rewrite ?Ho; simpl; rewrite ?app_nil_r; reflexivity.
  - apply Forall_app. split; [apply (ex_records _ _ H) | constructor; auto].
Qed.

Lemma extracted_loop : forall l pre st st',
  extracted pre st -> for_each visit l st = Some st' -> extracted (pre ++ l) st'.
Proof.
  induction l as [ | e l IH]; intros pre st st' H; simpl.
  - intros [= <-]. now rewrite app_nil_r.
  - destruct (visit st e) as [st1 | ] eqn:Hv; [ | discriminate].
    intros Hl. replace (pre ++ e :: l) with ((pre ++ [e]) ++ l)
      by (rewrite <- app_assoc; reflexivity).
    eapply IH; [ | exact Hl]. eapply extracted_step; eauto.
Qed.

Lemma extracted_start : extracted [] (Lists [] [] [] []).
Proof. constructor; simpl; auto. Qed.

Lemma py_fromkeys_dedup l l' :
  py_fromkeys (fold_left add_key l []) = Some l' -> l' = first_occurrences [] l.
Proof.
  unfold py_fromkeys. destruct (forallb _ _); [ | discriminate].
  intros [= <-]. rewrite !dedup_first_occurrences.
  apply first_occurrences_again. auto.
Qed.

Lemma input_config_list_inv json_data loc evs d c o full :
  locate events_path json_data = Some loc ->
  py_iter (snd loc) = Some evs ->
  input_config_list json_data = Some (d, c, o, full) ->
  exists st, extracted evs st /\ d = data st /\ full = data_full st /\
             py_fromkeys (crop_names st) = Some c /\
             py_fromkeys (other_events st) = Some o.
Proof.
  unfold input_config_list. intros -> ->.
  destruct (for_each visit evs (Lists [] [] [] [])) as [st | ] eqn:Hloop;
    [ | discriminate].
  destruct (py_fromkeys (crop_names st)) as [c' | ] eqn:Hc; [ | discriminate].
  destruct (py_fromkeys (other_events st)) as [o' | ] eqn:Ho; [ | discriminate].
  intros [= <- <- <- <-]. exists st.
  split; [apply (extracted_loop evs [] _ _ extracted_start Hloop) | ].
  repeat split; assumption.
Qed.

Lemma first_occurrences_incl : forall l E x, In x (first_occurrences E l) -> In x l.
Proof.
  induction l as [ | y l IH]; intros E x; simpl; [tauto | ].
  rewrite in_app_iff. intros [H | H].
  - destruct (existsb _ E); [destruct H | ]. destruct H as [-> | []]. now left.
  - right. eapply IH; eauto.
Qed.

Lemma for_each_visit_records : forall l st,
  Forall (fun e => exists ev, e = JDict ev) l ->
  exists st', for_each visit l st = Some st'.
Proof.
  induction l as [ | e l IH]; intros st Hl; simpl; [eauto | ].
  inversion_clear Hl as [ | ? ? (ev & ->) Hl'].
  assert (exists st1, visit st (JDict ev) = Some st1) as (st1 & ->).
  { unfold visit. destruct (py_truthy _); eauto. }
  now apply IH.
Qed.

Lemma record_ok_inv e :
  record_ok e = true ->
  (exists ev, e = JDict ev) /\
  hashable (event_type_of e) = true /\ hashable (crop_name_of e) = true.
Proof.
  destruct e; simpl; try discriminate. rewrite andb_true_iff. eauto.
Qed.

(** No two of the first occurrences are equal. *)
Lemma first_occurrences_distinct : forall l earlier,
  ForallOrdPairs (fun a b => py_same a b = false) (first_occurrences earlier l) /\
  forall b, In b (first_occurrences earlier l) ->
            forall a, In a earlier -> py_same a b = false.
Proof.
  induction l as [ | x l IH]; intros earlier; simpl.
  - split; [constructor | intros b []].
  - destruct (IH (earlier ++ [x])) as (Hpairs & Hearlier).
    destruct (existsb (fun y => py_same y x) earlier) eqn:Hex; simpl.
    + split; [exact Hpairs | ].
      intros b Hb a Ha. apply (Hearlier b Hb a). apply in_or_app. now left.
    + split.
      * constructor; [ | exact Hpairs].
        apply Forall_forall. intros b Hb. apply (Hearlier b Hb x).
        apply in_or_app. right. now left.
      * intros b [<- | Hb] a Ha.
        -- destruct (py_same a x) eqn:E; [ | reflexivity].
           assert (existsb (fun y => py_same y x) earlier = true); [ | congruence].
           apply existsb_exists. eauto.
        -- apply (Hearlier b Hb a). apply in_or_app. now left.
Qed.

(** No record of the filtered list stands for another one. *)
Lemma first_seen_distinct : forall l earlier,
  ForallOrdPairs (fun e1 e2 => same_kind e1 e2 = false) (first_seen earlier l) /\
  forall e2, In e2 (first_seen earlier l) ->
             forall e1, In e1 earlier -> same_kind e1 e2 = false.
Proof.
  induction l as [ | e l IH]; intros earlier; simpl.
  - split; [constructor | intros e2 []].
  - destruct (IH (earlier ++ [e])) as (Hpairs & Hearlier).
    destruct (tagged e && negb (existsb (fun e' => same_kind e' e) earlier)) eqn:Hkeep;
      simpl.
    + apply andb_true_iff in Hkeep. destruct Hkeep as [_ Hnew].
      apply negb_true_iff in Hnew. split.
      * constructor; [ | exact Hpairs].
        apply Forall_forall. intros e2 He2. apply (Hearlier e2 He2 e).
        apply in_or_app. right. now left.
      * intros e2 [<- | He2] e1 He1.
        -- destruct (same_kind e1 e) eqn:E; [ | reflexivity].
           assert (existsb (fun e' => same_kind e' e) earlier = true); [ | congruence].
           apply existsb_exists. eauto.
        -- apply (Hearlier e2 He2 e1). apply in_or_app. now left.
    + split; [exact Hpairs | ].
      intros e2 He2 e1 He1. apply (Hearlier e2 He2 e1). apply in_or_app. now left.
Qed.

Lemma same_kind_tagged e' e : same_kind e' e = true -> tagged e' = true.
Proof.
  unfold same_kind. rewrite (tagged_split e').
  destruct (is_crop e); rewrite andb_true_iff; intros [-> _];
    [reflexivity | apply orb_true_r].
Qed.

Lemma same_kind_trans e1 e2 e3 :
  same_kind e1 e2 = true -> same_kind e2 e3 = true -> same_kind e1 e3 = true.
Proof.
  unfold same_kind. destruct (is_crop e3) eqn:H3.
  - rewrite !andb_true_iff. intros H12 [H2 Hn]. rewrite H2 in H12.
    rewrite andb_true_iff in H12. destruct H12 as [H1 Hn'].
    split; [exact H1 | eapply py_same_trans; eauto].
  - rewrite !andb_true_iff. intros H12 [H2 Ht].
    assert (Hc2 : is_crop e2 = false)
      by (destruct (is_crop e2) eqn:E; [now rewrite (crop_not_other _ E) in H2 | reflexivity]).
    rewrite Hc2 in H12. rewrite andb_true_iff in H12. destruct H12 as [H1 Ht'].
    split; [exact H1 | eapply py_same_trans; eauto].
Qed.

(** Every tagged record is in the filtered list, or a record of that list
    stands for it. *)
Lemma first_seen_covers : forall l earlier kept,
  (forall e1, In e1 earlier -> tagged e1 = true ->
              In e1 kept \/ exists e', In e' kept /\ same_kind e' e1 = true) ->
  forall e, In e (earlier ++ l) -> tagged e = true ->
            In e (kept ++ first_seen earlier l) \/
            exists e', In e' (kept ++ first_seen earlier l) /\ same_kind e' e = true.
Proof.
  induction l as [ | e0 l IH]; intros earlier kept Hcov e He Ht.
  - simpl. rewrite !app_nil_r in *. auto.
  - simpl. rewrite app_assoc.
    apply (IH (earlier ++ [e0])
              (kept ++ (if tagged e0 && negb (existsb (fun e' => same_kind e' e0) earlier)
                        then [e0] else []))); [ | | exact Ht].
    + intros e1 H1 Ht1. apply in_app_or in H1. destruct H1 as [H1 | [-> | []]].
      * destruct (Hcov e1 H1 Ht1) as [Hin | (e' & Hin & Hk)].
        -- left. apply in_or_app. now left.
        -- right. exists e'. split; [apply in_or_app; now left | exact Hk].
      * rewrite Ht1. simpl.
        destruct (existsb (fun e' => same_kind e' e1) earlier) eqn:Hex; simpl.
        -- apply existsb_exists in Hex. destruct Hex as (e2 & H2 & Hk).
           destruct (Hcov e2 H2 (same_kind_tagged _ _ Hk)) as [Hin | (e' & Hin & Hk')].
           ++ right. exists e2. split; [now rewrite app_nil_r | exact Hk].
           ++ right. exists e'. split; [now rewrite app_nil_r | ].
              eapply same_kind_trans; eauto.
        -- left. apply in_or_app. right. now left.
    + rewrite <- app_assoc. exact He.
Qed.

(** C4. Whenever the extractor returns, the filtered list holds exactly the
    first record of every crop name and of every other event type, in
    source order: a tagged record is kept when no earlier record has its
    crop name (for a crop) or its event type (for another record), where a
    name or type is had when it is the same object or an equal value, as
    [in] tests; no kept record stands for another kept one, and every
    tagged record is kept or has a kept record standing for it; the crop
    names and the other event types are the distinct values in first-seen
    order, and they are the names and types of the records of the filtered
    list.  The extractor does return when every event is a record whose
    type and name are hashable. *)
Theorem C4_first_occurrences :
  (forall json_data loc evs d c o full,
      locate events_path json_data = Some loc ->
      py_iter (snd loc) = Some evs ->
      input_config_list json_data = Some (d, c, o, full) ->
      d = first_seen [] evs /\
      ForallOrdPairs (fun e1 e2 => same_kind e1 e2 = false) d /\
      (forall e, In e evs -> tagged e = true ->
                 In e d \/ exists e', In e' d /\ same_kind e' e = true) /\
      c = first_occurrences [] (map crop_name_of (filter is_crop evs)) /\
      o = first_occurrences [] (map event_type_of (filter is_other evs)) /\
      ForallOrdPairs (fun a b => py_same a b = false) c /\
      ForallOrdPairs (fun a b => py_same a b = false) o /\
      c = map crop_name_of (filter is_crop d) /\
      o = map event_type_of (filter is_other d)) /\
  (forall json_data loc evs,
      locate events_path json_data = Some loc ->
      py_iter (snd loc) = Some evs ->
      forallb record_ok evs = true ->
      exists d c o full, input_config_list json_data = Some (d, c, o, full)).
Proof.
  split.
  - intros json_data loc evs d c o full Hloc Hiter Hres.
    destruct (input_config_list_inv _ _ _ _ _ _ _ Hloc Hiter Hres)
      as (st & Hex & -> & _ & Hc & Ho).
    rewrite (ex_crop_names _ _ Hex) in Hc.
    rewrite (ex_other_events _ _ Hex) in Ho.
    apply py_fromkeys_dedup in Hc, Ho.
    rewrite (ex_data _ _ Hex).
    split; [reflexivity | ].
    split; [apply first_seen_distinct | ].
    split.
    { intros e He Ht.
      apply (first_seen_covers evs [] [] (fun e1 H1 => False_ind _ H1) e He Ht). }
    split; [exact Hc | ]. split; [exact Ho | ].
    split; [rewrite Hc; apply first_occurrences_distinct | ].
    split; [rewrite Ho; apply first_occurrences_distinct | ].
    rewrite <- (ex_data _ _ Hex). split.
    + rewrite Hc, <- dedup_first_occurrences, <- (ex_crop_names _ _ Hex).
      apply (ex_crop_data _ _ Hex).
    + rewrite Ho, <- dedup_first_occurrences, <- (ex_other_events _ _ Hex).
      apply (ex_other_data _ _ Hex).
  - intros json_data loc evs Hloc Hiter Hok.
    rewrite forallb_forall in Hok.
    assert (Hrec : Forall (fun e => exists ev, e = JDict ev) evs).
    { apply Forall_forall. intros e He. apply (record_ok_inv _ (Hok _ He)). }
    destruct (for_each_visit_records evs (Lists [] [] [] []) Hrec) as (st & Hloop).
    pose proof (extracted_loop evs [] _ _ extracted_start Hloop) as Hex.
    simpl in Hex.
    unfold input_config_list. rewrite Hloc, Hiter, Hloop.
    unfold py_fromkeys.
    rewrite (ex_crop_names _ _ Hex), (ex_other_events _ _ Hex),
      !dedup_first_occurrences.
    assert (H1 : forallb hashable
                   (first_occurrences [] (map crop_name_of (filter is_crop evs))) = true).
    { apply forallb_forall. intros x Hx. apply first_occurrences_incl in Hx.
      apply in_map_iff in Hx. destruct Hx as (e & <- & He).
      apply filter_In in He. apply (record_ok_inv _ (Hok _ (proj1 He))). }
    assert (H2 : forallb hashable
                   (first_occurrences [] (map event_type_of (filter is_other evs))) = true).
    { apply forallb_forall. intros x Hx. apply first_occurrences_incl in Hx.
      apply in_map_iff in Hx. destruct Hx as (e & <- & He).
      apply filter_In in He. apply (record_ok_inv _ (Hok _ (proj1 He))). }
    rewrite H1, H2. eauto.
Qed.

Lemma C4_first_occurrences_witness :
  exists d c o full,
    input_config_list Sample.doc = Some (d, c, o, full) /\
    d = [Sample.crop "A" 1200; Sample.irrigation "drip"; Sample.crop "B" 1500] /\
    c = [JStr "A"; JStr "B"] /\
    o = [JStr "autoirrigation"].
Proof.
  destruct C4_first_occurrences as (Hspec & Hreturns).
  destruct (Hreturns Sample.doc (events_path, JList Sample.events) Sample.events
              eq_refl eq_refl eq_refl) as (d & c & o & full & Hrun).
  destruct (Hspec Sample.doc (events_path, JList Sample.events) Sample.events
              d c o full eq_refl eq_refl Hrun) as (Hd & _ & _ & Hc & Ho & _).
  exists d, c, o, full. repeat split; assumption.
Defined.

(** A name that is NaN is one name: the second crop has the object that
    the first one has, and [in] finds it though NaN is not equal to itself. *)
Lemma nan_name_seen_once :
  input_config_list Sample.doc_nan_names
  = Some ([Sample.unnamed 1200], [JFloat PrimFloat.nan], [],
          [Sample.unnamed 1200; Sample.unnamed 900]).
Proof. vm_compute. reflexivity. Qed.

(** C5 as stated fails: a record without an event type is in the source
    list and not in the full list. *)
Lemma C5_untagged_record_dropped :
  exists d c o full,
    get_path events_path Sample.doc_with_note
    = Some (JList [Sample.crop "A" 1200; Sample.note]) /\
    input_config_list Sample.doc_with_note = Some (d, c, o, full) /\
    full = [Sample.crop "A" 1200] /\
    full <> [Sample.crop "A" 1200; Sample.note].
Proof.
  do 4 eexists. split; [reflexivity | ]. split; [vm_compute; reflexivity | ].
  split; [reflexivity | discriminate].
Qed.

(** C5 amended. Whenever the extractor returns, the full list holds every
    record of the source list that has a non-empty event type, duplicates
    of a crop name or of an event type included, in source order. *)
Theorem C5_full_list_keeps_tagged json_data loc evs d c o full :
  locate events_path json_data = Some loc ->
  py_iter (snd loc) = Some evs ->
  input_config_list json_data = Some (d, c, o, full) ->
  full = filter tagged evs.
Proof.
  intros Hloc Hiter Hres.
  destruct (input_config_list_inv _ _ _ _ _ _ _ Hloc Hiter Hres)
    as (st & Hex & _ & -> & _).
  apply (ex_data_full _ _ Hex).
Qed.

Lemma C5_full_list_keeps_tagged_witness :
  [Sample.crop "A" 1200] = filter tagged [Sample.crop "A" 1200; Sample.note].
Proof.
  apply (C5_full_list_keeps_tagged Sample.doc_with_note
           (events_path, JList [Sample.crop "A" 1200; Sample.note])
           [Sample.crop "A" 1200; Sample.note]
           [Sample.crop "A" 1200] [JStr "A"] [] [Sample.crop "A" 1200]).
  - reflexivity.
  - reflexivity.
  - vm_compute. reflexivity.
Defined.

(** C6 as stated fails: at the events location of this document there is
    an empty object, so neither form of the path resolves to a list, and
    the extraction returns four empty lists. *)
Lemma C6_empty_object_accepted :
  get_path (Idx 0 :: events_path) Sample.doc_events_object = None /\
  get_path events_path Sample.doc_events_object = Some (JDict []) /\
  input_config_list Sample.doc_events_object = Some ([], [], [], []).
Proof. repeat split; reflexivity. Qed.

(** C6 amended. The code looks for the events under the wrapped form first
    and under the unwrapped form when that fails, which finds what the
    opposite order finds; a document and the one-element list around it
    give the same extraction; when the path resolves under neither form the
    extraction fails; and it returns only when the path resolves to a list,
    to an empty object or to an empty string. *)
Theorem C6_wrapped_or_unwrapped :
  (forall json_data,
      locate events_path json_data = locate_unwrapped_first events_path json_data) /\
  (forall doc events,
      get_path events_path doc = Some events ->
      locate events_path doc = Some (events_path, events) /\
      locate events_path (JList [doc]) = Some (Idx 0 :: events_path, events) /\
      input_config_list (JList [doc]) = input_config_list doc) /\
  (forall json_data,
      get_path events_path json_data = None ->
      get_path (Idx 0 :: events_path) json_data = None ->
      input_config_list json_data = None) /\
  (forall json_data r,
      input_config_list json_data = Some r ->
      exists loc, locate events_path json_data = Some loc /\
                  ((exists l, snd loc = JList l) \/
                   snd loc = JDict [] \/ snd loc = JStr "")).
Proof.
  split; [ | split; [ | split]].
  - intros json_data. unfold locate, locate_unwrapped_first.
    destruct (get_path (Idx 0 :: events_path) json_data) eqn:Hw.
    + assert (Hu : get_path events_path json_data = None).
      { apply (wrapped_excludes_unwrapped "sites" (tl events_path) json_data).
        change (Idx 0 :: Key "sites" :: tl events_path) with (Idx 0 :: events_path).
        congruence. }
      now rewrite Hu.
    + destruct (get_path events_path json_data); reflexivity.
  - intros doc events Hget.
    assert (Hw : get_path (Idx 0 :: events_path) doc = None).
    { destruct doc; try discriminate. reflexivity. }
    assert (H1 : locate events_path doc = Some (events_path, events))
      by (unfold locate; now rewrite Hw, Hget).
    assert (H2 : locate events_path (JList [doc]) = Some (Idx 0 :: events_path, events)).
    { unfold locate.
      replace (get_path (Idx 0 :: events_path) (JList [doc]))
        with (get_path events_path doc) by reflexivity.
      now rewrite Hget. }
    repeat split; auto.
    unfold input_config_list. now rewrite H1, H2.
  - intros json_data Hu Hw. unfold input_config_list, locate. now rewrite Hw, Hu.
  - intros json_data r. unfold input_config_list.
    destruct (locate events_path json_data) as [loc | ]; [ | discriminate].
    intros H. exists loc. split; [reflexivity | ].
    destruct (snd loc) as [ | | | | t | l | d]; simpl in H; try discriminate.
    + right. right. destruct t; [reflexivity | discriminate].
    + left. eauto.
    + right. left. destruct d; [reflexivity | discriminate].
Qed.

Lemma C6_wrapped_or_unwrapped_witness :
  input_config_list (JList [Sample.doc]) = input_config_list Sample.doc /\
  input_config_list (JList [JDict [("sites", JList [])]]) = None.
Proof.
  destruct C6_wrapped_or_unwrapped as (_ & Hboth & Hnone & _). split.
  - apply (Hboth Sample.doc (JList Sample.events)). reflexivity.
  - apply Hnone; reflexivity.
Defined.

(* ================================================================== *)
(** * The event merge: [input_config_replacement] *)
(* ================================================================== *)

Lemma for_each_cons (S A : Type) (body : S -> A -> option S) x l st :
  for_each body (x :: l) st
  = match body st x with Some st' => for_each body l st' | None => None end.
Proof. reflexivity. Qed.

Lemma for_each_app (S A : Type) (body : S -> A -> option S) l1 : forall l2 st,
  for_each body (l1 ++ l2) st
  = match for_each body l1 st with
    | Some st1 => for_each body l2 st1
    | None => None
    end.
Proof.
  induction l1 as [ | x l1 IH]; intros l2 st; [reflexivity | ].
  simpl app. rewrite !for_each_cons. destruct (body st x); [apply IH | reflexivity].
Qed.

Lemma last_key_app a b key : last_key (a ++ b) key = last_key b (last_key a key).
Proof. unfold last_key. apply fold_left_app. Qed.

Lemma keys_assign_items_inv c : forall d k,
  In k (keys (assign_items c d)) -> In k (keys c) \/ In k (keys d).
Proof.
  induction c as [ | [k' v'] c IH]; intros d k Hin; [now right | ].
  rewrite assign_items_cons in Hin. apply IH in Hin. simpl in *.
  destruct Hin as [Hin | Hin]; [tauto | ].
  apply dict_has_keys in Hin. rewrite dict_has_set in Hin.
  apply orb_true_iff in Hin. destruct Hin as [E | Hin].
  - apply String.eqb_eq in E. auto.
  - right. now apply dict_has_keys.
Qed.

Lemma json_wf_dict_keys d : json_wf (JDict d) = true -> NoDup (keys d).
Proof. simpl. rewrite andb_true_iff. intros [H _]. now apply nodupb_NoDup. Qed.

Lemma json_wf_name d : json_wf (JDict d) = true -> json_wf (name_of d) = true.
Proof.
  intros H. unfold name_of, get_default.
  destruct (dict_get "name" d) eqn:E; [ | reflexivity].
  apply (json_wf_dict_get _ _ _ H E).
Qed.

Lemma name_after_assign cc ev :
  NoDup (keys cc) ->
  name_of (assign_items cc ev)
  = match dict_get "name" cc with Some v => v | None => name_of ev end.
Proof.
  intros Hnd. unfold name_of, get_default. rewrite (assign_items_get _ _ _ Hnd).
  destruct (dict_get "name" cc); reflexivity.
Qed.

(** After a matching overlay entry has been copied in, the record's name
    compares as it did before. *)
Lemma name_class_after_assign cc ev n0 :
  json_wf (JDict cc) = true ->
  json_wf (name_of ev) = true ->
  (forall w, py_eq (name_of ev) w = py_eq n0 w) ->
  py_eq n0 (name_of cc) = true ->
  json_wf (name_of (assign_items cc ev)) = true /\
  (forall w, py_eq (name_of (assign_items cc ev)) w = py_eq n0 w).
Proof.
  intros Wcc Wev Hcl Hm.
  rewrite (name_after_assign _ _ (json_wf_dict_keys _ Wcc)).
  pose proof (json_wf_name _ Wcc) as Wn.
  unfold name_of, get_default in Wn, Hm.
  destruct (dict_get "name" cc) as [v | ]; [ | auto].
  split; [assumption | ]. intros w. rewrite <- Hcl in Hm.
  rewrite <- (py_eq_congr _ _ Wev Wn Hm w). apply Hcl.
Qed.

Lemma merge_crop_hit ev key cc :
  py_eq (name_of ev) (name_of cc) = true ->
  merge_crop (ev, key) (JDict cc)
  = match last_key cc key with
    | Some k => if dict_has k (assign_items cc ev)
                then Some (assign_items cc ev, Some k) else None
    | None => None
    end.
Proof. unfold merge_crop, name_of. simpl. now intros ->. Qed.

Lemma merge_crop_miss ev key cc :
  py_eq (name_of ev) (name_of cc) = false ->
  merge_crop (ev, key) (JDict cc) = Some (ev, key).
Proof. unfold merge_crop, name_of. simpl. now intros ->. Qed.

Arguments merge_crop : simpl never.

(** The crop loop copies in, one after the other, the entries whose name
    equals the record's name. *)
Lemma crop_loop_spec : forall ccs ev key r n0,
  Forall (fun cc => json_wf (JDict cc) = true) ccs ->
  json_wf (name_of ev) = true ->
  (forall w, py_eq (name_of ev) w = py_eq n0 w) ->
  for_each merge_crop (map JDict ccs) (ev, key) = Some r ->
  fst r = assign_items (List.concat (filter (fun cc => py_eq n0 (name_of cc)) ccs)) ev /\
  snd r = last_key (List.concat (filter (fun cc => py_eq n0 (name_of cc)) ccs)) key /\
  json_wf (name_of (fst r)) = true /\
  (forall w, py_eq (name_of (fst r)) w = py_eq n0 w).
Proof.
  induction ccs as [ | cc ccs IH]; intros ev key r n0 Wccs Wev Hcl; simpl.
  - intros [= <-]. simpl. auto.
  - inversion_clear Wccs as [ | ? ? Wcc Wccs'].
    destruct (py_eq n0 (name_of cc)) eqn:Hm.
    + rewrite merge_crop_hit by (now rewrite Hcl).
      destruct (last_key cc key) as [k | ] eqn:Hk; [ | discriminate].
      destruct (dict_has k (assign_items cc ev)); [ | discriminate].
      intros Hloop.
      destruct (name_class_after_assign cc ev n0 Wcc Wev Hcl Hm) as (Wev' & Hcl').
      destruct (IH _ _ _ n0 Wccs' Wev' Hcl' Hloop) as (H1 & H2 & H3 & H4).
      simpl. rewrite assign_items_app, last_key_app, Hk. auto.
    + rewrite merge_crop_miss by (now rewrite Hcl).
      intros Hloop. apply (IH _ _ _ n0 Wccs' Wev Hcl Hloop).
Qed.

(** If the crop loop passes on a record, it passes on every record of the
    same name that has at least the same keys. *)
Lemma crop_loop_passes : forall ccs ev evb key r n0,
  Forall (fun cc => json_wf (JDict cc) = true) ccs ->
  json_wf (name_of ev) = true ->
  (forall w, py_eq (name_of ev) w = py_eq n0 w) ->
  json_wf (name_of evb) = true ->
  (forall w, py_eq (name_of evb) w = py_eq n0 w) ->
  (forall k, In k (keys ev) -> In k (keys evb)) ->
  for_each merge_crop (map JDict ccs) (ev, key) = Some r ->
  exists rb, for_each merge_crop (map JDict ccs) (evb, key) = Some rb.
Proof.
  induction ccs as [ | cc ccs IH];
    intros ev evb key r n0 Wccs Wev Hcl Wevb Hclb Hkeys; simpl.
  - eauto.
  - inversion_clear Wccs as [ | ? ? Wcc Wccs'].
    destruct (py_eq n0 (name_of cc)) eqn:Hm.
    + rewrite !merge_crop_hit by (now rewrite ?Hcl, ?Hclb).
      destruct (last_key cc key) as [k | ] eqn:Hk; [ | discriminate].
      destruct (dict_has k (assign_items cc ev)) eqn:Hhas; [ | discriminate].
      assert (Hsub : forall k0, In k0 (keys (assign_items cc ev)) ->
                                In k0 (keys (assign_items cc evb))).
      { intros k0 H0. apply keys_assign_items_inv in H0. destruct H0.
        - now apply assign_items_has_keys.
        - apply assign_items_keeps_keys. auto. }
      apply dict_has_keys in Hhas. apply Hsub in Hhas. apply dict_has_keys in Hhas.
      rewrite Hhas. intros Hloop.
      destruct (name_class_after_assign cc ev n0 Wcc Wev Hcl Hm) as (Wev' & Hcl').
      destruct (name_class_after_assign cc evb n0 Wcc Wevb Hclb Hm) as (Wevb' & Hclb').
      apply (IH _ _ _ _ n0 Wccs' Wev' Hcl' Wevb' Hclb' Hsub Hloop).
    + rewrite !merge_crop_miss by (now rewrite ?Hcl, ?Hclb).
      intros Hloop. apply (IH _ _ _ _ n0 Wccs' Wev Hcl Wevb Hclb Hkeys Hloop).
Qed.

(** Running the crop loop on its own result gives that result again. *)
Lemma crop_loop_again ccs ev key r :
  Forall (fun cc => json_wf (JDict cc) = true) ccs ->
  json_wf (name_of ev) = true ->
  for_each merge_crop (map JDict ccs) (ev, key) = Some r ->
  for_each merge_crop (map JDict ccs) (fst r, key) = Some r.
Proof.
  intros Wccs Wev Hloop.
  destruct (crop_loop_spec ccs ev key r (name_of ev) Wccs Wev (fun w => eq_refl) Hloop)
    as (H1 & H2 & H3 & H4).
  assert (Hkeys : forall k, In k (keys ev) -> In k (keys (fst r)))
    by (intros k Hk; rewrite H1; now apply assign_items_keeps_keys).
  destruct (crop_loop_passes ccs ev (fst r) key r (name_of ev)
              Wccs Wev (fun w => eq_refl) H3 H4 Hkeys Hloop) as (rb & Hb).
  rewrite Hb. f_equal.
  destruct (crop_loop_spec ccs (fst r) key rb (name_of ev) Wccs H3 H4 Hb)
    as (B1 & B2 & _).
  destruct r as [r1 r2], rb as [b1 b2]. simpl in *.
  rewrite B1, B2, H1, assign_items_idem, <- H2. reflexivity.
Qed.

(** What the crop loop iterates over is a list of dictionaries. *)
Lemma crop_loop_entries : forall l st r,
  for_each merge_crop l st = Some r -> exists ccs, l = map JDict ccs.
Proof.
  induction l as [ | x l IH]; intros st r; simpl.
  - exists []. reflexivity.
  - destruct (merge_crop st x) as [st1 | ] eqn:Hx; [ | discriminate].
    intros Hl. destruct (IH _ _ Hl) as (ccs & ->).
    destruct x as [ | | | | | | cc]; try discriminate.
    exists (cc :: ccs). reflexivity.
Qed.

Lemma last_value_from k : forall ccs acc,
  fold_left (fun acc cc => match dict_get k cc with Some v => Some v | None => acc end)
            ccs acc
  = match last_value k ccs with Some v => Some v | None => acc end.
Proof.
  unfold last_value.
  induction ccs as [ | cc ccs IH]; intros acc; simpl; [reflexivity | ].
  rewrite IH, (IH (match dict_get k cc with Some v => Some v | None => None end)).
  destruct (fold_left _ ccs None); [reflexivity | ].
  destruct (dict_get k cc); reflexivity.
Qed.

Lemma assign_concat_get k : forall hits d,
  Forall (fun cc => json_wf (JDict cc) = true) hits ->
  dict_get k (assign_items (List.concat hits) d)
  = match last_value k hits with Some v => Some v | None => dict_get k d end.
Proof.
  induction hits as [ | cc hits IH]; intros d Wh; [reflexivity | ].
  inversion_clear Wh as [ | ? ? Wcc Wh'].
  simpl. rewrite assign_items_app, (IH _ Wh').
  unfold last_value at 2. simpl. rewrite last_value_from.
  destruct (last_value k hits); [reflexivity | ].
  rewrite (assign_items_get _ _ _ (json_wf_dict_keys _ Wcc)).
  destruct (dict_get k cc); reflexivity.
Qed.

Lemma overlay_entry_inv event_dict t entry :
  overlay_entry event_dict t = Some entry ->
  py_truthy t = true /\ py_truthy entry = true /\
  dict_get_key event_dict t = Some entry /\
  exists s, t = JStr s /\ dict_get s event_dict = Some entry.
Proof.
  unfold overlay_entry.
  destruct (py_truthy t) eqn:Ht; [ | discriminate].
  destruct (dict_get_key event_dict t) as [x | ] eqn:Hx; [ | discriminate].
  destruct (py_truthy x) eqn:Hxt; [ | discriminate].
  intros [= <-]. repeat split; auto.
  destruct t; simpl in Hx; try discriminate;
    try (injection Hx as <-; discriminate).
  injection Hx as <-. exists s. split; [reflexivity | ].
  unfold get_default in *. destruct (dict_get s event_dict); [reflexivity | discriminate].
Qed.

Lemma overlay_entry_none event_dict t :
  overlay_entry event_dict t = None ->
  py_truthy t = false \/ dict_get_key event_dict t = None \/
  exists x, dict_get_key event_dict t = Some x /\ py_truthy x = false.
Proof.
  unfold overlay_entry.
  destruct (py_truthy t); [ | auto].
  destruct (dict_get_key event_dict t) as [x | ]; [ | auto].
  destruct (py_truthy x) eqn:Hx; [discriminate | eauto].
Qed.

(** The entry of the crop loop, once the loop has passed. *)
Lemma crop_entry_inv entry l st r :
  py_truthy entry = true -> py_iter entry = Some l ->
  for_each merge_crop l st = Some r ->
  exists ccs, entry = JList (map JDict ccs) /\ l = map JDict ccs.
Proof.
  intros Ht Hit Hloop. destruct (crop_loop_entries _ _ _ Hloop) as (ccs & ->).
  exists ccs. split; [ | reflexivity].
  destruct entry as [ | | | | s | l | d]; simpl in Hit; try discriminate.
  - destruct s; [discriminate | ]. destruct ccs; discriminate.
  - congruence.
  - destruct d; [discriminate | ]. destruct ccs; discriminate.
Qed.

Lemma json_wf_list l : json_wf (JList (map JDict l)) = true ->
  Forall (fun cc => json_wf (JDict cc) = true) l.
Proof.
  simpl. rewrite forallb_forall. intros H. apply Forall_forall.
  intros cc Hcc. apply (H (JDict cc)). now apply in_map.
Qed.

Lemma Forall_filter (A : Type) (P : A -> Prop) (f : A -> bool) l :
  Forall P l -> Forall P (filter f l).
Proof.
  rewrite !Forall_forall. intros H x Hx. apply filter_In in Hx. apply H, Hx.
Qed.

Arguments for_each : simpl nomatch.

(** One record through the merge, when the merge passes. *)
Lemma merge_event_spec event_dict key e e' key' :
  json_wf (JDict event_dict) = true -> json_wf e = true ->
  merge_event event_dict key e = Some (e', key') ->
  selectively_updated event_dict e e'.
Proof.
  intros Wov We. destruct e as [ | | | | | | ev]; try discriminate.
  unfold merge_event, selectively_updated. simpl event_type_of.
  set (t := get_default ev "_event_type" JNull).
  destruct (overlay_entry event_dict t) as [entry | ] eqn:Hentry.
  - destruct (overlay_entry_inv _ _ _ Hentry) as (Ht & Hte & Hget & s & Hs & Hin).
    rewrite Ht, Hget, Hte.
    pose proof (json_wf_dict_get _ _ _ Wov Hin) as Wentry.
    destruct (py_eq t (JStr "crop")) eqn:Hcrop.
    + destruct (py_iter entry) as [l | ] eqn:Hit; [ | discriminate].
      destruct (for_each merge_crop l (ev, key)) as [r | ] eqn:Hloop; [ | discriminate].
      intros [= <- <-]. exists ev, (fst r). split; [reflexivity | ].
      split; [reflexivity | ].
      destruct (crop_entry_inv _ _ _ _ Hte Hit Hloop) as (ccs & -> & ->).
      exists ccs. split; [reflexivity | ].
      pose proof (json_wf_list _ Wentry) as Wccs.
      destruct (crop_loop_spec ccs ev key r (name_of ev) Wccs
                  (json_wf_name _ We) (fun w => eq_refl) Hloop) as (H1 & _).
      cbv zeta. split.
      * intros Hnil. rewrite H1, Hnil. reflexivity.
      * intros k. rewrite H1. apply assign_concat_get.
        now apply Forall_filter.
    + destruct entry as [ | | | | | | m]; try discriminate.
      destruct (last_key m key) as [k | ]; [ | discriminate].
      destruct (dict_has k (assign_items m ev)); [ | discriminate].
      intros [= <- <-]. exists ev, (assign_items m ev).
      split; [reflexivity | ]. split; [reflexivity | ].
      exists m. split; [reflexivity | ].
      intros k0. apply assign_items_get. now apply json_wf_dict_keys.
  - intros H. exists ev, ev. split; [reflexivity | ].
    assert (E : e' = JDict ev); [ | now rewrite E].
    destruct (overlay_entry_none _ _ Hentry) as [Ht | [Hn | (x & Hx & Hxt)]].
    + rewrite Ht in H. congruence.
    + rewrite Hn in H. destruct (py_truthy t); congruence.
    + rewrite Hx, Hxt in H. destruct (py_truthy t); congruence.
Qed.

Lemma keeps_tags_entry event_dict s entry :
  overlay_keeps_tags event_dict = true ->
  dict_get s event_dict = Some entry ->
  entry_keeps_tags entry = true.
Proof.
  unfold overlay_keeps_tags. rewrite forallb_forall. intros H Hget.
  apply (H _ (dict_get_In _ _ _ Hget)).
Qed.

Lemma keeps_tag_keys m : keeps_tag (JDict m) = true -> ~ In "_event_type" (keys m).
Proof.
  simpl. rewrite negb_true_iff. intros H Hin.
  apply dict_has_keys in Hin. congruence.
Qed.

Lemma type_after_assign m ev :
  ~ In "_event_type" (keys m) ->
  get_default (assign_items m ev) "_event_type" JNull
  = get_default ev "_event_type" JNull.
Proof. intros H. unfold get_default. now rewrite assign_items_get_other. Qed.

Lemma keys_concat k (hits : list dict) :
  In k (keys (List.concat hits)) -> exists cc, In cc hits /\ In k (keys cc).
Proof.
  unfold keys. rewrite concat_map, in_concat.
  intros (l & Hl & Hk). apply in_map_iff in Hl. destruct Hl as (cc & <- & Hcc). eauto.
Qed.

(** One record through the merge a second time: nothing changes. *)
Lemma merge_event_again event_dict key e e' key' :
  json_wf (JDict event_dict) = true -> overlay_keeps_tags event_dict = true ->
  json_wf e = true ->
  merge_event event_dict key e = Some (e', key') ->
  merge_event event_dict key e' = Some (e', key').
Proof.
  intros Wov Htags We. destruct e as [ | | | | | | ev]; try discriminate.
  unfold merge_event at 1.
  set (t := get_default ev "_event_type" JNull).
  destruct (overlay_entry event_dict t) as [entry | ] eqn:Hentry.
  - destruct (overlay_entry_inv _ _ _ Hentry) as (Ht & Hte & Hget & s & Hs & Hin).
    rewrite Ht, Hget, Hte.
    pose proof (json_wf_dict_get _ _ _ Wov Hin) as Wentry.
    pose proof (keeps_tags_entry _ _ _ Htags Hin) as Hkeep.
    destruct (py_eq t (JStr "crop")) eqn:Hcrop.
    + destruct (py_iter entry) as [l | ] eqn:Hit; [ | discriminate].
      destruct (for_each merge_crop l (ev, key)) as [r | ] eqn:Hloop; [ | discriminate].
      intros [= <- <-].
      destruct (crop_entry_inv _ _ _ _ Hte Hit Hloop) as (ccs & -> & ->).
      pose proof (json_wf_list _ Wentry) as Wccs.
      destruct (crop_loop_spec ccs ev key r (name_of ev) Wccs
                  (json_wf_name _ We) (fun w => eq_refl) Hloop) as (H1 & _).
      assert (Htype : get_default (fst r) "_event_type" JNull = t).
      { rewrite H1. apply type_after_assign. intros Hk.
        apply keys_concat in Hk. destruct Hk as (cc & Hcc & Hk).
        apply filter_In in Hcc. destruct Hcc as [Hcc _].
        simpl in Hkeep. rewrite forallb_forall in Hkeep.
        apply (keeps_tag_keys cc); [ | exact Hk].
        apply Hkeep. now apply in_map. }
      unfold merge_event. rewrite Htype, Ht, Hget, Hte, Hcrop, Hit.
      match goal with
      | |- context [for_each ?f ?l ?st] =>
          replace (for_each f l st) with (Some r)
            by (symmetry; exact (crop_loop_again ccs ev key r Wccs
                                   (json_wf_name _ We) Hloop))
      end.
      reflexivity.
    + destruct entry as [ | | | | | | m]; try discriminate.
      destruct (last_key m key) as [k | ] eqn:Hk; [ | discriminate].
      destruct (dict_has k (assign_items m ev)) eqn:Hhas; [ | discriminate].
      intros [= <- <-].
      unfold merge_event.
      rewrite (type_after_assign m ev (keeps_tag_keys _ Hkeep)).
      fold t. rewrite Ht, Hget, Hte, Hcrop, Hk, assign_items_idem, Hhas.
      reflexivity.
  - intros H.
    assert (E : e' = JDict ev /\ key' = key).
    { destruct (overlay_entry_none _ _ Hentry) as [Ht | [Hn | (x & Hx & Hxt)]].
      - rewrite Ht in H. now injection H as <- <-.
      - rewrite Hn in H. destruct (py_truthy t); [discriminate | ].
        now injection H as <- <-.
      - rewrite Hx, Hxt in H. destruct (py_truthy t); now injection H as <- <-. }
    destruct E as [-> ->]. exact H.
Qed.

(** The whole event list through the merge. *)
Lemma merge_events_spec event_dict : forall evs key evs' key',
  json_wf (JDict event_dict) = true -> json_wf (JList evs) = true ->
  merge_events event_dict evs key = Some (evs', key') ->
  Forall2 (selectively_updated event_dict) evs evs'.
Proof.
  induction evs as [ | e evs IH]; intros key evs' key' Wov Wevs; simpl.
  - intros [= <- <-]. constructor.
  - simpl in Wevs. apply andb_true_iff in Wevs. destruct Wevs as [We Wevs].
    destruct (merge_event event_dict key e) as [[e1 k1] | ] eqn:He; [ | discriminate].
    simpl. destruct (merge_events event_dict evs k1) as [[es k2] | ] eqn:Hes;
      [ | discriminate].
    intros [= <- <-]. constructor.
    + eapply merge_event_spec; eauto.
    + eapply IH; eauto.
Qed.

Lemma merge_events_again event_dict : forall evs key evs' key',
  json_wf (JDict event_dict) = true -> overlay_keeps_tags event_dict = true ->
  json_wf (JList evs) = true ->
  merge_events event_dict evs key = Some (evs', key') ->
  merge_events event_dict evs' key = Some (evs', key').
Proof.
  induction evs as [ | e evs IH]; intros key evs' key' Wov Htags Wevs; simpl.
  - intros [= <- <-]. reflexivity.
  - simpl in Wevs. apply andb_true_iff in Wevs. destruct Wevs as [We Wevs].
    destruct (merge_event event_dict key e) as [[e1 k1] | ] eqn:He; [ | discriminate].
    simpl. destruct (merge_events event_dict evs k1) as [[es k2] | ] eqn:Hes;
      [ | discriminate].
    intros [= <- <-]. simpl.
    rewrite (merge_event_again _ _ _ _ _ Wov Htags We He). simpl.
    rewrite (IH _ _ _ Wov Htags Wevs Hes). reflexivity.
Qed.

Lemma nth_error_wf l : forall n x,
  forallb json_wf l = true -> nth_error l n = Some x -> json_wf x = true.
Proof.
  intros n x Hl Hn. rewrite forallb_forall in Hl. apply Hl.
  eapply nth_error_In; eauto.
Qed.

(** What a path resolves to in a well-formed document is well-formed. *)
Lemma get_path_wf p : forall j x,
  json_wf j = true -> get_path p j = Some x -> json_wf x = true.
Proof.
  induction p as [ | s p IH]; intros j x Wj; simpl.
  - now intros [= <-].
  - destruct (py_getitem s j) as [y | ] eqn:Hy; [ | discriminate].
    apply IH. destruct s as [n | k], j as [ | | | | t | l | d];
      simpl in Hy; try discriminate.
    + destruct (String.get n t); [ | discriminate]. now injection Hy as <-.
    + eapply nth_error_wf; eauto.
    + eapply json_wf_dict_get; eauto.
Qed.

Lemma events_path_shape :
  idx_then_key (Idx 0 :: events_path) = true /\ idx_then_key events_path = true.
Proof. split; reflexivity. Qed.

Lemma located_shape (k : string) p json_data loc :
  idx_then_key (Idx 0 :: Key k :: p) = true ->
  locate (Key k :: p) json_data = Some loc ->
  idx_then_key (fst loc) = true /\ get_path (fst loc) json_data = Some (snd loc).
Proof.
  intros Hp Hloc. destruct (locate_cases _ _ _ _ Hloc) as (Hget & [E | (E & _)]);
    rewrite E; split; auto. rewrite <- E. exact Hget. rewrite <- E. exact Hget.
Qed.

Lemma last_key_nonempty kv m key : exists k, last_key (kv :: m) key = Some k /\ In k (keys (kv :: m)).
Proof.
  revert kv key. induction m as [ | kv' m IH]; intros kv key.
  - exists (fst kv). split; [reflexivity | now left].
  - destruct (IH kv' (Some (fst kv))) as (k & Hk & Hin).
    exists k. split; [exact Hk | now right].
Qed.

Lemma crop_loop_returns : forall l ev key,
  forallb (fun cc => match cc with JDict (_ :: _) => true | _ => false end) l = true ->
  exists r, for_each merge_crop l (ev, key) = Some r.
Proof.
  induction l as [ | cc l IH]; intros ev key Hl; [simpl; eauto | ].
  simpl in Hl. apply andb_true_iff in Hl. destruct Hl as [Hcc Hl].
  destruct cc as [ | | | | | | [ | kv m]]; try discriminate.
  rewrite for_each_cons.
  destruct (py_eq (name_of ev) (name_of (kv :: m))) eqn:Hm.
  - rewrite (merge_crop_hit _ _ _ Hm).
    destruct (last_key_nonempty kv m key) as (k & -> & Hin).
    assert (Hhas : dict_has k (assign_items (kv :: m) ev) = true)
      by (apply dict_has_keys; now apply assign_items_has_keys).
    rewrite Hhas. apply IH, Hl.
  - rewrite (merge_crop_miss _ _ _ Hm). apply IH, Hl.
Qed.

Lemma overlay_ok_entry event_dict s entry :
  overlay_ok event_dict = true -> dict_get s event_dict = Some entry ->
  (if String.eqb s "crop" then crop_entry_ok entry else other_entry_ok entry) = true.
Proof.
  unfold overlay_ok. rewrite forallb_forall. intros H Hget.
  apply (H _ (dict_get_In _ _ _ Hget)).
Qed.

(** The merge passes on every well-shaped event under a well-shaped overlay. *)
Lemma merge_event_returns event_dict key e :
  overlay_ok event_dict = true -> event_ok e = true ->
  exists r, merge_event event_dict key e = Some r.
Proof.
  intros Hov He. destruct e as [ | | | | | | ev]; try discriminate.
  simpl in He. unfold merge_event.
  set (t := get_default ev "_event_type" JNull) in *.
  destruct (overlay_entry event_dict t) as [entry | ] eqn:Hentry.
  - destruct (overlay_entry_inv _ _ _ Hentry) as (Ht & Hte & Hget & s & Hs & Hin).
    rewrite Ht, Hget, Hte.
    pose proof (overlay_ok_entry _ _ _ Hov Hin) as Hok.
    destruct (py_eq t (JStr "crop")) eqn:Hcrop.
    + apply py_eq_crop in Hcrop. rewrite Hcrop in Hs. injection Hs as <-.
      simpl in Hok. unfold crop_entry_ok in Hok. rewrite Hte in Hok. simpl in Hok.
      destruct entry as [ | | | | | l | ]; try discriminate.
      simpl. destruct (crop_loop_returns l ev key Hok) as (r & Hr).
      match goal with
      | |- context [for_each ?f ?l ?st] =>
          replace (for_each f l st) with (Some r) by (symmetry; exact Hr)
      end.
      eauto.
    + assert (Hs' : String.eqb s "crop" = false).
      { apply String.eqb_neq. intros ->. rewrite Hs in Hcrop. simpl in Hcrop.
        discriminate. }
      rewrite Hs' in Hok. unfold other_entry_ok in Hok. rewrite Hte in Hok.
      simpl in Hok. destruct entry as [ | | | | | | [ | kv m]]; try discriminate.
      destruct (last_key_nonempty kv m key) as (k & -> & Hk).
      assert (Hhas : dict_has k (assign_items (kv :: m) ev) = true)
        by (apply dict_has_keys; now apply assign_items_has_keys).
      rewrite Hhas. eauto.
  - destruct (overlay_entry_none _ _ Hentry) as [Ht | [Hn | (x & Hx & Hxt)]].
    + rewrite Ht. eauto.
    + destruct t; simpl in He, Hn; discriminate.
    + rewrite Hx, Hxt. destruct (py_truthy t); eauto.
Qed.

Lemma merge_events_returns event_dict : forall evs key,
  overlay_ok event_dict = true -> forallb event_ok evs = true ->
  exists r, merge_events event_dict evs key = Some r.
Proof.
  induction evs as [ | e evs IH]; intros key Hov Hevs; simpl; [eauto | ].
  simpl in Hevs. apply andb_true_iff in Hevs. destruct Hevs as [He Hevs].
  destruct (merge_event_returns event_dict key e Hov He) as (r & ->).
  destruct (IH (snd r) Hov Hevs) as (rs & ->). eauto.
Qed.

(** C1. When the merge returns, the returned document is the given one
    with the event list replaced, record by record, by its selective
    update: a record whose event type has no (non-empty) overlay entry is
    unchanged; a crop record is unchanged when no crop entry has its name,
    and otherwise carries, for every key, the value of the last entry of
    its name that has the key, and its own value for every other key; any
    other record carries the values of the overlay's mapping for its type
    and its own value for every other key.  The merge does return when the
    events are records and the overlay holds mappings. *)
Theorem C1_selective_merge event_dict json_data p evs :
  json_wf json_data = true ->
  json_wf (JDict event_dict) = true ->
  locate events_path json_data = Some (p, JList evs) ->
  (forall doc',
      input_config_replacement event_dict json_data = Some doc' ->
      exists evs',
        set_path p (JList evs') json_data = Some doc' /\
        get_path p doc' = Some (JList evs') /\
        Forall2 (selectively_updated event_dict) evs evs') /\
  (overlay_ok event_dict = true -> forallb event_ok evs = true ->
   exists doc', input_config_replacement event_dict json_data = Some doc').
Proof.
  intros Wdoc Wov Hloc.
  destruct (located_shape "sites" _ _ _ (proj1 events_path_shape) Hloc) as (Hp & Hget).
  simpl in Hp, Hget.
  unfold input_config_replacement. rewrite Hloc. simpl. split.
  - intros doc'.
    destruct (merge_events event_dict evs None) as [[evs' k'] | ] eqn:Hm;
      [ | discriminate].
    simpl. intros Hset. exists evs'.
    destruct (set_path_resolves p (JList evs') _ _ Hp Hget) as (j & Hj & Hgetj).
    rewrite Hset in Hj. injection Hj as <-.
    repeat split; auto.
    apply (merge_events_spec _ _ _ _ _ Wov (get_path_wf _ _ _ Wdoc Hget) Hm).
  - intros Hov Hevs.
    destruct (merge_events_returns event_dict evs None Hov Hevs) as (r & ->).
    destruct (set_path_resolves p (JList (fst r)) _ _ Hp Hget) as (j & Hj & _).
    eauto.
Qed.

Lemma C1_selective_merge_witness :
  exists doc' evs',
    input_config_replacement Sample.overlay Sample.doc = Some doc' /\
    get_path events_path doc' = Some (JList evs') /\
    nth_error evs' 0 = Some (Sample.crop "A" 4000) /\
    nth_error evs' 2 = Some (Sample.crop "B" 1500) /\
    Forall2 (selectively_updated Sample.overlay) Sample.events evs'.
Proof.
  destruct (C1_selective_merge Sample.overlay Sample.doc events_path Sample.events
              eq_refl eq_refl eq_refl) as (Hspec & Hreturns).
  destruct (Hreturns eq_refl eq_refl) as (doc' & Hrun).
  destruct (Hspec doc' Hrun) as (evs' & Hset & Hget & Hall).
  exists doc', evs'. repeat split; auto.
  - vm_compute in Hrun. injection Hrun as <-.
    vm_compute in Hget. injection Hget as <-. reflexivity.
  - vm_compute in Hrun. injection Hrun as <-.
    vm_compute in Hget. injection Hget as <-. reflexivity.
Defined.

(** C7 as stated fails: this overlay retags an irrigation record, and the
    second merge then finds the entry of the new tag. *)
Lemma C7_retagging_not_idempotent :
  exists once twice,
    input_config_replacement Sample.retagging_overlay Sample.doc = Some once /\
    input_config_replacement Sample.retagging_overlay once = Some twice /\
    once <> twice.
Proof.
  do 2 eexists. split; [vm_compute; reflexivity | ].
  split; [vm_compute; reflexivity | ]. discriminate.
Qed.

(** C7 amended. When no mapping of the overlay carries the key
    ["_event_type"], merging the overlay into the result of merging it
    returns that result again. *)
Theorem C7_merge_idempotent event_dict json_data doc' :
  json_wf json_data = true ->
  json_wf (JDict event_dict) = true ->
  overlay_keeps_tags event_dict = true ->
  input_config_replacement event_dict json_data = Some doc' ->
  input_config_replacement event_dict doc' = Some doc'.
Proof.
  intros Wdoc Wov Htags Hrun. pose proof Hrun as Hrun0.
  unfold input_config_replacement in Hrun.
  destruct (locate events_path json_data) as [loc | ] eqn:Hloc; [ | discriminate].
  destruct (py_iter (snd loc)) as [evs | ] eqn:Hit; [ | discriminate].
  destruct (merge_events event_dict evs None) as [[evs1 k1] | ] eqn:Hm; [ | discriminate].
  destruct (located_shape "sites" _ _ _ (proj1 events_path_shape) Hloc) as (Hp & Hget).
  destruct (snd loc) as [ | | | | | l | ] eqn:Hsnd;
    try (injection Hrun as <-; exact Hrun0).
  simpl in Hit. injection Hit as <-. simpl in Hrun.
  assert (Hloc' : locate events_path doc' = Some (fst loc, JList evs1))
    by exact (locate_after_set "sites" _ _ _ _ _ (proj1 events_path_shape) Hloc Hrun).
  unfold input_config_replacement. rewrite Hloc'. simpl.
  rewrite (merge_events_again _ _ _ _ _ Wov Htags (get_path_wf _ _ _ Wdoc Hget) Hm).
  simpl. apply (set_path_idem _ _ _ _ Hrun).
Qed.

Lemma C7_merge_idempotent_witness :
  exists once,
    input_config_replacement Sample.overlay Sample.doc = Some once /\
    input_config_replacement Sample.overlay once = Some once.
Proof.
  destruct (input_config_replacement Sample.overlay Sample.doc) as [once | ] eqn:Hrun;
    [ | vm_compute in Hrun; discriminate].
  exists once. split; [reflexivity | ].
  apply (C7_merge_idempotent Sample.overlay Sample.doc once eq_refl eq_refl eq_refl Hrun).
Defined.

(* ================================================================== *)
(** * The soil merge: [soil_config_replacement] *)
(* ================================================================== *)

Lemma soil_loop_spec soil_dict : forall ks sd,
  (forall k, In k ks -> In k (keys sd)) ->
  let sd' := fold_left (fun sd key => match dict_get key soil_dict with
                                      | Some v => dict_set key v sd
                                      | None => sd
                                      end) ks sd in
  keys sd' = keys sd /\
  forall k, dict_get k sd'
            = if existsb (String.eqb k) ks
              then match dict_get k soil_dict with
                   | Some w => Some w
                   | None => dict_get k sd
                   end
              else dict_get k sd.
Proof.
  induction ks as [ | k1 ks IH]; intros sd Hks; simpl; [auto | ].
  set (sd1 := match dict_get k1 soil_dict with
              | Some v => dict_set k1 v sd
              | None => sd
              end).
  assert (Hkeys1 : keys sd1 = keys sd).
  { unfold sd1. destruct (dict_get k1 soil_dict); [ | reflexivity].
    apply keys_set_present. apply Hks. now left. }
  assert (Hks1 : forall k, In k ks -> In k (keys sd1))
    by (intros k Hk; rewrite Hkeys1; apply Hks; now right).
  destruct (IH sd1 Hks1) as (Hkeys & Hget). split; [congruence | ].
  intros k. rewrite Hget.
  assert (Hget1 : dict_get k sd1
                  = if String.eqb k k1
                    then match dict_get k soil_dict with
                         | Some w => Some w
                         | None => dict_get k sd
                         end
                    else dict_get k sd).
  { unfold sd1. destruct (String.eqb_spec k k1) as [-> | Hne].
    - destruct (dict_get k1 soil_dict); [apply dict_get_set_same | reflexivity].
    - destruct (dict_get k1 soil_dict); [now apply dict_get_set_other | reflexivity]. }
  rewrite Hget1.
  destruct (String.eqb k k1), (existsb (String.eqb k) ks), (dict_get k soil_dict);
    reflexivity.
Qed.

Lemma soil_merge_spec soil_dict soil_data :
  keys (soil_merge soil_dict soil_data) = keys soil_data /\
  forall k, dict_get k (soil_merge soil_dict soil_data)
            = match dict_get k soil_data with
              | Some v => Some (match dict_get k soil_dict with
                                | Some w => w
                                | None => v
                                end)
              | None => None
              end.
Proof.
  destruct (soil_loop_spec soil_dict (keys soil_data) soil_data (fun k H => H))
    as (Hkeys & Hget).
  split; [exact Hkeys | ]. intros k. unfold soil_merge. rewrite Hget.
  destruct (existsb (String.eqb k) (keys soil_data)) eqn:Hex.
  - apply existsb_exists in Hex. destruct Hex as (k' & Hk' & E).
    apply String.eqb_eq in E. subst k'. apply dict_has_keys in Hk'.
    unfold dict_has in Hk'. destruct (dict_get k soil_data); [ | discriminate].
    destruct (dict_get k soil_dict); reflexivity.
  - destruct (dict_get k soil_data) eqn:E; [ | reflexivity].
    apply dict_get_In in E. apply (in_map fst) in E.
    assert (existsb (String.eqb k) (keys soil_data) = true); [ | congruence].
    apply existsb_exists. exists k. split; [exact E | apply String.eqb_refl].
Qed.

(** C9. On a document whose soil record is a dictionary the soil merge
    returns the document with that record replaced: the record keeps its
    keys (and their order); a key that the overlay has as well carries the
    overlay's value, every other key its own value; a key that only the
    overlay has is not added. *)
Theorem C9_soil_merge soil_dict json_data p soil_data :
  locate soil_path json_data = Some (p, JDict soil_data) ->
  exists doc' soil',
    soil_config_replacement soil_dict json_data = Some doc' /\
    set_path p (JDict soil') json_data = Some doc' /\
    get_path p doc' = Some (JDict soil') /\
    keys soil' = keys soil_data /\
    forall k, dict_get k soil'
              = match dict_get k soil_data with
                | Some v => Some (match dict_get k soil_dict with
                                  | Some w => w
                                  | None => v
                                  end)
                | None => None
                end.
Proof.
  intros Hloc.
  assert (Hshape : idx_then_key (Idx 0 :: soil_path) = true) by reflexivity.
  destruct (located_shape "sites" _ _ _ Hshape Hloc) as (Hp & Hget).
  simpl in Hp, Hget.
  destruct (set_path_resolves p (JDict (soil_merge soil_dict soil_data)) _ _ Hp Hget)
    as (doc' & Hset & Hget').
  exists doc', (soil_merge soil_dict soil_data).
  unfold soil_config_replacement. rewrite Hloc. simpl.
  destruct (soil_merge_spec soil_dict soil_data) as (Hkeys & Hval).
  repeat split; auto.
Qed.

Lemma C9_soil_merge_witness :
  exists doc' soil',
    soil_config_replacement Sample.soil_overlay Sample.doc = Some doc' /\
    get_path soil_path doc' = Some (JDict soil') /\
    keys soil' = ["clay"; "ph"; "texture"] /\
    dict_get "ph" soil' = Some (JFloat 7) /\
    dict_get "organic" soil' = None.
Proof.
  destruct (C9_soil_merge Sample.soil_overlay Sample.doc soil_path
              [("clay", JFloat 0.25); ("ph", JFloat 6.5); ("texture", JStr "loam")]
              eq_refl)
    as (doc' & soil' & Hrun & _ & Hget & Hkeys & Hval).
  exists doc', soil'. repeat split; auto.
Defined.

(* ================================================================== *)
(** * The auto-fertilization generator *)
(* ================================================================== *)

Lemma split_dash_digits d rest :
  split_dash (NilEmpty.string_of_uint d ++ String "-" rest)%string
  = NilEmpty.string_of_uint d :: split_dash rest.
Proof.
  induction d; simpl; rewrite ?IHd; reflexivity.
Qed.

Lemma py_int_digits d :
  d <> Decimal.Nil -> py_int (NilEmpty.string_of_uint d) = Some (Z.of_uint d).
Proof.
  intros Hd. destruct d; try congruence;
    cbn [NilEmpty.string_of_uint py_int NilZero.uint_of_string
         NilEmpty.uint_of_string];
    rewrite NilEmpty.usu; reflexivity.
Qed.

(** The text of a year that is not negative: its digits, and nothing else. *)
Lemma py_str_int_digits year :
  (0 <= year)%Z ->
  exists d, d <> Decimal.Nil /\ py_str_int year = NilEmpty.string_of_uint d /\
            Z.of_uint d = year.
Proof.
  intros Hy. unfold py_str_int.
  pose proof (DecimalZ.of_to year) as Hround.
  destruct year as [ | p | p]; [ | | lia].
  - exists (Decimal.D0 Decimal.Nil). repeat split; congruence.
  - simpl in *. exists (Pos.to_uint p). split; [ | split].
    + intros E. rewrite E in Hround. discriminate.
    + destruct (Pos.to_uint p) eqn:E; try reflexivity.
      simpl in Hround. discriminate.
    + exact Hround.
Qed.

Lemma append_auto_fert_year l year :
  (0 <= year)%Z ->
  append_auto_fert (JList l)
    ((py_str_int year ++ "-01-01")%string, (py_str_int year ++ "-12-30")%string)
  = Some (JList (l ++ [auto_fert_event year])).
Proof.
  intros Hy. destruct (py_str_int_digits year Hy) as (d & Hd & -> & Hval).
  unfold append_auto_fert. simpl fst. simpl snd.
  rewrite !split_dash_digits. simpl split_dash.
  rewrite (py_int_digits d Hd), Hval. reflexivity.
Qed.

Lemma py_range_lower a b y : In y (py_range a b) -> (a <= y)%Z.
Proof.
  unfold py_range. rewrite in_map_iff. intros (i & <- & _). lia.
Qed.

Lemma auto_fert_loop : forall years l,
  Forall (fun year => (0 <= year)%Z) years ->
  for_each append_auto_fert
    (map (fun year => ((py_str_int year ++ "-01-01")%string,
                       (py_str_int year ++ "-12-30")%string)) years)
    (JList l)
  = Some (JList (l ++ map auto_fert_event years)).
Proof.
  induction years as [ | year years IH]; intros l Hy; cbn [map for_each].
  - now rewrite app_nil_r.
  - inversion_clear Hy as [ | ? ? H0 Hrest].
    rewrite for_each_cons, (append_auto_fert_year l year H0), (IH _ Hrest),
      <- app_assoc.
    reflexivity.
Qed.

(** With the first year after the last one the document comes back as it
    was. *)
Lemma auto_fertilization_empty_range json_data p evs first_year last_year :
  locate events_path json_data = Some (p, JList evs) ->
  (last_year < first_year)%Z ->
  generate_autofertilization_event json_data first_year last_year = Some json_data.
Proof.
  intros Hloc Hlt.
  destruct (located_shape "sites" _ _ _ (proj1 events_path_shape) Hloc) as (Hp & Hget).
  simpl in Hp, Hget.
  unfold generate_autofertilization_event, py_range. rewrite Hloc.
  replace (Z.to_nat (last_year + 1 - first_year)) with 0%nat by lia.
  simpl. apply (set_path_same _ _ _ Hp Hget).
Qed.

(** C3 as stated fails: for a negative year the text of the start date
    splits into four parts, and the generator raises. *)
Lemma C3_negative_year_fails :
  locate events_path Sample.doc = Some (events_path, JList Sample.events) /\
  py_range (-1) (-1 + 1) = [(-1)%Z] /\
  generate_autofertilization_event Sample.doc (-1) (-1) = None.
Proof. repeat split; reflexivity. Qed.

(** C3 amended. On a document with an event list, and for a first year
    that is not negative (or after the last year), the generator returns
    the document with one event appended per year from [first_year] to
    [last_year], in increasing order, every earlier event unchanged; each
    new event is an ["alt_fertilizer"] with method ["auto-fertilizer"],
    from January 1st to December 30th of its year. *)
Theorem C3_auto_fertilization json_data p evs first_year last_year :
  locate events_path json_data = Some (p, JList evs) ->
  (0 <= first_year \/ last_year < first_year)%Z ->
  exists doc',
    generate_autofertilization_event json_data first_year last_year = Some doc' /\
    set_path p (JList (evs ++ map auto_fert_event (py_range first_year (last_year + 1))))
             json_data = Some doc' /\
    get_path p doc'
    = Some (JList (evs ++ map auto_fert_event (py_range first_year (last_year + 1)))) /\
    py_range first_year (last_year + 1)
    = map (fun i => (first_year + Z.of_nat i)%Z)
          (seq 0 (Z.to_nat (last_year - first_year + 1))).
Proof.
  intros Hloc Hyears.
  destruct (located_shape "sites" _ _ _ (proj1 events_path_shape) Hloc) as (Hp & Hget).
  simpl in Hp, Hget.
  set (new := map auto_fert_event (py_range first_year (last_year + 1))).
  destruct (set_path_resolves p (JList (evs ++ new)) _ _ Hp Hget)
    as (doc' & Hset & Hget').
  exists doc'. unfold generate_autofertilization_event. rewrite Hloc. simpl snd. simpl fst.
  rewrite auto_fert_loop.
  - repeat split; auto. unfold py_range. do 2 f_equal. lia.
  - apply Forall_forall. intros y Hy. destruct Hyears as [H0 | Hempty].
    + apply py_range_lower in Hy. lia.
    + unfold py_range in Hy. replace (Z.to_nat (last_year + 1 - first_year)) with 0%nat in Hy by lia.
      destruct Hy.
Qed.

Lemma C3_auto_fertilization_witness :
  exists doc',
    generate_autofertilization_event Sample.doc 2001 2003 = Some doc' /\
    get_path events_path doc'
    = Some (JList (Sample.events ++
                   [auto_fert_event 2001; auto_fert_event 2002; auto_fert_event 2003])).
Proof.
  assert (Hyears : (0 <= 2001 \/ 2003 < 2001)%Z) by (left; lia).
  destruct (C3_auto_fertilization Sample.doc events_path Sample.events 2001 2003
              eq_refl Hyears)
    as (doc' & Hrun & _ & Hget & _).
  exists doc'. split; [exact Hrun | exact Hget].
Defined.

(* ================================================================== *)
(** * The date reconstruction: [return_output_df] *)
(* ================================================================== *)

Open Scope Z_scope.

(** The calendar arithmetic inverts the day count, in every year. *)
Lemma ordinal_year_day_inverse y j :
  1 <= y -> 1 <= j <= 365 ->
  ordinal_year_day (days_before_year y + j) = (y, j).
Proof.
  intros Hy Hj. unfold ordinal_year_day, days_before_year.
  set (Y := y - 1).
  pose proof (Z.div_mod Y 400 ltac:(lia)) as E400.
  pose proof (Z.mod_pos_bound Y 400 ltac:(lia)) as B400.
  set (q400 := Y / 400) in *. set (r400 := Y mod 400) in *.
  pose proof (Z.div_mod r400 100 ltac:(lia)) as E100.
  pose proof (Z.mod_pos_bound r400 100 ltac:(lia)) as B100.
  set (q100 := r400 / 100) in *. set (r100 := r400 mod 100) in *.
  pose proof (Z.div_mod r100 4 ltac:(lia)) as E4.
  pose proof (Z.mod_pos_bound r100 4 ltac:(lia)) as B4.
  set (q4 := r100 / 4) in *. set (r4 := r100 mod 4) in *.
  assert (Hq100 : 0 <= q100 <= 3) by lia.
  assert (Hq4 : 0 <= q4 <= 24) by lia.
  assert (D4 : Y / 4 = 100 * q400 + 25 * q100 + q4)
    by (symmetry; apply (Z.div_unique Y 4 _ r4); lia).
  assert (D100 : Y / 100 = 4 * q400 + q100)
    by (symmetry; apply (Z.div_unique Y 100 _ r100); lia).
  rewrite D4, D100.
  set (n := Y * 365 + (100 * q400 + 25 * q100 + q4) - (4 * q400 + q100) + q400 + j - 1).
  assert (Hn : n = q400 * 146097 + (q100 * 36524 + (q4 * 1461 + (r4 * 365 + (j - 1)))))
    by (unfold n; lia).
  rewrite Hn.
  assert (N400 : (q400 * 146097 + (q100 * 36524 + (q4 * 1461 + (r4 * 365 + (j - 1)))))
                 / 146097 = q400)
    by (symmetry; apply (Z.div_unique _ 146097 _
                           (q100 * 36524 + (q4 * 1461 + (r4 * 365 + (j - 1))))); lia).
  assert (M400 : (q400 * 146097 + (q100 * 36524 + (q4 * 1461 + (r4 * 365 + (j - 1)))))
                 mod 146097 = q100 * 36524 + (q4 * 1461 + (r4 * 365 + (j - 1))))
    by (symmetry; apply (Z.mod_unique _ 146097 q400); lia).
  rewrite N400, M400.
  assert (N100 : (q100 * 36524 + (q4 * 1461 + (r4 * 365 + (j - 1)))) / 36524 = q100)
    by (symmetry; apply (Z.div_unique _ 36524 _ (q4 * 1461 + (r4 * 365 + (j - 1)))); lia).
  assert (M100 : (q100 * 36524 + (q4 * 1461 + (r4 * 365 + (j - 1)))) mod 36524
                 = q4 * 1461 + (r4 * 365 + (j - 1)))
    by (symmetry; apply (Z.mod_unique _ 36524 q100); lia).
  rewrite N100, M100.
  assert (N4 : (q4 * 1461 + (r4 * 365 + (j - 1))) / 1461 = q4)
    by (symmetry; apply (Z.div_unique _ 1461 _ (r4 * 365 + (j - 1))); lia).
  assert (M4 : (q4 * 1461 + (r4 * 365 + (j - 1))) mod 1461 = r4 * 365 + (j - 1))
    by (symmetry; apply (Z.mod_unique _ 1461 q4); lia).
  rewrite N4, M4.
  assert (N1 : (r4 * 365 + (j - 1)) / 365 = r4)
    by (symmetry; apply (Z.div_unique _ 365 _ (j - 1)); lia).
  assert (M1 : (r4 * 365 + (j - 1)) mod 365 = j - 1)
    by (symmetry; apply (Z.mod_unique _ 365 r4); lia).
  rewrite N1, M1.
  replace (r4 =? 4) with false by (symmetry; apply Z.eqb_neq; lia).
  replace (q100 =? 4) with false by (symmetry; apply Z.eqb_neq; lia).
  simpl. f_equal; lia.
Qed.

Lemma string_length_append a b :
  String.length (a ++ b)%string = (String.length a + String.length b)%nat.
Proof. induction a as [ | c a IH]; simpl; [reflexivity | now rewrite IH]. Qed.

Lemma substring_whole b : substring 0 (String.length b) b = b.
Proof. induction b as [ | c b IH]; simpl; [reflexivity | now rewrite IH]. Qed.

Lemma substring_prefix a b : substring 0 (String.length a) (a ++ b)%string = a.
Proof.
  induction a as [ | c a IH]; simpl.
  - destruct b; reflexivity.
  - now rewrite IH.
Qed.

Lemma substring_suffix a b :
  substring (String.length a) (String.length b) (a ++ b)%string = b.
Proof.
  induction a as [ | c a IH]; simpl; [apply substring_whole | exact IH].
Qed.

Lemma in_py_range a b y : a <= y < b -> In y (py_range a b).
Proof.
  intros H. unfold py_range. apply in_map_iff.
  exists (Z.to_nat (y - a)). split; [lia | ]. apply in_seq. lia.
Qed.

Lemma year_text_checked : forallb year_text_ok (py_range 1000 10000) = true.
Proof. vm_compute. reflexivity. Qed.

Lemma day_text_checked : forallb day_text_ok (py_range 1 367) = true.
Proof. vm_compute. reflexivity. Qed.

Lemma year_text y :
  1000 <= y <= 9999 ->
  String.length (py_str_int y) = 4%nat /\ digits_value (py_str_int y) = Some y.
Proof.
  intros Hy. pose proof year_text_checked as H. rewrite forallb_forall in H.
  specialize (H y (in_py_range 1000 10000 y ltac:(lia))).
  unfold year_text_ok in H. apply andb_true_iff in H. destruct H as [H1 H2].
  apply Nat.eqb_eq in H1. split; [exact H1 | ].
  destruct (digits_value (py_str_int y)); [ | discriminate].
  apply Z.eqb_eq in H2. now subst.
Qed.

Lemma day_text j :
  1 <= j <= 366 ->
  (1 <= String.length (py_str_int j) <= 3)%nat /\
  digits_value (py_str_int j) = Some j.
Proof.
  intros Hj. pose proof day_text_checked as H. rewrite forallb_forall in H.
  specialize (H j (in_py_range 1 367 j ltac:(lia))).
  unfold day_text_ok in H. rewrite !andb_true_iff in H. destruct H as [[H1 H2] H3].
  apply Nat.leb_le in H1, H2. split; [lia | ].
  destruct (digits_value (py_str_int j)); [ | discriminate].
  apply Z.eqb_eq in H3. now subst.
Qed.

(** A four-digit year followed by a day number parses to that year and day. *)
Lemma strptime_year_day y j :
  1000 <= y <= 9999 -> 1 <= j <= 366 ->
  strptime_Yj (py_str_int y ++ py_str_int j)%string = Some (days_before_year y + j).
Proof.
  intros Hy Hj.
  destruct (year_text y Hy) as (Ly & Vy). destruct (day_text j Hj) as (Lj & Vj).
  unfold strptime_Yj. rewrite string_length_append, Ly.
  replace ((4 + String.length (py_str_int j) <? 5)%nat) with false
    by (symmetry; apply Nat.ltb_ge; lia).
  replace ((7 <? 4 + String.length (py_str_int j))%nat) with false
    by (symmetry; apply Nat.ltb_ge; lia).
  cbn [orb].
  replace (4 + String.length (py_str_int j) - 4)%nat
    with (String.length (py_str_int j)) by lia.
  rewrite <- Ly at 1. rewrite substring_prefix, Vy.
  rewrite <- Ly at 1. rewrite substring_suffix, Vj.
  replace (1 <=? y) with true by (symmetry; apply Z.leb_le; lia).
  replace (1 <=? j) with true by (symmetry; apply Z.leb_le; lia).
  replace (j <=? 366) with true by (symmetry; apply Z.leb_le; lia).
  reflexivity.
Qed.

Lemma jan1_ordinal y : ymd_to_ordinal y 1 1 = days_before_year y + 1.
Proof. unfold ymd_to_ordinal, days_before_month. simpl. lia. Qed.

(** The days of the years 1678 to 2261 fit in a nanosecond timestamp. *)
Lemma year_in_ns_bounds y j :
  1678 <= y <= 2261 -> 1 <= j <= 366 ->
  in_ns_bounds (days_before_year y + j) = true.
Proof.
  intros Hy Hj. unfold in_ns_bounds.
  replace ns_min_date with 612412 by (vm_compute; reflexivity).
  replace ns_max_date with 825914 by (vm_compute; reflexivity).
  unfold days_before_year.
  pose proof (Z.div_mod (y - 1) 4 ltac:(lia)) as E4.
  pose proof (Z.mod_pos_bound (y - 1) 4 ltac:(lia)) as B4.
  pose proof (Z.div_mod (y - 1) 100 ltac:(lia)) as E100.
  pose proof (Z.mod_pos_bound (y - 1) 100 ltac:(lia)) as B100.
  pose proof (Z.div_mod (y - 1) 400 ltac:(lia)) as E400.
  pose proof (Z.mod_pos_bound (y - 1) 400 ltac:(lia)) as B400.
  apply andb_true_iff. split; apply Z.leb_le; lia.
Qed.

Lemma to_datetime_rows (A : Type) : forall df_ : list (row A),
  Forall (fun r => 1678 <= Year r <= 2261 /\ 1 <= Day r <= 365) df_ ->
  to_datetime (map (@year_day_text A) df_) = Some (map (@expected_date A) df_).
Proof.
  induction df_ as [ | r df_ IH]; intros Hrows; cbn [map to_datetime];
    [reflexivity | ].
  inversion_clear Hrows as [ | ? ? (Hy & Hj) Hrest].
  unfold year_day_text at 1. rewrite strptime_year_day by lia.
  rewrite year_in_ns_bounds by lia.
  rewrite (IH Hrest).
  change (expected_date r) with (ymd_to_ordinal (Year r) 1 1 + (Day r - 1)).
  rewrite jan1_ordinal. do 2 f_equal. lia.
Qed.

Lemma combine_map (A B : Type) (f : A -> B) l :
  combine l (map f l) = map (fun x => (x, f x)) l.
Proof. induction l as [ | x l IH]; simpl; [reflexivity | now rewrite IH]. Qed.

(** C2 as stated fails: the year 202 and the day 11 are written "20211",
    which is read as day 1 of the year 2021. *)
Lemma C2_short_year_misread :
  exists d,
    return_output_df [("soil", [Row 202 11 tt])] "soil" None None
    = Some [(Row 202 11 tt, d)] /\
    ordinal_year_day d = (2021, 1) /\
    d <> expected_date (Row 202 11 tt).
Proof.
  eexists. split; [vm_compute; reflexivity | ]. split; [reflexivity | ].
  vm_compute. discriminate.
Qed.

(** C2 amended. For a table whose years lie in 1678 to 2261 (four digits,
    as [%Y] reads them back, and within a nanosecond timestamp) and whose
    days lie in 1 to 365, the operation returns the rows, each with the
    date January 1st of its year plus [Day - 1] days, whose date lies
    between the bounds, both included; the year and the day of the year of
    that date are the row's [Year] and [Day]; with both bounds equal to [d]
    the rows returned are those whose date is [d]. *)
Theorem C2_date_filter (A : Type) (dataframes : list (string * list (row A)))
  (column : string) (df_ : list (row A)) (min_date max_date : option Z) :
  frame dataframes column = Some df_ ->
  Forall (fun r => 1678 <= Year r <= 2261 /\ 1 <= Day r <= 365) df_ ->
  return_output_df dataframes column min_date max_date
  = Some (filter (in_range (bound min_date default_min_date)
                           (bound max_date default_max_date))
                 (map (fun r => (r, expected_date r)) df_)) /\
  (forall r, In r df_ -> ordinal_year_day (expected_date r) = (Year r, Day r)) /\
  (forall d, min_date = Some d -> max_date = Some d ->
             return_output_df dataframes column min_date max_date
             = Some (filter (fun rd => snd rd =? d)
                            (map (fun r => (r, expected_date r)) df_))).
Proof.
  intros Hframe Hrows.
  assert (Hrun : return_output_df dataframes column min_date max_date
                 = Some (filter (in_range (bound min_date default_min_date)
                                          (bound max_date default_max_date))
                                (map (fun r => (r, expected_date r)) df_))).
  { unfold return_output_df. rewrite Hframe, (to_datetime_rows A df_ Hrows).
    now rewrite combine_map. }
  split; [exact Hrun | split].
  - intros r Hr. rewrite Forall_forall in Hrows. destruct (Hrows r Hr) as (Hy & Hj).
    unfold expected_date. rewrite jan1_ordinal.
    replace (days_before_year (Year r) + 1 + (Day r - 1))
      with (days_before_year (Year r) + Day r) by lia.
    apply ordinal_year_day_inverse; lia.
  - intros d -> ->. rewrite Hrun. f_equal. apply filter_ext.
    intros [r x]. unfold in_range. simpl. lia.
Qed.

Lemma C2_date_filter_witness :
  return_output_df
    [("soil", [Row 2020 152 tt; Row 2020 153 tt; Row 2020 154 tt])] "soil"
    (Some (ymd_to_ordinal 2020 6 1)) (Some (ymd_to_ordinal 2020 6 1))
  = Some [(Row 2020 153 tt, ymd_to_ordinal 2020 6 1)].
Proof.
  assert (Hrows : Forall (fun r : row unit =>
                            1678 <= Year r <= 2261 /\ 1 <= Day r <= 365)
                         [Row 2020 152 tt; Row 2020 153 tt; Row 2020 154 tt])
    by (repeat constructor; simpl; lia).
  destruct (C2_date_filter unit
              [("soil", [Row 2020 152 tt; Row 2020 153 tt; Row 2020 154 tt])] "soil"
              [Row 2020 152 tt; Row 2020 153 tt; Row 2020 154 tt]
              (Some (ymd_to_ordinal 2020 6 1)) (Some (ymd_to_ordinal 2020 6 1))
              eq_refl Hrows) as (_ & _ & Hsame).
  rewrite (Hsame _ eq_refl eq_refl). reflexivity.
Defined.

Close Scope Z_scope.

(* ================================================================== *)
(** * Binary64 arithmetic: how far a result lies from the exact one *)
(* ================================================================== *)

(** The operations of the fraction sliders are additions, subtractions and
    a division by three.  Each is the exact result, rounded; below, the
    rounding of a result under [2^K] is shown to move it by at most
    [2^(K-52)], from the definition of the operations in [SpecFloat].
    Quantities are whole numbers of units of [2^-1074]. *)

Open Scope Z_scope.

(** ** Powers of two and digits *)

Lemma pow2_pos e : -1074 <= e -> 0 < pow2 e.
Proof. intros H. unfold pow2. apply Z.pow_pos_nonneg; lia. Qed.

Lemma pow2_add e n : -1074 <= e -> 0 <= n -> pow2 (e + n) = 2 ^ n * pow2 e.
Proof.
  intros He Hn. unfold pow2. replace (e + n + 1074) with (n + (e + 1074)) by lia.
  apply Z.pow_add_r; lia.
Qed.

Lemma pow2_le e e' : -1074 <= e <= e' -> pow2 e <= pow2 e'.
Proof. intros H. unfold pow2. apply Z.pow_le_mono_r; lia. Qed.

Lemma pow2_lt e e' : -1074 <= e < e' -> pow2 e < pow2 e'.
Proof. intros H. unfold pow2. apply Z.pow_lt_mono_r; lia. Qed.

Lemma digits2_bounds m :
  2 ^ (Zpos (digits2_pos m) - 1) <= Zpos m < 2 ^ Zpos (digits2_pos m).
Proof.
  induction m as [m IH | m IH | ]; cbn [digits2_pos].
  - rewrite Pos2Z.inj_succ, Pos2Z.inj_xI.
    replace (Z.succ (Zpos (digits2_pos m)) - 1) with (Z.succ (Zpos (digits2_pos m) - 1)) by lia.
    rewrite !Z.pow_succ_r by lia.
    destruct IH as [IH1 IH2]. revert IH1 IH2.
    generalize (2 ^ (Z.pos (digits2_pos m) - 1)), (2 ^ Z.pos (digits2_pos m)).
    intros a b H1 H2. lia.
  - rewrite Pos2Z.inj_succ. change (Zpos m~0) with (2 * Zpos m).
    replace (Z.succ (Zpos (digits2_pos m)) - 1) with (Z.succ (Zpos (digits2_pos m) - 1)) by lia.
    rewrite !Z.pow_succ_r by lia.
    destruct IH as [IH1 IH2]. revert IH1 IH2.
    generalize (2 ^ (Z.pos (digits2_pos m) - 1)), (2 ^ Z.pos (digits2_pos m)).
    intros a b H1 H2. lia.
  - simpl. lia.
Qed.

(** A number below [2^k] has at most [k] digits. *)
Lemma digits2_le m k : 0 <= k -> Zpos m < 2 ^ k -> Zpos (digits2_pos m) <= k.
Proof.
  intros Hk Hm. destruct (digits2_bounds m) as [Hlo _].
  destruct (Z.le_gt_cases (Zpos (digits2_pos m)) k) as [H | H]; [exact H | ].
  assert (2 ^ k <= 2 ^ (Zpos (digits2_pos m) - 1)) by (apply Z.pow_le_mono_r; lia).
  lia.
Qed.

Lemma Zdigits2_le m k : 0 <= m -> 0 <= k -> m < 2 ^ k -> Zdigits2 m <= k.
Proof.
  intros Hm Hk H. destruct m as [ | p | p]; simpl; [lia | | lia].
  now apply digits2_le.
Qed.

Lemma shr_1_m mrs : 0 <= shr_m mrs -> shr_m (shr_1 mrs) = shr_m mrs / 2.
Proof.
  destruct mrs as [m r s]. simpl. intros Hm.
  destruct m as [ | p | p]; [reflexivity | | lia].
  destruct p as [p | p | ]; simpl.
  - rewrite Pos2Z.inj_xI. apply (Z.div_unique _ _ _ 1); lia.
  - change (Zpos p~0) with (2 * Zpos p). apply (Z.div_unique _ _ _ 0); lia.
  - reflexivity.
Qed.

Lemma iter_shr_1_m : forall p mrs,
  0 <= shr_m mrs ->
  shr_m (iter_pos shr_1 p mrs) = shr_m mrs / 2 ^ Zpos p.
Proof.
  assert (Hnn : forall m k, 0 <= m -> 0 <= m / 2 ^ Zpos k).
  { intros m k Hm. apply Z.div_pos; [lia | apply Z.pow_pos_nonneg; lia]. }
  assert (Hpp : forall k, 0 < 2 ^ Zpos k) by (intros k; apply Z.pow_pos_nonneg; lia).
  induction p as [p IH | p IH | ]; intros mrs Hm; cbn [iter_pos].
  - pose proof (shr_1_m mrs Hm) as H1.
    assert (Hm1 : 0 <= shr_m (shr_1 mrs)) by (rewrite H1; apply Z.div_pos; lia).
    pose proof (IH _ Hm1) as H2.
    assert (Hm2 : 0 <= shr_m (iter_pos shr_1 p (shr_1 mrs)))
      by (rewrite H2; now apply Hnn).
    rewrite (IH _ Hm2), H2, H1.
    rewrite !Z.div_div by (try apply Hpp; lia).
    f_equal. rewrite Pos2Z.inj_xI, <- Z.pow_add_r by lia.
    replace (2 * Z.pos p + 1) with (Z.succ (Z.pos p + Z.pos p)) by lia.
    rewrite Z.pow_succ_r by lia. reflexivity.
  - pose proof (IH _ Hm) as H2.
    assert (Hm2 : 0 <= shr_m (iter_pos shr_1 p mrs)) by (rewrite H2; now apply Hnn).
    rewrite (IH _ Hm2), H2.
    rewrite !Z.div_div by (try apply Hpp; lia).
    f_equal. change (Zpos p~0) with (2 * Zpos p). rewrite <- Z.pow_add_r by lia.
    f_equal. lia.
  - rewrite shr_1_m by assumption. reflexivity.
Qed.

Lemma shr_value mrs e n :
  0 <= shr_m mrs ->
  shr_m (fst (shr mrs e n)) = shr_m mrs / 2 ^ Z.max n 0 /\
  snd (shr mrs e n) = e + Z.max n 0.
Proof.
  intros Hm. destruct n as [ | p | p]; simpl.
  - rewrite Z.div_1_r. split; [reflexivity | lia].
  - rewrite iter_shr_1_m by assumption. split; reflexivity.
  - rewrite Z.div_1_r. split; [reflexivity | lia].
Qed.

Lemma shr_record_of_loc_m m l : shr_m (shr_record_of_loc m l) = m.
Proof. destruct l as [ | [ | | ]]; reflexivity. Qed.

Lemma round_nearest_even_bounds m l :
  m <= round_nearest_even m l <= m + 1.
Proof.
  unfold round_nearest_even. destruct l as [ | [ | | ]]; try lia.
  destruct (Z.even m); lia.
Qed.

(** ** Rounding *)

Lemma fexp_value z : fexp prec emax z = Z.max (z - 53) (-1074).
Proof. reflexivity. Qed.

Lemma div_pow_bounds m n :
  0 <= m -> 0 <= n ->
  2 ^ n * (m / 2 ^ n) <= m < 2 ^ n * (m / 2 ^ n + 1).
Proof.
  intros Hm Hn. assert (Hp : 0 < 2 ^ n) by (apply Z.pow_pos_nonneg; lia).
  split.
  - apply Z.mul_div_le. exact Hp.
  - rewrite Z.mul_add_distr_l, Z.mul_1_r.
    pose proof (Z.mod_pos_bound m (2 ^ n) Hp) as Hmod.
    pose proof (Z.div_mod m (2 ^ n) ltac:(lia)) as Hdm. lia.
Qed.

(** The two shifts and the rounding in between land within one unit of
    the last place of the binade below [2^K]. *)
Lemma round_aux_bound sx mx ex lx K :
  0 <= mx -> -1074 <= ex <= K - 52 -> K - 52 <= 971 ->
  (mx + 1) * pow2 ex <= pow2 K ->
  exists V,
    0 <= V /\
    sf_units (binary_round_aux prec emax sx mx ex lx) = cond_Zopp sx V /\
    sf_finite (binary_round_aux prec emax sx mx ex lx) = true /\
    V <= mx * pow2 ex + pow2 (K - 52) /\
    (mx + 1) * pow2 ex <= V + pow2 (K - 52).
Proof.
  intros Hmx Hex HK Hbound.
  assert (Hu : 0 < pow2 ex) by (apply pow2_pos; lia).
  assert (HuK : pow2 K = 2 ^ (K - ex) * pow2 ex).
  { replace K with (ex + (K - ex)) at 1 by lia. apply pow2_add; lia. }
  assert (Hlt : mx + 1 <= 2 ^ (K - ex)).
  { rewrite HuK in Hbound. apply Z.mul_le_mono_pos_r in Hbound; assumption. }
  unfold binary_round_aux, shr_fexp.
  (* the first shift *)
  set (n1 := fexp prec emax (Zdigits2 mx + ex) - ex).
  assert (Hn1 : ex + Z.max n1 0 <= K - 52).
  { unfold n1. rewrite fexp_value.
    assert (Zdigits2 mx <= K - ex) by (apply Zdigits2_le; lia). lia. }
  pose proof (shr_value (shr_record_of_loc mx lx) ex n1) as Hs1.
  rewrite shr_record_of_loc_m in Hs1. specialize (Hs1 Hmx).
  destruct (shr (shr_record_of_loc mx lx) ex n1) as [mrs1 e1].
  simpl fst in Hs1. simpl snd in Hs1. destruct Hs1 as [Hm1 He1].
  set (P1 := 2 ^ Z.max n1 0) in *.
  assert (HP1 : 0 < P1) by (apply Z.pow_pos_nonneg; lia).
  pose proof (div_pow_bounds mx (Z.max n1 0) Hmx ltac:(lia)) as Hd1.
  fold P1 in Hd1. rewrite <- Hm1 in Hd1.
  assert (Hm1nn : 0 <= shr_m mrs1) by (rewrite Hm1; apply Z.div_pos; lia).
  assert (Hue1 : pow2 e1 = P1 * pow2 ex) by (rewrite He1; apply pow2_add; lia).
  (* the rounding *)
  pose proof (round_nearest_even_bounds (shr_m mrs1) (loc_of_shr_record mrs1)) as Hr.
  set (m1' := round_nearest_even (shr_m mrs1) (loc_of_shr_record mrs1)) in *.
  assert (Hm1lt : shr_m mrs1 + 1 <= 2 ^ (K - e1)).
  { assert (H2 : 2 ^ (K - ex) = 2 ^ (K - e1) * P1).
    { unfold P1. rewrite <- Z.pow_add_r by lia. f_equal. lia. }
    rewrite H2 in Hlt.
    assert (shr_m mrs1 * P1 < 2 ^ (K - e1) * P1) by lia.
    apply Z.mul_lt_mono_pos_r in H; lia. }
  (* the second shift *)
  set (n2 := fexp prec emax (Zdigits2 m1' + e1) - e1).
  assert (Hn2 : e1 + Z.max n2 0 <= K - 52).
  { unfold n2. rewrite fexp_value.
    assert (Zdigits2 m1' <= K - e1 + 1).
    { apply Zdigits2_le; [lia | lia | ].
      rewrite Z.pow_add_r by lia. change (2 ^ 1) with 2. lia. }
    lia. }
  pose proof (shr_value (shr_record_of_loc m1' loc_Exact) e1 n2) as Hs2.
  rewrite shr_record_of_loc_m in Hs2. specialize (Hs2 ltac:(lia)).
  destruct (shr (shr_record_of_loc m1' loc_Exact) e1 n2) as [mrs2 e2].
  simpl fst in Hs2. simpl snd in Hs2. destruct Hs2 as [Hm2 He2].
  set (P2 := 2 ^ Z.max n2 0) in *.
  assert (HP2 : 0 < P2) by (apply Z.pow_pos_nonneg; lia).
  pose proof (div_pow_bounds m1' (Z.max n2 0) ltac:(lia) ltac:(lia)) as Hd2.
  fold P2 in Hd2. rewrite <- Hm2 in Hd2.
  assert (Hm2nn : 0 <= shr_m mrs2) by (rewrite Hm2; apply Z.div_pos; lia).
  assert (Hue2 : pow2 e2 = P2 * pow2 e1) by (rewrite He2; apply pow2_add; lia).
  assert (HuF1 : pow2 e1 <= pow2 (K - 52)) by (apply pow2_le; lia).
  assert (HuF2 : pow2 e2 <= pow2 (K - 52)) by (apply pow2_le; lia).
  exists (shr_m mrs2 * pow2 e2).
  assert (Hup : shr_m mrs2 * pow2 e2 <= mx * pow2 ex + pow2 (K - 52)).
  { rewrite Hue2, Hue1 in *.
    assert (shr_m mrs2 * (P2 * (P1 * pow2 ex)) = (P2 * shr_m mrs2) * (P1 * pow2 ex)) as -> by ring.
    assert ((P2 * shr_m mrs2) * (P1 * pow2 ex) <= m1' * (P1 * pow2 ex))
      by (apply Z.mul_le_mono_nonneg_r; lia).
    assert (m1' * (P1 * pow2 ex) <= (shr_m mrs1 + 1) * (P1 * pow2 ex))
      by (apply Z.mul_le_mono_nonneg_r; lia).
    assert ((P1 * shr_m mrs1) * pow2 ex <= mx * pow2 ex)
      by (apply Z.mul_le_mono_nonneg_r; lia).
    lia. }
  assert (Hlo : (mx + 1) * pow2 ex <= shr_m mrs2 * pow2 e2 + pow2 (K - 52)).
  { rewrite Hue2, Hue1 in *.
    assert ((mx + 1) * pow2 ex <= (P1 * (shr_m mrs1 + 1)) * pow2 ex)
      by (apply Z.mul_le_mono_nonneg_r; lia).
    assert ((shr_m mrs1 + 1) * (P1 * pow2 ex) <= (m1' + 1) * (P1 * pow2 ex))
      by (apply Z.mul_le_mono_nonneg_r; lia).
    assert ((m1' + 1) * (P1 * pow2 ex) <= (P2 * (shr_m mrs2 + 1)) * (P1 * pow2 ex))
      by (apply Z.mul_le_mono_nonneg_r; lia).
    lia. }
  split; [apply Z.mul_nonneg_nonneg; lia | ].
  destruct (shr_m mrs2) as [ | m | m] eqn:Em.
  - simpl. split; [now destruct sx | ]. split; [reflexivity | ]. split; assumption.
  - replace (e2 <=? emax - prec) with true
      by (symmetry; apply Z.leb_le; change (emax - prec) with 971; lia).
    simpl. split; [reflexivity | ]. split; [reflexivity | ]. split; assumption.
  - lia.
Qed.

Lemma iter_xO_value : forall d m, Zpos (Pos.iter xO m d) = Zpos m * 2 ^ Zpos d.
Proof.
  intros d m. induction d as [ | d IH] using Pos.peano_ind.
  - simpl. lia.
  - rewrite Pos.iter_succ, Pos2Z.inj_succ, Z.pow_succ_r by lia.
    change (Zpos (Pos.iter xO m d)~0) with (2 * Zpos (Pos.iter xO m d)).
    rewrite IH. ring.
Qed.

(** Aligning a mantissa to a lower exponent keeps the value. *)
Lemma shl_align_value m e e' :
  -1074 <= e' ->
  let r := shl_align m e e' in
  Zpos (fst r) * pow2 (snd r) = Zpos m * pow2 e /\
  snd r = Z.min e e' /\
  Zpos (fst r) = Zpos m * 2 ^ (e - Z.min e e').
Proof.
  intros He'. unfold shl_align.
  destruct (e' - e) as [ | d | d] eqn:Ed; cbn [fst snd].
  - replace (Z.min e e') with e by lia. rewrite Z.sub_diag, Z.mul_1_r. auto.
  - replace (Z.min e e') with e by lia. rewrite Z.sub_diag, Z.mul_1_r. auto.
  - replace (Z.min e e') with e' by lia.
    rewrite iter_xO_value. replace (e - e') with (Zpos d) by lia.
    split; [ | split; reflexivity].
    replace e with (e' + Zpos d) by lia. rewrite pow2_add by lia. ring.
Qed.

Lemma cond_Zopp_abs s V : 0 <= V -> Z.abs (cond_Zopp s V) = V.
Proof. destruct s; simpl; lia. Qed.

(** Rounding an integer multiple of [pow2 e]. *)
Lemma normalize_bound M e K :
  -1074 <= e <= K - 52 -> K - 52 <= 971 ->
  (Z.abs M + 1) * pow2 e <= pow2 K ->
  sf_finite (binary_normalize prec emax M e false) = true /\
  Z.abs (sf_units (binary_normalize prec emax M e false) - M * pow2 e) <= pow2 (K - 52).
Proof.
  intros He HK Hbound.
  assert (Hu : 0 < pow2 e) by (apply pow2_pos; lia).
  assert (HuF : 0 < pow2 (K - 52)) by (apply pow2_pos; lia).
  assert (Hpos : forall s m, Zpos m = Z.abs M -> M = cond_Zopp s (Zpos m) ->
            sf_finite (binary_round prec emax s m e) = true /\
            Z.abs (sf_units (binary_round prec emax s m e) - M * pow2 e) <= pow2 (K - 52)).
  { intros s m Hm HM. unfold binary_round.
    pose proof (shl_align_value m e (fexp prec emax (Zpos (digits2_pos m) + e))) as Hal.
    rewrite fexp_value in *. specialize (Hal ltac:(lia)).
    destruct (shl_align m e _) as [mz ez]. simpl fst in Hal. simpl snd in Hal.
    destruct Hal as (Hval & Hez & _).
    assert (Huez : pow2 ez <= pow2 e) by (apply pow2_le; lia).
    assert (Huez' : 0 < pow2 ez) by (apply pow2_pos; lia).
    destruct (round_aux_bound s (Zpos mz) ez loc_Exact K) as (V & HV & Hv & Hfin & Hup & Hlo);
      [lia | lia | lia | | ].
    { rewrite Z.mul_add_distr_r, Hval, Hm. lia. }
    split; [exact Hfin | ].
    rewrite Hv, HM.
    destruct s; unfold cond_Zopp; lia. }
  destruct M as [ | m | m]; cbn [binary_normalize].
  - split; [reflexivity | simpl; lia].
  - apply Hpos; reflexivity.
  - apply Hpos; reflexivity.
Qed.

(** ** Valid numbers *)

Lemma valid_exponent s m e :
  valid_binary (S754_finite s m e) = true ->
  -1074 <= e <= 971 /\ Zpos (digits2_pos m) <= 53 /\
  (-1074 < e -> Zpos (digits2_pos m) = 53).
Proof.
  simpl. unfold bounded, canonical_mantissa. rewrite andb_true_iff, fexp_value.
  rewrite Z.eqb_eq, Z.leb_le. change (emax - prec) with 971. lia.
Qed.

(** A valid number below [2^K] has an exponent of at most [K - 52]. *)
Lemma valid_exponent_le s m e K :
  valid_binary (S754_finite s m e) = true ->
  -1022 <= K -> Zpos m * pow2 e <= pow2 K -> e <= K - 52.
Proof.
  intros Hv HK Hle. destruct (valid_exponent _ _ _ Hv) as (He & Hd & Hnorm).
  destruct (Z.eq_dec e (-1074)) as [-> | Hne]; [lia | ].
  specialize (Hnorm ltac:(lia)).
  destruct (digits2_bounds m) as [Hlo _]. rewrite Hnorm in Hlo.
  destruct (Z.le_gt_cases e (K - 52)) as [H | H]; [exact H | ].
  assert (pow2 K < 2 ^ 52 * pow2 e).
  { replace e with (K - 52 + (e - (K - 52))) by lia. rewrite pow2_add by lia.
    replace K with (K - 52 + 52) at 1 by lia. rewrite pow2_add by lia.
    assert (0 < pow2 (K - 52)) by (apply pow2_pos; lia).
    assert (2 <= 2 ^ (e - (K - 52))).
    { change 2 with (2 ^ 1) at 1. apply Z.pow_le_mono_r; lia. }
    nia. }
  assert (2 ^ 52 * pow2 e <= Zpos m * pow2 e).
  { apply Z.mul_le_mono_nonneg_r; [ | exact Hlo].
    assert (0 < pow2 e) by (apply pow2_pos; lia). lia. }
  lia.
Qed.

Lemma value_abs_finite s m e : Z.abs (sf_units (S754_finite s m e)) = Zpos m * pow2 e.
Proof.
  cbn [sf_units]. apply cond_Zopp_abs. apply Z.mul_nonneg_nonneg; [lia | ].
  unfold pow2. apply Z.pow_nonneg. lia.
Qed.

(** ** Addition and subtraction *)

Lemma add_sub_core sx mx ex sy my ey K :
  valid_binary (S754_finite sx mx ex) = true ->
  valid_binary (S754_finite sy my ey) = true ->
  -1021 <= K <= 1023 ->
  Zpos mx * pow2 ex + Zpos my * pow2 ey <= pow2 (K - 1) ->
  let ez := Z.min ex ey in
  let r := binary_normalize prec emax
             (cond_Zopp sx (Zpos (fst (shl_align mx ex ez)))
              + cond_Zopp sy (Zpos (fst (shl_align my ey ez)))) ez false in
  sf_finite r = true /\
  Z.abs (sf_units r - (cond_Zopp sx (Zpos mx * pow2 ex) + cond_Zopp sy (Zpos my * pow2 ey)))
  <= pow2 (K - 52).
Proof.
  intros Vx Vy HK Hsum ez r.
  destruct (valid_exponent _ _ _ Vx) as (Hex & _).
  destruct (valid_exponent _ _ _ Vy) as (Hey & _).
  assert (Hux : 0 < pow2 ex) by (apply pow2_pos; lia).
  assert (Huy : 0 < pow2 ey) by (apply pow2_pos; lia).
  assert (HuK : pow2 (K - 1) < pow2 K) by (apply pow2_lt; lia).
  assert (HuK1 : pow2 (K - 52) <= pow2 (K - 1)) by (apply pow2_le; lia).
  assert (HuK2 : 2 * pow2 (K - 1) = pow2 K).
  { replace K with (K - 1 + 1) at 2 by lia. rewrite pow2_add by lia. reflexivity. }
  assert (Hex' : ex <= K - 52)
    by (apply (valid_exponent_le sx mx ex K Vx); [lia | nia]).
  assert (Hey' : ey <= K - 52)
    by (apply (valid_exponent_le sy my ey K Vy); [lia | nia]).
  pose proof (shl_align_value mx ex ez ltac:(lia)) as (Hvx & Hsx & _).
  pose proof (shl_align_value my ey ez ltac:(lia)) as (Hvy & Hsy & _).
  replace (Z.min ex ez) with ez in Hsx by lia.
  replace (Z.min ey ez) with ez in Hsy by lia.
  rewrite Hsx in Hvx. rewrite Hsy in Hvy.
  set (ax := Zpos (fst (shl_align mx ex ez))) in *.
  set (ay := Zpos (fst (shl_align my ey ez))) in *.
  assert (Huz : 0 < pow2 ez) by (apply pow2_pos; lia).
  assert (Huz' : pow2 ez <= pow2 (K - 52)) by (apply pow2_le; lia).
  assert (HM : (cond_Zopp sx ax + cond_Zopp sy ay) * pow2 ez
               = cond_Zopp sx (Zpos mx * pow2 ex) + cond_Zopp sy (Zpos my * pow2 ey)).
  { rewrite <- Hvx, <- Hvy. destruct sx, sy; unfold cond_Zopp; ring. }
  destruct (normalize_bound (cond_Zopp sx ax + cond_Zopp sy ay) ez K) as (Hfin & Hv);
    [lia | lia | | ].
  { assert (Z.abs (cond_Zopp sx ax + cond_Zopp sy ay) <= ax + ay)
      by (destruct sx, sy; unfold cond_Zopp; lia).
    assert (Z.abs (cond_Zopp sx ax + cond_Zopp sy ay) * pow2 ez <= (ax + ay) * pow2 ez)
      by (apply Z.mul_le_mono_nonneg_r; lia).
    lia. }
  split; [exact Hfin | ]. rewrite <- HM. exact Hv.
Qed.

Lemma pow2_nonneg e : 0 <= pow2 e.
Proof. unfold pow2. apply Z.pow_nonneg. lia. Qed.

Lemma value_finite_pos s m e :
  valid_binary (S754_finite s m e) = true -> 0 < Zpos m * pow2 e.
Proof.
  intros Hv. destruct (valid_exponent _ _ _ Hv) as (He & _).
  apply Z.mul_pos_pos; [lia | apply pow2_pos; lia].
Qed.

Lemma SFadd_bound x y K :
  valid_binary x = true -> valid_binary y = true ->
  sf_finite x = true -> sf_finite y = true ->
  -1021 <= K <= 1023 ->
  Z.abs (sf_units x) + Z.abs (sf_units y) <= pow2 (K - 1) ->
  sf_finite (SF64add x y) = true /\
  Z.abs (sf_units (SF64add x y) - (sf_units x + sf_units y)) <= pow2 (K - 52).
Proof.
  intros Vx Vy Fx Fy HK Hsum. pose proof (pow2_nonneg (K - 52)) as HF.
  destruct x as [sx | sx | | sx mx ex]; try discriminate;
    destruct y as [sy | sy | | sy my ey]; try discriminate.
  - split; [destruct sx, sy; reflexivity | destruct sx, sy; simpl; lia].
  - split; [reflexivity | ]. cbn [SF64add SFadd].
    replace (sf_units (S754_finite sy my ey)
             - (sf_units (S754_zero sx) + sf_units (S754_finite sy my ey)))
      with 0 by (cbn [sf_units]; lia). simpl; lia.
  - split; [reflexivity | ]. cbn [SF64add SFadd].
    replace (sf_units (S754_finite sx mx ex)
             - (sf_units (S754_finite sx mx ex) + sf_units (S754_zero sy)))
      with 0 by (cbn [sf_units]; lia). simpl; lia.
  - rewrite !value_abs_finite in Hsum.
    apply (add_sub_core sx mx ex sy my ey K Vx Vy HK Hsum).
Qed.

Lemma cond_Zopp_negb s z : cond_Zopp (negb s) z = - cond_Zopp s z.
Proof. destruct s; simpl; lia. Qed.

Lemma SFsub_bound x y K :
  valid_binary x = true -> valid_binary y = true ->
  sf_finite x = true -> sf_finite y = true ->
  -1021 <= K <= 1023 ->
  Z.abs (sf_units x) + Z.abs (sf_units y) <= pow2 (K - 1) ->
  sf_finite (SF64sub x y) = true /\
  Z.abs (sf_units (SF64sub x y) - (sf_units x - sf_units y)) <= pow2 (K - 52).
Proof.
  intros Vx Vy Fx Fy HK Hsum. pose proof (pow2_nonneg (K - 52)) as HF.
  destruct x as [sx | sx | | sx mx ex]; try discriminate;
    destruct y as [sy | sy | | sy my ey]; try discriminate.
  - split; [destruct sx, sy; reflexivity | destruct sx, sy; simpl; lia].
  - split; [reflexivity | ]. cbn [SF64sub SFsub sf_units].
    rewrite cond_Zopp_negb.
    replace (- cond_Zopp sy (Zpos my * pow2 ey) - (0 - cond_Zopp sy (Zpos my * pow2 ey)))
      with 0 by lia. simpl; lia.
  - split; [reflexivity | ]. cbn [SF64sub SFsub].
    replace (sf_units (S754_finite sx mx ex)
             - (sf_units (S754_finite sx mx ex) - sf_units (S754_zero sy)))
      with 0 by (cbn [sf_units]; lia). simpl; lia.
  - rewrite !value_abs_finite in Hsum.
    pose proof (add_sub_core sx mx ex (negb sy) my ey K Vx Vy HK Hsum) as H.
    cbv zeta in H. rewrite !cond_Zopp_negb in H.
    unfold SF64sub, SFsub. cbn [sf_units].
    rewrite <- !Z.add_opp_r. exact H.
Qed.

(** ** Division by three *)

Lemma Prim2SF_three : Prim2SF 3 = sf_three.
Proof. reflexivity. Qed.

Lemma SFdiv3_bound x K :
  valid_binary x = true -> sf_finite x = true ->
  -1021 <= K <= 1023 ->
  Z.abs (sf_units x) <= pow2 K ->
  sf_finite (SF64div x sf_three) = true /\
  Z.abs (3 * sf_units (SF64div x sf_three) - sf_units x) <= 3 * pow2 (K - 52).
Proof.
  intros Vx Fx HK Hle. pose proof (pow2_nonneg (K - 52)) as HF.
  destruct x as [sx | sx | | sx mx ex]; try discriminate.
  - split; [reflexivity | ]. unfold SF64div, SFdiv, sf_three. cbn [sf_units]. lia.
  - rewrite value_abs_finite in Hle.
    destruct (valid_exponent _ _ _ Vx) as (Hex & Hdx & _).
    assert (Hux : 0 < pow2 ex) by (apply pow2_pos; lia).
    unfold SF64div, SFdiv, sf_three, SFdiv_core_binary.
    change (Zdigits2 6755399441055744) with 53. cbn [Zdigits2].
    rewrite fexp_value.
    set (e' := Z.min (Z.max (Zpos (digits2_pos mx) + ex - (53 + -51) - 53) (-1074))
                     (ex - -51)).
    assert (Hd1 : Zpos (digits2_pos mx) + ex <= K + 1).
    { assert (Zpos (digits2_pos mx) <= K - ex + 1); [ | lia].
      assert (Hex' : ex <= K - 52)
        by (apply (valid_exponent_le sx mx ex K Vx); lia).
      apply digits2_le; [lia | ].
      assert (pow2 K = 2 ^ (K - ex) * pow2 ex).
      { replace K with (ex + (K - ex)) at 1 by lia. apply pow2_add; lia. }
      assert (Zpos mx <= 2 ^ (K - ex)).
      { rewrite H in Hle. apply Z.mul_le_mono_pos_r in Hle; assumption. }
      rewrite Z.pow_add_r by lia. change (2 ^ 1) with 2.
      assert (0 < 2 ^ (K - ex)) by (apply Z.pow_pos_nonneg; lia). lia. }
    assert (He' : -1074 <= e' <= K - 52) by (unfold e'; lia).
    assert (Hs : 0 <= ex - -51 - e') by (unfold e'; lia).
    set (m' := match ex - -51 - e' with
               | 0 => Zpos mx
               | Zpos _ => Z.shiftl (Zpos mx) (ex - -51 - e')
               | Zneg _ => 0
               end).
    assert (Hm' : m' = Zpos mx * 2 ^ (ex - -51 - e')).
    { unfold m'. destruct (ex - -51 - e') as [ | p | p] eqn:E.
      - simpl. lia.
      - rewrite Z.shiftl_mul_pow2 by lia. reflexivity.
      - lia. }
    assert (Hue' : 0 < pow2 e') by (apply pow2_pos; lia).
    assert (Hval : m' * pow2 e' = Zpos mx * pow2 ex * 2 ^ 51).
    { rewrite Hm'.
      assert (pow2 (ex + 51) = 2 ^ (ex - -51 - e') * pow2 e').
      { replace (ex + 51) with (e' + (ex - -51 - e')) by lia. apply pow2_add; lia. }
      assert (pow2 (ex + 51) = 2 ^ 51 * pow2 ex) by (apply pow2_add; lia).
      lia. }
    pose proof (Z_div_mod m' 6755399441055744 ltac:(lia)) as Hdm.
    destruct (Z.div_eucl m' 6755399441055744) as [q r].
    change 6755399441055744 with (3 * 2 ^ 51) in Hdm.
    destruct Hdm as [Hdm Hr].
    assert (Hq : 0 <= q).
    { assert (0 <= m') by (rewrite Hm'; apply Z.mul_nonneg_nonneg; [lia | apply Z.pow_nonneg; lia]).
      destruct (Z.le_gt_cases 0 q); [assumption | ].
      assert (3 * 2 ^ 51 * q <= 3 * 2 ^ 51 * (-1)) by (apply Z.mul_le_mono_nonneg_l; lia).
      lia. }
    assert (Hlow : 3 * (q * pow2 e') <= Zpos mx * pow2 ex).
    { assert (3 * 2 ^ 51 * q * pow2 e' <= m' * pow2 e')
        by (apply Z.mul_le_mono_nonneg_r; lia).
      lia. }
    assert (Hhigh : Zpos mx * pow2 ex < 3 * ((q + 1) * pow2 e')).
    { assert (m' * pow2 e' < (3 * 2 ^ 51 * (q + 1)) * pow2 e')
        by (apply Z.mul_lt_mono_pos_r; lia).
      lia. }
    assert (HuF : pow2 e' <= pow2 (K - 52)) by (apply pow2_le; lia).
    assert (HuK : pow2 K = 2 ^ 52 * pow2 (K - 52)).
    { replace K with (K - 52 + 52) at 1 by lia. apply pow2_add; lia. }
    match goal with
    | |- context [binary_round_aux _ _ ?s ?m ?e ?l] =>
        destruct (round_aux_bound s m e l K)
          as (V & HV & Hv & Hfin & Hup & Hlo); [lia | lia | lia | lia | ]
    end.
    split; [exact Hfin | ].
    rewrite Hv. cbn [sf_units]. rewrite xorb_false_r.
    destruct sx; unfold cond_Zopp; lia.
Qed.

(** ** Order *)

Lemma exponent_order m1 e1 m2 e2 s1 s2 :
  valid_binary (S754_finite s1 m1 e1) = true ->
  valid_binary (S754_finite s2 m2 e2) = true ->
  e1 < e2 -> Zpos m1 * pow2 e1 < Zpos m2 * pow2 e2.
Proof.
  intros V1 V2 Hlt.
  destruct (valid_exponent _ _ _ V1) as (He1 & Hd1 & _).
  destruct (valid_exponent _ _ _ V2) as (He2 & _ & Hn2).
  specialize (Hn2 ltac:(lia)).
  destruct (digits2_bounds m1) as [_ Hhi]. destruct (digits2_bounds m2) as [Hlo _].
  rewrite Hn2 in Hlo. change (2 ^ (53 - 1)) with (2 ^ 52) in Hlo.
  assert (Zpos m1 < 2 ^ 53).
  { assert (2 ^ Zpos (digits2_pos m1) <= 2 ^ 53) by (apply Z.pow_le_mono_r; lia). lia. }
  assert (Hu1 : 0 < pow2 e1) by (apply pow2_pos; lia).
  assert (Hu : pow2 e2 = 2 ^ (e2 - e1) * pow2 e1).
  { replace e2 with (e1 + (e2 - e1)) at 1 by lia. apply pow2_add; lia. }
  assert (2 <= 2 ^ (e2 - e1)).
  { change 2 with (2 ^ 1) at 1. apply Z.pow_le_mono_r; lia. }
  rewrite Hu.
  assert (Zpos m1 * pow2 e1 < 2 ^ 53 * pow2 e1) by (apply Z.mul_lt_mono_pos_r; lia).
  assert (2 ^ 53 * pow2 e1 <= (Zpos m2 * 2 ^ (e2 - e1)) * pow2 e1).
  { apply Z.mul_le_mono_nonneg_r; [lia | ].
    change (2 ^ 53) with (2 ^ 52 * 2). apply Z.mul_le_mono_nonneg; lia. }
  lia.
Qed.

Lemma magnitude_compare m1 e1 m2 e2 s1 s2 :
  valid_binary (S754_finite s1 m1 e1) = true ->
  valid_binary (S754_finite s2 m2 e2) = true ->
  match e1 ?= e2 with
  | Lt => Lt
  | Gt => Gt
  | Eq => Pos.compare_cont Eq m1 m2
  end = (Zpos m1 * pow2 e1 ?= Zpos m2 * pow2 e2).
Proof.
  intros V1 V2. destruct (Z.compare_spec e1 e2) as [-> | Hlt | Hgt].
  - destruct (valid_exponent _ _ _ V2) as (He & _).
    assert (0 < pow2 e2) by (apply pow2_pos; lia).
    change (Pos.compare_cont Eq m1 m2) with (Zpos m1 ?= Zpos m2).
    destruct (Z.compare_spec (Zpos m1) (Zpos m2)) as [E | E | E]; symmetry.
    + apply Z.compare_eq_iff. now rewrite E.
    + apply Z.compare_lt_iff. apply Z.mul_lt_mono_pos_r; assumption.
    + apply Z.compare_gt_iff. apply Z.mul_lt_mono_pos_r; assumption.
  - symmetry. apply Z.compare_lt_iff. eapply exponent_order; eauto.
  - symmetry. apply Z.compare_gt_iff. eapply exponent_order; eauto.
Qed.

Lemma SFcompare_value x y :
  valid_binary x = true -> valid_binary y = true ->
  sf_finite x = true -> sf_finite y = true ->
  SFcompare x y = Some (sf_units x ?= sf_units y).
Proof.
  intros Vx Vy Fx Fy.
  destruct x as [sx | sx | | sx mx ex]; try discriminate;
    destruct y as [sy | sy | | sy my ey]; try discriminate.
  - reflexivity.
  - pose proof (value_finite_pos _ _ _ Vy) as Hy. cbn [SFcompare sf_units].
    f_equal. symmetry. destruct sy; unfold cond_Zopp.
    + apply Z.compare_gt_iff. lia.
    + apply Z.compare_lt_iff. lia.
  - pose proof (value_finite_pos _ _ _ Vx) as Hx. cbn [SFcompare sf_units].
    f_equal. symmetry. destruct sx; unfold cond_Zopp.
    + apply Z.compare_lt_iff. lia.
    + apply Z.compare_gt_iff. lia.
  - pose proof (value_finite_pos _ _ _ Vx) as Hx.
    pose proof (value_finite_pos _ _ _ Vy) as Hy.
    pose proof (magnitude_compare mx ex my ey sx sy Vx Vy) as Hc.
    cbn [SFcompare sf_units]. f_equal.
    destruct sx, sy; unfold cond_Zopp.
    + rewrite Z.compare_opp, (Z.compare_antisym (Zpos mx * pow2 ex)), <- Hc.
      destruct (ex ?= ey); reflexivity.
    + symmetry. apply Z.compare_lt_iff. lia.
    + symmetry. apply Z.compare_gt_iff. lia.
    + exact Hc.
Qed.

(** ** The primitive operations

    [add_spec], [sub_spec], [div_spec] and the like tie the primitive
    numbers to the operations bounded above. *)

Lemma add_units x y K :
  finite x = true -> finite y = true -> -1021 <= K <= 1023 ->
  Z.abs (units x) + Z.abs (units y) <= pow2 (K - 1) ->
  finite (x + y) = true /\
  Z.abs (units (x + y) - (units x + units y)) <= pow2 (K - 52).
Proof.
  unfold finite, units. rewrite add_spec. intros Fx Fy.
  apply SFadd_bound; auto using Prim2SF_valid.
Qed.

Lemma sub_units x y K :
  finite x = true -> finite y = true -> -1021 <= K <= 1023 ->
  Z.abs (units x) + Z.abs (units y) <= pow2 (K - 1) ->
  finite (x - y) = true /\
  Z.abs (units (x - y) - (units x - units y)) <= pow2 (K - 52).
Proof.
  unfold finite, units. rewrite sub_spec. intros Fx Fy.
  apply SFsub_bound; auto using Prim2SF_valid.
Qed.

Lemma div3_units x K :
  finite x = true -> -1021 <= K <= 1023 ->
  Z.abs (units x) <= pow2 K ->
  finite (x / 3) = true /\
  Z.abs (3 * units (x / 3) - units x) <= 3 * pow2 (K - 52).
Proof.
  unfold finite, units. rewrite div_spec, Prim2SF_three. intros Fx.
  apply SFdiv3_bound; auto using Prim2SF_valid.
Qed.

Lemma compare_units x y :
  finite x = true -> finite y = true ->
  SFcompare (Prim2SF x) (Prim2SF y) = Some (units x ?= units y).
Proof. intros Fx Fy. apply SFcompare_value; auto using Prim2SF_valid. Qed.

Lemma leb_units x y :
  finite x = true -> finite y = true -> (x <=? y)%float = (units x <=? units y).
Proof.
  intros Fx Fy. rewrite leb_spec. unfold SFleb. rewrite (compare_units x y Fx Fy).
  unfold Z.leb. destruct (units x ?= units y); reflexivity.
Qed.

Lemma eqb_units x y :
  finite y = true -> (x =? y)%float = true -> finite x = true /\ units x = units y.
Proof.
  intros Fy. rewrite eqb_spec. unfold SFeqb. intros H.
  assert (Fx : finite x = true).
  { unfold finite in *. destruct (Prim2SF x) as [ | sx | | ]; try reflexivity;
      destruct (Prim2SF y) as [ | sy | | ]; try discriminate.
    - destruct sx; discriminate.
    - destruct sx; discriminate. }
  split; [exact Fx | ]. rewrite (compare_units x y Fx Fy) in H.
  apply Z.compare_eq_iff. destruct (units x ?= units y); congruence.
Qed.

Lemma slider_range_units x :
  slider_range x = true -> finite x = true /\ 0 <= units x <= pow2 0.
Proof.
  unfold slider_range. rewrite andb_true_iff. intros [H0 H1].
  assert (Fx : finite x = true).
  { rewrite leb_spec in H0, H1. unfold finite.
    change (Prim2SF 0) with (S754_zero false) in H0.
    change (Prim2SF 1) with (S754_finite false 4503599627370496 (-52)) in H1.
    destruct (Prim2SF x) as [ | sx | | ]; try reflexivity; try discriminate.
    destruct sx; discriminate. }
  split; [exact Fx | ].
  rewrite (leb_units 0 x eq_refl Fx) in H0. rewrite (leb_units x 1 Fx eq_refl) in H1.
  apply Z.leb_le in H0, H1. change (units 0) with 0 in H0.
  change (units 1) with (pow2 0) in H1. lia.
Qed.

Lemma sub_self_zero x : finite x = true -> (x - x =? 0)%float = true.
Proof.
  unfold finite. rewrite eqb_spec, sub_spec. intros Fx.
  change (Prim2SF 0) with (S754_zero false).
  destruct (Prim2SF x) as [s | s | | s m e]; try discriminate.
  - destruct s; reflexivity.
  - unfold SF64sub, SFsub. rewrite Z.sub_diag. reflexivity.
Qed.

Lemma abs_units x : finite x = true -> finite (abs x) = true /\ units (abs x) = Z.abs (units x).
Proof.
  unfold finite, units. rewrite abs_spec. intros Fx.
  destruct (Prim2SF x) as [s | s | | s m e] eqn:E; try discriminate.
  - split; reflexivity.
  - split; [reflexivity | ]. rewrite value_abs_finite. reflexivity.
Qed.

Close Scope Z_scope.

(* ================================================================== *)
(** * The crop fractions of [display_widgets] *)
(* ================================================================== *)

Open Scope float_scope.

(** C10 as stated fails: the total of 0.5, 0.25, 0.5, 0.25 is 1.5, neither
    0 nor 1; the rescaled fractions are the binary64 quotients, and they
    add up to 0.99999999999999989. *)
Lemma C10_rescaled_sum_inexact :
  exists f',
    total_frac Sample.fractions = 1.5 /\
    rescale Sample.fractions = Some f' /\
    total_frac f' = 0.99999999999999989 /\
    (total_frac f' =? 1) = false.
Proof. eexists. repeat split; vm_compute; reflexivity. Qed.

(** C10 amended. When the total of the four fractions is neither 0 nor 1,
    each fraction is replaced by its binary64 quotient by the total before
    the sliders are run; when the total is 1 the fractions go to the
    sliders unchanged. *)
Theorem C10_rescale (slider : frac_key -> float -> option float) (f : fracs) :
  ((total_frac f =? 1) = false -> (total_frac f =? 0) = false ->
   rescale f = Some (Fracs (frac_grain f / total_frac f) (frac_leaf f / total_frac f)
                           (frac_root f / total_frac f) (frac_stem f / total_frac f)) /\
   display_fracs slider f
   = for_each (slide slider) frac_keys
       (Fracs (frac_grain f / total_frac f) (frac_leaf f / total_frac f)
              (frac_root f / total_frac f) (frac_stem f / total_frac f))) /\
  ((total_frac f =? 1) = true ->
   rescale f = Some f /\
   display_fracs slider f = for_each (slide slider) frac_keys f).
Proof.
  unfold display_fracs, rescale. split.
  - intros -> ->. split; reflexivity.
  - intros ->. split; reflexivity.
Qed.

Lemma C10_rescale_witness :
  rescale Sample.fractions
  = Some (Fracs (0.5 / 1.5) (0.25 / 1.5) (0.5 / 1.5) (0.25 / 1.5)) /\
  rescale Sample.quarters = Some Sample.quarters.
Proof.
  split.
  - apply (proj1 (C10_rescale Sample.grain_to_half Sample.fractions));
      vm_compute; reflexivity.
  - apply (proj2 (C10_rescale Sample.grain_to_half Sample.quarters));
      vm_compute; reflexivity.
Defined.

(** One slider adjustment in binary64: the fractions 0.25 each add up to
    1; the first slider is moved to 0.5 and the other three fractions are
    lowered by a third of the change; the new fractions add up to
    1.0000000000000002. *)
Lemma slider_adjustment_rounds :
  total_frac Sample.quarters = 1 /\
  display_fracs Sample.grain_to_half Sample.quarters
  = Some (Fracs 0.5 0.16666666666666669 0.16666666666666669 0.16666666666666669) /\
  total_frac (Fracs 0.5 0.16666666666666669 0.16666666666666669 0.16666666666666669)
  = 1.0000000000000002.
Proof. repeat split; vm_compute; reflexivity. Qed.

(** C8 as stated fails: the fractions 1e16, -1e16, 1 and 0 add up to 1 in
    binary64; the last slider is moved to 0.3, a third of the change is
    lost in the two large fractions, and the new fractions add up to
    1.2. *)
Lemma C8_large_fractions_drift :
  total_frac Sample.large_fractions = 1 /\
  display_fracs Sample.stem_to_0_3 Sample.large_fractions
  = Some (Fracs 1e16 (-1e16) 0.9 0.3) /\
  total_frac (Fracs 1e16 (-1e16) 0.9 0.3) = 1.2 /\
  (abs (total_frac (Fracs 1e16 (-1e16) 0.9 0.3) - 1) <=? 1e-13) = false.
Proof. repeat split; vm_compute; reflexivity. Qed.

Open Scope Z_scope.

(** The powers of two of the accounts, in units of the smallest. *)
Lemma pow2_scale :
  pow2 (-48) = 2 * pow2 (-49) /\ pow2 (-45) = 16 * pow2 (-49) /\
  pow2 0 = 562949953421312 * pow2 (-49) /\
  pow2 2 = 4 * pow2 0 /\ pow2 3 = 8 * pow2 0 /\
  0 < pow2 (-49).
Proof. repeat split; reflexivity. Qed.

(** The sum that [total_frac] computes, against the exact sum. *)
Lemma total_units a b c d :
  finite a = true -> finite b = true -> finite c = true -> finite d = true ->
  Z.abs (units a) <= 3 * pow2 (-1) -> Z.abs (units b) <= 3 * pow2 (-1) ->
  Z.abs (units c) <= 3 * pow2 (-1) -> Z.abs (units d) <= 3 * pow2 (-1) ->
  finite (total_frac (Fracs a b c d)) = true /\
  Z.abs (units (total_frac (Fracs a b c d)) - exact_total (Fracs a b c d))
  <= 4 * pow2 (-48).
Proof.
  intros Fa Fb Fc Fd Ha Hb Hc Hd. unfold total_frac, exact_total.
  cbn [frac_grain frac_leaf frac_root frac_stem].
  destruct pow2_scale as (E48 & _ & E0 & _ & E3 & Hw).
  assert (E1 : 2 * pow2 (-1) = pow2 0) by reflexivity.
  change (units 0) with 0 in *.
  destruct (add_units 0 a 4 eq_refl Fa ltac:(lia)) as (F1 & H1).
  { change (units 0) with 0. change (4 - 1) with 3. lia. }
  change (units 0) with 0 in H1.
  destruct (add_units (0 + a) b 4 F1 Fb ltac:(lia)) as (F2 & H2).
  { change (4 - 52) with (-48) in *. change (4 - 1) with 3. lia. }
  destruct (add_units (0 + a + b) c 4 F2 Fc ltac:(lia)) as (F3 & H3).
  { change (4 - 52) with (-48) in *. change (4 - 1) with 3. lia. }
  destruct (add_units (0 + a + b + c) d 4 F3 Fd ltac:(lia)) as (F4 & H4).
  { change (4 - 52) with (-48) in *. change (4 - 1) with 3. lia. }
  change (4 - 52) with (-48) in *.
  split; [exact F4 | lia].
Qed.

Lemma slide_untouched slider f k :
  finite (frac_get k f) = true ->
  slider k (frac_get k f) = Some (frac_get k f) ->
  slide slider f k = Some f.
Proof.
  intros Fk Hk. unfold slide. rewrite Hk, (sub_self_zero _ Fk). simpl.
  destruct f, k; reflexivity.
Qed.

Lemma untouched_loop slider f : forall ks,
  (forall k, In k ks ->
             finite (frac_get k f) = true /\
             slider k (frac_get k f) = Some (frac_get k f)) ->
  for_each (slide slider) ks f = Some f.
Proof.
  induction ks as [ | k ks IH]; intros H; [reflexivity | ].
  rewrite for_each_cons. destruct (H k (or_introl eq_refl)) as (Fk & Hk).
  rewrite (slide_untouched slider f k Fk Hk). apply IH.
  intros k' Hk'. apply H. now right.
Qed.

Lemma slide_moved slider f key v :
  slider key (frac_get key f) = Some v ->
  slide slider f key
  = Some (if (v - frac_get key f =? 0)%float then frac_put key v f
          else moved key v f).
Proof.
  intros Hk. unfold slide, moved. rewrite Hk.
  destruct (v - frac_get key f =? 0)%float; [reflexivity | ].
  destruct f, key; reflexivity.
Qed.

Lemma frac_keys_split key :
  exists before after,
    frac_keys = before ++ key :: after /\
    (forall k, In k before \/ In k after -> k <> key).
Proof.
  destruct key.
  - exists [], [Leaf; Root; Stem]. split; [reflexivity | ].
    intros k [[] | H]; simpl in H; intuition (subst; discriminate).
  - exists [Grain], [Root; Stem]. split; [reflexivity | ].
    intros k [H | H]; simpl in H; intuition (subst; discriminate).
  - exists [Grain; Leaf], [Stem]. split; [reflexivity | ].
    intros k [H | H]; simpl in H; intuition (subst; discriminate).
  - exists [Grain; Leaf; Root], []. split; [reflexivity | ].
    intros k [H | []]; simpl in H; intuition (subst; discriminate).
Qed.

(** The accounts of one turn of the loop in which the slider is moved. *)
Lemma moved_units key v f :
  (forall k, slider_range (frac_get k f) = true) ->
  slider_range v = true ->
  (total_frac f =? 1)%float = true ->
  let f' := if (v - frac_get key f =? 0)%float then frac_put key v f
            else moved key v f in
  (forall k, finite (frac_get k f') = true /\
             Z.abs (units (frac_get k f')) <= 3 * pow2 (-1)) /\
  Z.abs (exact_total f' - units 1) <= pow2 (-45).
Proof.
  intros Hf Hv Hsum.
  destruct pow2_scale as (E48 & E45 & E0 & E2 & E3 & Hw).
  assert (E1 : 2 * pow2 (-1) = pow2 0) by reflexivity.
  change (units 1) with (pow2 0).
  destruct (slider_range_units _ Hv) as (Fv & Rv).
  pose proof (fun k => proj1 (slider_range_units _ (Hf k))) as Ff.
  pose proof (fun k => proj2 (slider_range_units _ (Hf k))) as Rf.
  destruct (eqb_units (total_frac f) 1 eq_refl Hsum) as (_ & HT).
  change (units 1) with (pow2 0) in HT.
  assert (Htot : Z.abs (pow2 0 - exact_total f) <= 4 * pow2 (-48)).
  { rewrite <- HT. destruct f as [a b c d].
    pose proof (Rf Grain). pose proof (Rf Leaf). pose proof (Rf Root). pose proof (Rf Stem).
    cbn [frac_get frac_grain frac_leaf frac_root frac_stem] in *.
    apply total_units; try apply (Ff Grain); try apply (Ff Leaf);
      try apply (Ff Root); try apply (Ff Stem); lia. }
  destruct (sub_units v (frac_get key f) 3 Fv (Ff key) ltac:(lia)) as (Fd & Hd).
  { specialize (Rf key). change (3 - 1) with 2. lia. }
  change (3 - 52) with (-49) in Hd.
  destruct (v - frac_get key f =? 0)%float eqn:Ez; intros f'; subst f'.
  - (* the slider returns the value it has *)
    destruct (eqb_units _ 0 eq_refl Ez) as (_ & Hz). change (units 0) with 0 in Hz.
    rewrite Hz in Hd. split.
    + intros k. pose proof (Rf k). pose proof (Ff k).
      destruct f as [a b c d], key, k;
        cbn [frac_get frac_put frac_grain frac_leaf frac_root frac_stem] in *;
        split; try assumption; lia.
    + pose proof (Rf key). unfold exact_total in *.
      destruct f as [a b c d], key;
        cbn [frac_get frac_put frac_grain frac_leaf frac_root frac_stem] in *; lia.
  - (* the slider is moved *)
    destruct (div3_units (v - frac_get key f) 3 Fd ltac:(lia)) as (Ft & Ht).
    { specialize (Rf key). lia. }
    change (3 - 52) with (-49) in Ht.
    set (t := ((v - frac_get key f) / 3)%float) in *.
    assert (Hsub : forall k, finite (frac_get k f - t) = true /\
                     Z.abs (units (frac_get k f - t) - (units (frac_get k f) - units t))
                     <= pow2 (-49)).
    { intros k. apply (sub_units (frac_get k f) t 3 (Ff k) Ft); [lia | ].
      pose proof (Rf k). pose proof (Rf key). change (3 - 1) with 2. lia. }
    pose proof (Hsub Grain) as (FG & HG). pose proof (Hsub Leaf) as (FL & HL).
    pose proof (Hsub Root) as (FR & HR). pose proof (Hsub Stem) as (FS & HS).
    pose proof (Rf Grain) as RG. pose proof (Rf Leaf) as RL.
    pose proof (Rf Root) as RR. pose proof (Rf Stem) as RS.
    unfold moved, exact_total in *. fold t.
    destruct f as [a b c d].
    cbn [frac_get frac_grain frac_leaf frac_root frac_stem] in *.
    split.
    + intros k.
      destruct key, k; cbn [frac_get frac_key_eqb frac_grain frac_leaf frac_root frac_stem] in *;
        split; try assumption; lia.
    + destruct key; cbn [frac_get frac_key_eqb frac_grain frac_leaf frac_root frac_stem] in *; lia.
Qed.

Lemma tolerance_units : 25 * pow2 (-49) <= units 1e-13.
Proof. apply Z.leb_le. vm_compute. reflexivity. Qed.

(** C8 amended. For four fractions between 0 and 1 whose binary64 total
    is 1, when one slider is moved to a value [v] between 0 and 1 and the
    other three return what they are offered, the fractions written back
    are [v] and, for each of the others, the fraction lowered by a third
    of the change, in binary64 (all four unchanged but for [v] when the
    change is zero); their exact sum differs from 1 by at most [2^-45],
    and their binary64 total by at most 1e-13. *)
Theorem C8_slider_keeps_total slider f key v :
  (total_frac f =? 1)%float = true ->
  (forall k, slider_range (frac_get k f) = true) ->
  slider_range v = true ->
  slider key (frac_get key f) = Some v ->
  (forall k x, k <> key -> slider k x = Some x) ->
  exists f',
    display_fracs slider f = Some f' /\
    f' = (if (v - frac_get key f =? 0)%float then frac_put key v f
          else moved key v f) /\
    Z.abs (exact_total f' - units 1) <= pow2 (-45) /\
    (abs (total_frac f' - 1) <=? 1e-13)%float = true.
Proof.
  intros Hsum Hf Hv Hkey Hothers.
  destruct (moved_units key v f Hf Hv Hsum) as (Hcomp & Hexact).
  set (f1 := if (v - frac_get key f =? 0)%float then frac_put key v f
             else moved key v f) in *.
  exists f1. split; [ | split; [reflexivity | split; [exact Hexact | ]]].
  - unfold display_fracs, rescale. rewrite Hsum. cbn [negb].
    destruct (frac_keys_split key) as (before & after & -> & Hne).
    rewrite for_each_app, (untouched_loop slider f before).
    + rewrite for_each_cons, (slide_moved slider f key v Hkey). fold f1.
      apply untouched_loop. intros k Hk. split; [apply Hcomp | ].
      apply Hothers. apply Hne. now right.
    + intros k Hk. split; [apply (slider_range_units _ (Hf k)) | ].
      apply Hothers. apply Hne. now left.
  - destruct pow2_scale as (E48 & E45 & E0 & E2 & E3 & Hw).
    change (units 1) with (pow2 0) in Hexact.
    pose proof (Hcomp Grain) as (FG & BG). pose proof (Hcomp Leaf) as (FL & BL).
    pose proof (Hcomp Root) as (FR & BR). pose proof (Hcomp Stem) as (FS & BS).
    destruct f1 as [a b c d].
    cbn [frac_get frac_grain frac_leaf frac_root frac_stem] in *.
    destruct (total_units a b c d FG FL FR FS BG BL BR BS) as (FT & HT).
    destruct (sub_units (total_frac (Fracs a b c d)) 1 3 FT eq_refl ltac:(lia))
      as (Fx & Hx).
    { change (units 1) with (pow2 0). change (3 - 1) with 2. lia. }
    change (units 1) with (pow2 0) in Hx. change (3 - 52) with (-49) in Hx.
    destruct (abs_units _ Fx) as (Fa & Ha).
    rewrite (leb_units _ 1e-13 Fa eq_refl), Ha. apply Z.leb_le.
    pose proof tolerance_units. lia.
Qed.

Lemma C8_slider_keeps_total_witness :
  exists f',
    display_fracs Sample.grain_to_half Sample.quarters = Some f' /\
    Z.abs (exact_total f' - units 1) <= pow2 (-45) /\
    (abs (total_frac f' - 1) <=? 1e-13)%float = true.
Proof.
  destruct (C8_slider_keeps_total Sample.grain_to_half Sample.quarters Grain 0.5)
    as (f' & Hrun & _ & Hexact & Htotal).
  - vm_compute. reflexivity.
  - intros k. destruct k; reflexivity.
  - reflexivity.
  - reflexivity.
  - intros k x Hk. destruct k; [elim Hk | ..]; reflexivity.
  - exists f'. split; [exact Hrun | split; [exact Hexact | exact Htotal]].
Defined.

Close Scope Z_scope.

Close Scope float_scope.

(* ================================================================== *)
(** * The soil record and the event list are updated apart *)
(* ================================================================== *)

(** Writing below one key of an object leaves what lies below another key
    of that object as it was. *)
Lemma set_path_frame q a b r1 r2 v :
  a <> b -> forall j j',
  set_path (q ++ Key a :: r1) v j = Some j' ->
  get_path (q ++ Key b :: r2) j' = get_path (q ++ Key b :: r2) j.
Proof.
  intros Hab. induction q as [ | s q IH]; intros j j' Hset.
  - destruct j as [ | | | | | | d]; try discriminate. simpl in Hset.
    destruct (dict_get a d) as [x | ]; [ | discriminate].
    destruct (set_path r1 v x) as [x' | ]; [ | discriminate].
    injection Hset as <-. simpl.
    rewrite dict_get_set_other by congruence. reflexivity.
  - destruct s as [n | k], j as [ | | | | | l | d]; try discriminate;
      simpl in Hset.
    + destruct (nth_error l n) as [x | ] eqn:Hn; [ | discriminate].
      destruct (set_path (q ++ Key a :: r1) v x) as [x' | ] eqn:Hx; [ | discriminate].
      injection Hset as <-. simpl.
      rewrite (nth_error_list_set _ _ _ _ Hn), Hn. apply (IH _ _ Hx).
    + destruct (dict_get k d) as [x | ] eqn:Hk; [ | discriminate].
      destruct (set_path (q ++ Key a :: r1) v x) as [x' | ] eqn:Hx; [ | discriminate].
      injection Hset as <-. simpl.
      rewrite dict_get_set_same, Hk. apply (IH _ _ Hx).
Qed.

(** Writing through a path keeps the kind of the value it starts from. *)
Lemma set_path_kind s p v j j' :
  set_path (s :: p) v j = Some j' ->
  match s with
  | Idx _ => (exists l, j = JList l) /\ (exists l', j' = JList l')
  | Key _ => (exists d, j = JDict d) /\ (exists d', j' = JDict d')
  end.
Proof.
  destruct s as [n | k], j as [ | | | | | l | d]; try discriminate;
    cbn [set_path].
  - destruct (nth_error l n) as [x | ]; [ | discriminate].
    destruct (set_path p v x); [ | discriminate]. intros [= <-]. eauto.
  - destruct (dict_get k d) as [x | ]; [ | discriminate].
    destruct (set_path p v x); [ | discriminate]. intros [= <-]. eauto.
Qed.

(** The same for the record that [locate] finds: replacing it leaves the
    record of a path that parts from its path at another key where it was. *)
Lemma locate_frame k q a b r1 r2 v j loc j' :
  a <> b ->
  locate (Key k :: q ++ Key a :: r1) j = Some loc ->
  set_path (fst loc) v j = Some j' ->
  locate (Key k :: q ++ Key b :: r2) j' = locate (Key k :: q ++ Key b :: r2) j.
Proof.
  intros Hab Hloc Hset.
  destruct (locate_cases _ _ _ _ Hloc) as (_ & [E | (E & d & ->)]);
    rewrite E in Hset.
  - pose proof (set_path_frame (Idx 0 :: Key k :: q) a b r1 r2 v Hab j j' Hset) as H.
    destruct (set_path_kind _ _ _ _ _ Hset) as ((l & ->) & (l' & ->)).
    simpl app in H. unfold locate. rewrite H. reflexivity.
  - pose proof (set_path_frame (Key k :: q) a b r1 r2 v Hab (JDict d) j' Hset) as H.
    destruct (set_path_kind _ _ _ _ _ Hset) as (_ & (d' & ->)).
    simpl app in H. unfold locate.
    change (get_path (Idx 0 :: Key k :: q ++ Key b :: r2) (JDict d')) with (@None json).
    change (get_path (Idx 0 :: Key k :: q ++ Key b :: r2) (JDict d)) with (@None json).
    rewrite H. reflexivity.
Qed.

Lemma soil_path_shape : idx_then_key (Idx 0 :: soil_path) = true.
Proof. reflexivity. Qed.

(** A loop whose every turn leaves the state as it is. *)
Lemma fold_left_fixed (A B : Type) (f : A -> B -> A) (l : list B) (x : A) :
  (forall y, In y l -> f x y = x) -> fold_left f l x = x.
Proof.
  induction l as [ | y l IH]; intros H; simpl; [reflexivity | ].
  rewrite (H y) by (now left). apply IH. intros z Hz. apply H. now right.
Qed.

(** Merging the same overlay into a merged soil record changes nothing. *)
Lemma soil_merge_again soil_dict soil_data :
  soil_merge soil_dict (soil_merge soil_dict soil_data)
  = soil_merge soil_dict soil_data.
Proof.
  destruct (soil_merge_spec soil_dict soil_data) as (Hkeys & Hget).
  unfold soil_merge at 1. rewrite Hkeys. apply fold_left_fixed.
  intros k Hk. destruct (dict_get k soil_dict) as [w | ] eqn:Hw; [ | reflexivity].
  apply dict_set_get_same. rewrite Hget, Hw.
  apply dict_has_keys in Hk. unfold dict_has in Hk.
  destruct (dict_get k soil_data); [reflexivity | discriminate].
Qed.

(** Merging a soil record into itself changes nothing. *)
Lemma soil_merge_self soil_data : soil_merge soil_data soil_data = soil_data.
Proof.
  unfold soil_merge. apply fold_left_fixed.
  intros k Hk. destruct (dict_get k soil_data) as [w | ] eqn:Hw; [ | reflexivity].
  now apply dict_set_get_same.
Qed.

(** X1. The soil merge returns exactly when [input_config_soil_dict] finds
    a dictionary in the document; what [input_config_soil_dict] then reads
    in the returned document is the merged record. *)
Theorem soil_read_back soil_dict json_data :
  (forall doc',
      soil_config_replacement soil_dict json_data = Some doc' ->
      exists soil_data,
        input_config_soil_dict json_data = Some (JDict soil_data) /\
        input_config_soil_dict doc'
        = Some (JDict (soil_merge soil_dict soil_data))) /\
  (forall soil_data,
      input_config_soil_dict json_data = Some (JDict soil_data) ->
      exists doc', soil_config_replacement soil_dict json_data = Some doc').
Proof.
  unfold soil_config_replacement, input_config_soil_dict. split.
  - intros doc'.
    destruct (locate soil_path json_data) as [loc | ] eqn:Hloc; [ | discriminate].
    destruct (snd loc) as [ | | | | | | soil_data] eqn:Hsnd; try discriminate.
    intros Hset. exists soil_data. split; [reflexivity | ].
    assert (Hloc' : locate soil_path doc'
                    = Some (fst loc, JDict (soil_merge soil_dict soil_data)))
      by exact (locate_after_set "sites" _ _ _ _ _ soil_path_shape Hloc Hset).
    now rewrite Hloc'.
  - intros soil_data.
    destruct (locate soil_path json_data) as [loc | ] eqn:Hloc; [ | discriminate].
    intros [= Hsnd]. rewrite Hsnd.
    destruct (located_shape "sites" _ _ _ soil_path_shape Hloc) as (Hp & Hget).
    destruct (set_path_resolves (fst loc) (JDict (soil_merge soil_dict soil_data))
                _ _ Hp Hget) as (doc' & Hset & _).
    eauto.
Qed.

Lemma soil_read_back_witness :
  exists doc',
    soil_config_replacement Sample.soil_overlay Sample.doc = Some doc' /\
    input_config_soil_dict doc'
    = Some (JDict [("clay", JFloat 0.25); ("ph", JFloat 7); ("texture", JStr "loam")]).
Proof.
  destruct (soil_read_back Sample.soil_overlay Sample.doc) as (Hread & Hreturns).
  destruct (Hreturns _ eq_refl) as (doc' & Hrun).
  destruct (Hread doc' Hrun) as (soil_data & Hsoil & Hback).
  exists doc'. split; [exact Hrun | ].
  injection Hsoil as <-. exact Hback.
Defined.

(** X2. The soil merge is idempotent: merging the same overlay into the
    returned document returns that document again. *)
Theorem soil_merge_idempotent soil_dict json_data doc' :
  soil_config_replacement soil_dict json_data = Some doc' ->
  soil_config_replacement soil_dict doc' = Some doc'.
Proof.
  unfold soil_config_replacement.
  destruct (locate soil_path json_data) as [loc | ] eqn:Hloc; [ | discriminate].
  destruct (snd loc) as [ | | | | | | soil_data] eqn:Hsnd; try discriminate.
  intros Hset.
  assert (Hloc' : locate soil_path doc'
                  = Some (fst loc, JDict (soil_merge soil_dict soil_data)))
    by exact (locate_after_set "sites" _ _ _ _ _ soil_path_shape Hloc Hset).
  rewrite Hloc'. simpl. rewrite soil_merge_again.
  apply (set_path_idem _ _ _ _ Hset).
Qed.

Lemma soil_merge_idempotent_witness :
  exists doc',
    soil_config_replacement Sample.soil_overlay Sample.doc = Some doc' /\
    soil_config_replacement Sample.soil_overlay doc' = Some doc'.
Proof.
  destruct (soil_config_replacement Sample.soil_overlay Sample.doc) as [doc' | ] eqn:Hrun;
    [ | vm_compute in Hrun; discriminate].
  exists doc'. split; [reflexivity | ].
  apply (soil_merge_idempotent Sample.soil_overlay Sample.doc doc' Hrun).
Defined.

(** X3. Writing back the soil record that [input_config_soil_dict] has
    read, unedited, returns the document unchanged. *)
Theorem soil_unedited_unchanged json_data soil_data :
  input_config_soil_dict json_data = Some (JDict soil_data) ->
  soil_config_replacement soil_data json_data = Some json_data.
Proof.
  unfold soil_config_replacement, input_config_soil_dict.
  destruct (locate soil_path json_data) as [loc | ] eqn:Hloc; [ | discriminate].
  intros [= Hsnd]. rewrite Hsnd, soil_merge_self.
  destruct (located_shape "sites" _ _ _ soil_path_shape Hloc) as (Hp & Hget).
  rewrite Hsnd in Hget. apply (set_path_same _ _ _ Hp Hget).
Qed.

Lemma soil_unedited_unchanged_witness :
  soil_config_replacement
    [("clay", JFloat 0.25); ("ph", JFloat 6.5); ("texture", JStr "loam")]
    (JList [Sample.doc])
  = Some (JList [Sample.doc]).
Proof.
  apply (soil_unedited_unchanged (JList [Sample.doc])). reflexivity.
Defined.

(** X4. The soil merge leaves the events alone: the extractor gives on the
    returned document what it gives on the document. *)
Theorem soil_merge_keeps_events soil_dict json_data doc' :
  soil_config_replacement soil_dict json_data = Some doc' ->
  input_config_list doc' = input_config_list json_data.
Proof.
  unfold soil_config_replacement.
  destruct (locate soil_path json_data) as [loc | ] eqn:Hloc; [ | discriminate].
  destruct (snd loc) as [ | | | | | | soil_data]; try discriminate.
  intros Hset.
  assert (H : locate events_path doc' = locate events_path json_data).
  { apply (locate_frame "sites" [Idx 0; Key "fields"; Idx 0] "soil" "rotations"
             [] [Idx 0; Key "events"] (JDict (soil_merge soil_dict soil_data))
             json_data loc doc');
      [discriminate | exact Hloc | exact Hset]. }
  unfold input_config_list. now rewrite H.
Qed.

Lemma soil_merge_keeps_events_witness :
  exists doc',
    soil_config_replacement Sample.soil_overlay Sample.doc = Some doc' /\
    input_config_list doc' = input_config_list Sample.doc.
Proof.
  destruct (soil_config_replacement Sample.soil_overlay Sample.doc) as [doc' | ] eqn:Hrun;
    [ | vm_compute in Hrun; discriminate].
  exists doc'. split; [reflexivity | ].
  apply (soil_merge_keeps_events Sample.soil_overlay Sample.doc doc' Hrun).
Defined.

(** X5. Neither the event merge nor the auto-fertilization generator
    touches the soil record: [input_config_soil_dict] reads in the returned
    document what it reads in the document. *)
Theorem events_updates_keep_soil json_data doc' :
  (forall event_dict,
      input_config_replacement event_dict json_data = Some doc' ->
      input_config_soil_dict doc' = input_config_soil_dict json_data) /\
  (forall first_year last_year,
      generate_autofertilization_event json_data first_year last_year = Some doc' ->
      input_config_soil_dict doc' = input_config_soil_dict json_data).
Proof.
  assert (Hframe : forall loc v,
             locate events_path json_data = Some loc ->
             set_path (fst loc) v json_data = Some doc' ->
             input_config_soil_dict doc' = input_config_soil_dict json_data).
  { intros loc v Hloc Hset.
    assert (H : locate soil_path doc' = locate soil_path json_data).
    { apply (locate_frame "sites" [Idx 0; Key "fields"; Idx 0] "rotations" "soil"
               [Idx 0; Key "events"] [] v json_data loc doc');
        [discriminate | exact Hloc | exact Hset]. }
    unfold input_config_soil_dict. now rewrite H. }
  split.
  - intros event_dict Hrun. unfold input_config_replacement in Hrun.
    destruct (locate events_path json_data) as [loc | ] eqn:Hloc; [ | discriminate].
    destruct (py_iter (snd loc)) as [evs | ]; [ | discriminate].
    destruct (merge_events event_dict evs None) as [r | ]; [ | discriminate].
    destruct (snd loc);
      try (injection Hrun as <-; reflexivity).
    apply (Hframe loc _ eq_refl Hrun).
  - intros first_year last_year Hrun.
    unfold generate_autofertilization_event in Hrun.
    destruct (locate events_path json_data) as [loc | ] eqn:Hloc; [ | discriminate].
    destruct (for_each append_auto_fert _ (snd loc)) as [events' | ]; [ | discriminate].
    apply (Hframe loc _ eq_refl Hrun).
Qed.

Lemma events_updates_keep_soil_witness :
  exists doc',
    generate_autofertilization_event Sample.doc 2001 2003 = Some doc' /\
    input_config_soil_dict doc' = Some Sample.soil.
Proof.
  destruct (generate_autofertilization_event Sample.doc 2001 2003) as [doc' | ] eqn:Hrun;
    [ | vm_compute in Hrun; discriminate].
  exists doc'. split; [reflexivity | ].
  rewrite (proj2 (events_updates_keep_soil Sample.doc doc') 2001%Z 2003%Z Hrun).
  reflexivity.
Defined.

(* ================================================================== *)
(** * More on the extractor *)
(* ================================================================== *)

(** Every value of a list is among its first occurrences, or one of them
    is the same. *)
Lemma first_occurrences_covers : forall l earlier kept,
  (forall x, In x earlier ->
             In x kept \/ exists y, In y kept /\ py_same y x = true) ->
  forall x, In x (earlier ++ l) ->
            In x (kept ++ first_occurrences earlier l) \/
            exists y, In y (kept ++ first_occurrences earlier l) /\ py_same y x = true.
Proof.
  induction l as [ | x0 l IH]; intros earlier kept Hcov x Hx.
  - simpl. rewrite !app_nil_r in *. auto.
  - simpl. rewrite app_assoc.
    apply (IH (earlier ++ [x0])
              (kept ++ (if existsb (fun y => py_same y x0) earlier then [] else [x0]))).
    + intros x1 H1. apply in_app_or in H1. destruct H1 as [H1 | [<- | []]].
      * destruct (Hcov x1 H1) as [Hin | (y & Hin & Hy)].
        -- left. apply in_or_app. now left.
        -- right. exists y. split; [apply in_or_app; now left | exact Hy].
      * destruct (existsb (fun y => py_same y x0) earlier) eqn:Hex.
        -- apply existsb_exists in Hex. destruct Hex as (x2 & H2 & Hy).
           destruct (Hcov x2 H2) as [Hin | (y & Hin & Hy')].
           ++ right. exists x2. split; [now rewrite app_nil_r | exact Hy].
           ++ right. exists y. split; [now rewrite app_nil_r | ].
              eapply py_same_trans; eauto.
        -- left. apply in_or_app. right. now left.
    + rewrite <- app_assoc. exact Hx.
Qed.

Lemma first_occurrences_hashable l :
  forallb hashable (first_occurrences [] l) = true <-> forallb hashable l = true.
Proof.
  rewrite !forallb_forall. split; intros H x Hx.
  - destruct (first_occurrences_covers l [] [] (fun x H => False_ind _ H) x Hx)
      as [Hin | (y & Hin & Hy)].
    + apply (H _ Hin).
    + apply (py_same_hashable _ _ Hy (H _ Hin)).
  - apply H. eapply first_occurrences_incl; eauto.
Qed.

(** X6. When the events can be iterated over, the extractor returns exactly
    when every event is a dictionary, every crop's name is hashable and
    every other tagged record's event type is hashable; an event that is
    not a dictionary, or a name or type that is a list or a dictionary,
    makes it raise. *)
Theorem input_config_list_returns json_data loc evs :
  locate events_path json_data = Some loc ->
  py_iter (snd loc) = Some evs ->
  ((exists r, input_config_list json_data = Some r) <->
   Forall (fun e => exists ev, e = JDict ev) evs /\
   (forall e, In e evs -> is_crop e = true -> hashable (crop_name_of e) = true) /\
   (forall e, In e evs -> is_other e = true -> hashable (event_type_of e) = true)).
Proof.
  intros Hloc Hiter. split.
  - intros ([[[d c] o] full] & Hres).
    destruct (input_config_list_inv _ _ _ _ _ _ _ Hloc Hiter Hres)
      as (st & Hex & _ & _ & Hc & Ho).
    rewrite (ex_crop_names _ _ Hex), dedup_first_occurrences in Hc.
    rewrite (ex_other_events _ _ Hex), dedup_first_occurrences in Ho.
    unfold py_fromkeys in Hc, Ho.
    destruct (forallb hashable (first_occurrences [] (map crop_name_of _))) eqn:H1;
      [ | discriminate].
    destruct (forallb hashable (first_occurrences [] (map event_type_of _))) eqn:H2;
      [ | discriminate].
    apply (proj1 (first_occurrences_hashable _)) in H1.
    apply (proj1 (first_occurrences_hashable _)) in H2.
    rewrite forallb_forall in H1, H2.
    split; [exact (ex_records _ _ Hex) | split]; intros e He Hk.
    + apply H1. apply in_map. apply filter_In. auto.
    + apply H2. apply in_map. apply filter_In. auto.
  - intros (Hrec & Hcrop & Hother).
    destruct (for_each_visit_records evs (Lists [] [] [] []) Hrec) as (st & Hloop).
    pose proof (extracted_loop evs [] _ _ extracted_start Hloop) as Hex.
    simpl in Hex.
    unfold input_config_list. rewrite Hloc, Hiter, Hloop.
    unfold py_fromkeys.
    rewrite (ex_crop_names _ _ Hex), (ex_other_events _ _ Hex),
      !dedup_first_occurrences.
    assert (H1 : forallb hashable
                   (first_occurrences [] (map crop_name_of (filter is_crop evs))) = true).
    { apply first_occurrences_hashable. apply forallb_forall. intros x Hx.
      apply in_map_iff in Hx. destruct Hx as (e & <- & He).
      apply filter_In in He. now apply Hcrop. }
    assert (H2 : forallb hashable
                   (first_occurrences [] (map event_type_of (filter is_other evs))) = true).
    { apply first_occurrences_hashable. apply forallb_forall. intros x Hx.
      apply in_map_iff in Hx. destruct Hx as (e & <- & He).
      apply filter_In in He. now apply Hother. }
    rewrite H1, H2. eauto.
Qed.

Lemma input_config_list_returns_witness :
  input_config_list (Sample.config (JList [Sample.crop "A" 1200; JStr "note"]) Sample.soil)
  = None /\
  input_config_list
    (Sample.config
       (JList [JDict [("_event_type", JStr "crop"); ("name", JList [JStr "A"])]])
       Sample.soil)
  = None.
Proof.
  split.
  - pose proof (proj1 (input_config_list_returns
                         (Sample.config (JList [Sample.crop "A" 1200; JStr "note"])
                                        Sample.soil)
                         (events_path, JList [Sample.crop "A" 1200; JStr "note"])
                         [Sample.crop "A" 1200; JStr "note"] eq_refl eq_refl)) as H.
    destruct (input_config_list _) as [r | ]; [ | reflexivity].
    destruct (H (ex_intro _ r eq_refl)) as (Hrec & _).
    inversion_clear Hrec as [ | ? ? _ Hrest].
    inversion_clear Hrest as [ | ? ? (ev & Hev) _]. discriminate.
  - pose proof (proj1 (input_config_list_returns
                         (Sample.config
                            (JList [JDict [("_event_type", JStr "crop");
                                           ("name", JList [JStr "A"])]])
                            Sample.soil)
                         (events_path,
                          JList [JDict [("_event_type", JStr "crop");
                                        ("name", JList [JStr "A"])]])
                         [JDict [("_event_type", JStr "crop");
                                 ("name", JList [JStr "A"])]] eq_refl eq_refl)) as H.
    destruct (input_config_list _) as [r | ]; [ | reflexivity].
    destruct (H (ex_intro _ r eq_refl)) as (_ & Hcrop & _).
    specialize (Hcrop _ (or_introl eq_refl) eq_refl). discriminate.
Defined.

(** The extractor's loop over generated events: the first one is kept,
    unless an ["alt_fertilizer"] record was seen before. *)
Lemma visit_generated : forall years st,
  for_each visit (map auto_fert_event years) st
  = Some (Lists (crop_names st)
                (data st ++
                 (if py_in (JStr "alt_fertilizer") (other_events st) then []
                  else map auto_fert_event (firstn 1 years)))
                (data_full st ++ map auto_fert_event years)
                (other_events st ++
                 (if py_in (JStr "alt_fertilizer") (other_events st) then []
                  else map (fun _ => JStr "alt_fertilizer") (firstn 1 years)))).
Proof.
  induction years as [ | year years IH]; intros st.
  - simpl. destruct st. destruct (py_in _ _); simpl; now rewrite !app_nil_r.
  - cbn [map]. rewrite for_each_cons.
    assert (Hv : visit st (auto_fert_event year)
                 = Some (if py_in (JStr "alt_fertilizer") (other_events st)
                         then Lists (crop_names st) (data st)
                                    (data_full st ++ [auto_fert_event year])
                                    (other_events st)
                         else Lists (crop_names st) (data st ++ [auto_fert_event year])
                                    (data_full st ++ [auto_fert_event year])
                                    (other_events st ++ [JStr "alt_fertilizer"]))).
    { unfold visit, auto_fert_event, get_default. simpl.
      destruct (py_in (JStr "alt_fertilizer") (other_events st)); reflexivity. }
    rewrite Hv, IH.
    destruct (py_in (JStr "alt_fertilizer") (other_events st)) eqn:Hin; simpl.
    + rewrite Hin, !app_nil_r, <- app_assoc. reflexivity.
    + rewrite py_in_app. unfold py_in at 2. simpl. rewrite orb_true_r.
      rewrite !app_nil_r, <- !app_assoc. reflexivity.
Qed.

Lemma py_fromkeys_first_occurrences l l' :
  py_fromkeys (first_occurrences [] l) = Some l' -> l' = first_occurrences [] l.
Proof.
  unfold py_fromkeys. destruct (forallb _ _); [ | discriminate].
  intros [= <-]. rewrite dedup_first_occurrences.
  apply first_occurrences_again. auto.
Qed.

(** X7. The extractor on a document that the generator has returned: the
    full list is the former full list followed by the generated events;
    the filtered list and the other event types gain the first generated
    event and its type, unless an ["alt_fertilizer"] record was there
    before; the crop names are the same. *)
Theorem generated_events_extracted json_data p evs first_year last_year doc' d c o full :
  locate events_path json_data = Some (p, JList evs) ->
  (0 <= first_year \/ last_year < first_year)%Z ->
  input_config_list json_data = Some (d, c, o, full) ->
  generate_autofertilization_event json_data first_year last_year = Some doc' ->
  let years := py_range first_year (last_year + 1) in
  let seen := py_in (JStr "alt_fertilizer") o in
  input_config_list doc'
  = Some (d ++ (if seen then [] else map auto_fert_event (firstn 1 years)),
          c,
          o ++ (if seen then [] else map (fun _ => JStr "alt_fertilizer") (firstn 1 years)),
          full ++ map auto_fert_event years).
Proof.
  intros Hloc Hyears Hres Hgen years seen.
  assert (Hloc' : locate events_path doc'
                  = Some (p, JList (evs ++ map auto_fert_event years))).
  { unfold generate_autofertilization_event in Hgen. rewrite Hloc in Hgen.
    simpl fst in Hgen. simpl snd in Hgen.
    rewrite auto_fert_loop in Hgen.
    - exact (locate_after_set "sites" _ _ (p, JList evs) _ _
               (proj1 events_path_shape) Hloc Hgen).
    - apply Forall_forall. intros y Hy. destruct Hyears as [H0 | Hempty].
      + apply py_range_lower in Hy. lia.
      + unfold py_range in Hy.
        replace (Z.to_nat (last_year + 1 - first_year)) with 0%nat in Hy by lia.
        destruct Hy. }
  unfold input_config_list in Hres |- *. rewrite Hloc in Hres. rewrite Hloc'.
  simpl py_iter in *. cbv beta iota in *.
  rewrite for_each_app.
  destruct (for_each visit evs (Lists [] [] [] [])) as [st | ] eqn:Hloop;
    [ | discriminate].
  pose proof (extracted_loop evs [] _ _ extracted_start Hloop) as Hex.
  simpl in Hex.
  destruct (py_fromkeys (crop_names st)) as [c' | ] eqn:Hc; [ | discriminate].
  destruct (py_fromkeys (other_events st)) as [o' | ] eqn:Ho; [ | discriminate].
  injection Hres as <- <- <- <-.
  rewrite visit_generated. cbv beta iota. simpl crop_names.
  simpl other_events. simpl data. simpl data_full. rewrite Hc.
  rename o' into o.
  assert (Eo : o = other_events st).
  { rewrite (ex_other_events _ _ Hex) in Ho |- *.
    rewrite dedup_first_occurrences in Ho |- *.
    now apply py_fromkeys_first_occurrences. }
  fold seen. rewrite <- Eo. fold seen.
  assert (Hnew : py_fromkeys
                   (o ++ (if seen then []
                          else map (fun _ => JStr "alt_fertilizer") (firstn 1 years)))
                 = Some (o ++ (if seen then []
                               else map (fun _ => JStr "alt_fertilizer")
                                        (firstn 1 years)))).
  { unfold py_fromkeys.
    assert (Ho' : forallb hashable o = true).
    { rewrite Eo in Ho. unfold py_fromkeys in Ho.
      destruct (forallb hashable (other_events st)) eqn:E; [ | discriminate].
      now rewrite Eo. }
    assert (Hh : forallb hashable
                   (o ++ (if seen then []
                          else map (fun _ => JStr "alt_fertilizer") (firstn 1 years)))
                 = true).
    { rewrite forallb_app, Ho'. destruct seen; [reflexivity | ].
      destruct years; reflexivity. }
    rewrite Hh. f_equal. rewrite fold_left_app.
    assert (Hfold : fold_left add_key o [] = o).
    { rewrite Eo, (ex_other_events _ _ Hex), !dedup_first_occurrences.
      apply first_occurrences_again. auto. }
    rewrite Hfold. unfold seen. destruct (py_in (JStr "alt_fertilizer") o) eqn:Hin;
      [simpl; now rewrite app_nil_r | ].
    destruct years as [ | y ys]; [simpl; now rewrite app_nil_r | ].
    simpl. unfold add_key. now rewrite Hin. }
  cbn [firstn] in Hnew |- *. rewrite Hnew. reflexivity.
Qed.

Lemma generated_events_extracted_witness :
  exists doc',
    generate_autofertilization_event Sample.doc 2001 2003 = Some doc' /\
    input_config_list doc'
    = Some ([Sample.crop "A" 1200; Sample.irrigation "drip"; Sample.crop "B" 1500;
             auto_fert_event 2001],
            [JStr "A"; JStr "B"],
            [JStr "autoirrigation"; JStr "alt_fertilizer"],
            Sample.events ++
            [auto_fert_event 2001; auto_fert_event 2002; auto_fert_event 2003]).
Proof.
  destruct (generate_autofertilization_event Sample.doc 2001 2003) as [doc' | ] eqn:Hrun;
    [ | vm_compute in Hrun; discriminate].
  exists doc'. split; [reflexivity | ].
  assert (Hyears : (0 <= 2001 \/ 2003 < 2001)%Z) by (left; lia).
  assert (Hres : input_config_list Sample.doc
                 = Some ([Sample.crop "A" 1200; Sample.irrigation "drip";
                          Sample.crop "B" 1500],
                         [JStr "A"; JStr "B"], [JStr "autoirrigation"], Sample.events))
    by (vm_compute; reflexivity).
  exact (generated_events_extracted Sample.doc events_path Sample.events 2001 2003 doc'
           _ _ _ _ eq_refl Hyears Hres Hrun).
Defined.

(* ================================================================== *)
(** * The first and the last year: [find_first_last_years] *)
(* ================================================================== *)

(** The running minimum and maximum of the loop, for integer years. *)
Lemma lt_int_int a b : lt_numbers (JInt a) (JInt b) = Some (a <? b)%Z.
Proof.
  unfold lt_numbers, num_ltb. simpl. rewrite !Z.mul_1_r. reflexivity.
Qed.

Lemma lt_int_infinity a : lt_numbers (JInt a) (JFloat infinity) = Some true.
Proof. reflexivity. Qed.

Lemma lt_neg_infinity_int a : lt_numbers (JFloat neg_infinity) (JInt a) = Some true.
Proof. reflexivity. Qed.

Lemma fold_min_least : forall l a, least (fold_left Z.min l a) (a :: l).
Proof.
  induction l as [ | b l IH]; intros a; simpl.
  - split; [now left | intros y [<- | []]; lia].
  - destruct (IH (Z.min a b)) as (Hin & Hle). split.
    + destruct Hin as [E | Hin]; [ | right; right; exact Hin].
      rewrite <- E. destruct (Z.min_spec a b) as [(_ & ->) | (_ & ->)]; simpl; auto.
    + intros y [<- | [<- | Hy]].
      * specialize (Hle (Z.min a b) (or_introl eq_refl)). lia.
      * specialize (Hle (Z.min a b) (or_introl eq_refl)). lia.
      * apply Hle. now right.
Qed.

Lemma fold_max_greatest : forall l a, greatest (fold_left Z.max l a) (a :: l).
Proof.
  induction l as [ | b l IH]; intros a; simpl.
  - split; [now left | intros y [<- | []]; lia].
  - destruct (IH (Z.max a b)) as (Hin & Hle). split.
    + destruct Hin as [E | Hin]; [ | right; right; exact Hin].
      rewrite <- E. destruct (Z.max_spec a b) as [(_ & ->) | (_ & ->)]; simpl; auto.
    + intros y [<- | [<- | Hy]].
      * specialize (Hle (Z.max a b) (or_introl eq_refl)). lia.
      * specialize (Hle (Z.max a b) (or_introl eq_refl)). lia.
      * apply Hle. now right.
Qed.

Lemma running_min_step s y :
  py_min (running Z.min infinity s) (JInt y)
  = Some (running Z.min infinity (s ++ [y])).
Proof.
  destruct s as [ | a ys]; [reflexivity | ].
  unfold py_min. simpl running. rewrite lt_int_int, fold_left_app. simpl.
  do 2 f_equal. destruct (Z.ltb_spec y (fold_left Z.min ys a)); [ | ];
    f_equal; lia.
Qed.

Lemma running_max_step t y :
  py_max (running Z.max neg_infinity t) (JInt y)
  = Some (running Z.max neg_infinity (t ++ [y])).
Proof.
  destruct t as [ | a ys]; [reflexivity | ].
  unfold py_max. simpl running. rewrite lt_int_int, fold_left_app. simpl.
  do 2 f_equal. destruct (Z.ltb_spec (fold_left Z.max ys a) y); [ | ];
    f_equal; lia.
Qed.

Lemma first_last_step s t e :
  dated e = true ->
  first_last (running Z.min infinity s, running Z.max neg_infinity t) e
  = Some (running Z.min infinity (s ++ int_years "start_date" [e]),
          running Z.max neg_infinity (t ++ int_years "end_date" [e])).
Proof.
  destruct e as [ | | | | | | ev]; try discriminate.
  unfold dated, first_last, int_years, date_year. simpl flat_map.
  destruct (get_default ev "start_date" (JDict [])) as [ | | | | | | sd];
    try discriminate.
  destruct (get_default ev "end_date" (JDict [])) as [ | | | | | | ed];
    try discriminate.
  cbn [fst snd].
  destruct (get_default sd "year" JNull) as [ | | y1 | | | | ]; try discriminate;
    destruct (get_default ed "year" JNull) as [ | | y2 | | | | ]; try discriminate;
    intros _; rewrite ?running_min_step, ?running_max_step, ?app_nil_r;
    reflexivity.
Qed.

Lemma first_last_loop : forall evs s t,
  forallb dated evs = true ->
  for_each first_last evs (running Z.min infinity s, running Z.max neg_infinity t)
  = Some (running Z.min infinity (s ++ int_years "start_date" evs),
          running Z.max neg_infinity (t ++ int_years "end_date" evs)).
Proof.
  induction evs as [ | e evs IH]; intros s t Hall.
  - simpl. now rewrite !app_nil_r.
  - simpl in Hall. apply andb_true_iff in Hall. destruct Hall as [He Hall].
    rewrite for_each_cons, (first_last_step s t e He), (IH _ _ Hall).
    unfold int_years. simpl flat_map. rewrite !app_nil_r, <- !app_assoc.
    reflexivity.
Qed.

Lemma least_unique m m' l : least m l -> least m' l -> m = m'.
Proof. intros (H1 & H2) (H3 & H4). specialize (H2 _ H3). specialize (H4 _ H1). lia. Qed.

Lemma greatest_unique m m' l : greatest m l -> greatest m' l -> m = m'.
Proof. intros (H1 & H2) (H3 & H4). specialize (H2 _ H3). specialize (H4 _ H1). lia. Qed.

(** The loop of [find_first_last_years], from its start. *)
Lemma first_last_found crop_events :
  forallb dated crop_events = true ->
  exists first_year last_year,
    find_first_last_years crop_events = Some (first_year, last_year) /\
    match int_years "start_date" crop_events with
    | [] => first_year = JFloat infinity
    | starts => exists m, first_year = JInt m /\ least m starts
    end /\
    match int_years "end_date" crop_events with
    | [] => last_year = JFloat neg_infinity
    | ends => exists m, last_year = JInt m /\ greatest m ends
    end.
Proof.
  intros Hall. do 2 eexists. split.
  - unfold find_first_last_years. apply (first_last_loop crop_events [] [] Hall).
  - simpl app. split.
    + destruct (int_years "start_date" crop_events) as [ | y ys]; [reflexivity | ].
      eexists. split; [reflexivity | apply fold_min_least].
    + destruct (int_years "end_date" crop_events) as [ | y ys]; [reflexivity | ].
      eexists. split; [reflexivity | apply fold_max_greatest].
Qed.

(** X8. For records whose dates, where they have them, give an integer
    year or none, [find_first_last_years] returns the least start year and
    the greatest end year; where no record gives a start year (an end year)
    it returns the float it started from, plus (minus) infinity. *)
Theorem first_last_years crop_events :
  forallb dated crop_events = true ->
  exists first_year last_year,
    find_first_last_years crop_events = Some (first_year, last_year) /\
    match int_years "start_date" crop_events with
    | [] => first_year = JFloat infinity
    | starts => exists m, first_year = JInt m /\ least m starts
    end /\
    match int_years "end_date" crop_events with
    | [] => last_year = JFloat neg_infinity
    | ends => exists m, last_year = JInt m /\ greatest m ends
    end.
Proof.
  intros Hall. do 2 eexists. split.
  - unfold find_first_last_years. apply (first_last_loop crop_events [] [] Hall).
  - simpl app. split.
    + destruct (int_years "start_date" crop_events) as [ | y ys]; [reflexivity | ].
      eexists. split; [reflexivity | apply fold_min_least].
    + destruct (int_years "end_date" crop_events) as [ | y ys]; [reflexivity | ].
      eexists. split; [reflexivity | apply fold_max_greatest].
Qed.

Lemma first_last_years_witness :
  find_first_last_years Sample.plantings = Some (JInt 2001, JInt 2003).
Proof.
  destruct (first_last_years Sample.plantings eq_refl)
    as (first_year & last_year & Hrun & (m & -> & Hm) & (M & -> & HM)).
  rewrite Hrun. do 3 f_equal.
  - apply (least_unique _ _ _ Hm). split; [simpl; auto | ].
    intros y [<- | [<- | []]]; lia.
  - apply (greatest_unique _ _ _ HM). split; [simpl; auto | ].
    intros y [<- | [<- | []]]; lia.
Defined.

(** The generator on a document with an event list, for years that are not
    negative. *)
Lemma generator_appends json_data p evs first_year last_year :
  locate events_path json_data = Some (p, JList evs) ->
  (0 <= first_year \/ last_year < first_year)%Z ->
  exists doc',
    generate_autofertilization_event json_data first_year last_year = Some doc' /\
    get_path p doc'
    = Some (JList (evs ++ map auto_fert_event (py_range first_year (last_year + 1)))).
Proof.
  intros Hloc Hyears.
  destruct (located_shape "sites" _ _ _ (proj1 events_path_shape) Hloc) as (Hp & Hget).
  simpl in Hp, Hget.
  destruct (set_path_resolves p
              (JList (evs ++ map auto_fert_event (py_range first_year (last_year + 1))))
              _ _ Hp Hget) as (doc' & Hset & Hget').
  exists doc'. unfold generate_autofertilization_event. rewrite Hloc.
  simpl snd. simpl fst. rewrite auto_fert_loop; [auto | ].
  apply Forall_forall. intros y Hy. destruct Hyears as [H0 | Hempty].
  - apply py_range_lower in Hy. lia.
  - unfold py_range in Hy.
    replace (Z.to_nat (last_year + 1 - first_year)) with 0%nat in Hy by lia.
    destruct Hy.
Qed.

(** X9. The step of the script that adds the auto-fertilization events:
    when the records of the full list give integer years, the least start
    year [m] (not negative) and the greatest end year [M], the document
    gets one generated event for every year from [m] to [M]. *)
Theorem auto_fertilize_spans json_data p evs data_full m M :
  locate events_path json_data = Some (p, JList evs) ->
  forallb dated data_full = true ->
  least m (int_years "start_date" data_full) ->
  greatest M (int_years "end_date" data_full) ->
  (0 <= m)%Z ->
  exists doc',
    auto_fertilize json_data data_full = Some doc' /\
    get_path p doc'
    = Some (JList (evs ++ map auto_fert_event (py_range m (M + 1)))).
Proof.
  intros Hloc Hall Hm HM H0.
  destruct (first_last_found data_full Hall)
    as (first_year & last_year & Hrun & Hfirst & Hlast).
  destruct (int_years "start_date" data_full) as [ | y ys] eqn:Es;
    [destruct Hm as ([] & _) | ].
  destruct (int_years "end_date" data_full) as [ | z zs] eqn:Ee;
    [destruct HM as ([] & _) | ].
  destruct Hfirst as (m' & -> & Hm'). destruct Hlast as (M' & -> & HM').
  rewrite (least_unique _ _ _ Hm' Hm) in Hrun.
  rewrite (greatest_unique _ _ _ HM' HM) in Hrun.
  unfold auto_fertilize. rewrite Hrun. simpl.
  apply (generator_appends json_data p evs m M Hloc). now left.
Qed.

Lemma auto_fertilize_spans_witness :
  exists doc',
    auto_fertilize Sample.doc Sample.plantings = Some doc' /\
    get_path events_path doc'
    = Some (JList (Sample.events ++
                   [auto_fert_event 2001; auto_fert_event 2002; auto_fert_event 2003])).
Proof.
  apply (auto_fertilize_spans Sample.doc events_path Sample.events Sample.plantings
           2001 2003 eq_refl eq_refl).
  - split; [simpl; auto | ]. intros y [<- | [<- | []]]; lia.
  - split; [simpl; auto | ]. intros y [<- | [<- | []]]; lia.
  - lia.
Defined.

(** X10. When the records of the full list give no start year, or no end
    year, the step raises: the year it passes on is the float infinity,
    which [range] does not take. *)
Theorem auto_fertilize_needs_years json_data data_full :
  forallb dated data_full = true ->
  int_years "start_date" data_full = [] \/ int_years "end_date" data_full = [] ->
  auto_fertilize json_data data_full = None.
Proof.
  intros Hall Hnone.
  destruct (first_last_found data_full Hall)
    as (first_year & last_year & Hrun & Hfirst & Hlast).
  unfold auto_fertilize. rewrite Hrun. simpl.
  destruct Hnone as [E | E].
  - rewrite E in Hfirst. now rewrite Hfirst.
  - rewrite E in Hlast. rewrite Hlast. destruct (py_index first_year); reflexivity.
Qed.

Lemma auto_fertilize_needs_years_witness :
  auto_fertilize Sample.doc Sample.events = None.
Proof.
  apply (auto_fertilize_needs_years Sample.doc Sample.events eq_refl).
  left. reflexivity.
Defined.

(* ================================================================== *)
(** * The overlay of the editor: [convert_to_event_dict] *)
(* ================================================================== *)

(** ** Dictionaries with keys of any kind *)

Lemma pd_get_set k v t : forall d,
  hashable_keys d -> hashable k = true -> hashable t = true ->
  pd_get t (pd_set k v d) = if key_eq k t then Some v else pd_get t d.
Proof.
  intros d Hd Hk Ht. induction d as [ | [k' v'] d IH]; simpl.
  - reflexivity.
  - inversion_clear Hd as [ | ? ? Hk' Hd']. simpl in Hk'.
    destruct (key_eq k' k) eqn:E; simpl.
    + rewrite (key_eq_congr k' k t Hk' Hk Ht E).
      destruct (key_eq k t); reflexivity.
    + rewrite (IH Hd').
      destruct (key_eq k' t) eqn:E1, (key_eq k t) eqn:E2; try reflexivity.
      rewrite (key_eq_sym k t) in E2 by assumption.
      rewrite (key_eq_trans _ _ _ E1 E2) in E. discriminate.
Qed.

Lemma pd_set_hashable k v d :
  hashable_keys d -> hashable k = true -> hashable_keys (pd_set k v d).
Proof.
  intros Hd Hk. induction d as [ | [k' v'] d IH]; simpl.
  - constructor; [exact Hk | constructor].
  - inversion_clear Hd as [ | ? ? Hk' Hd'].
    destruct (key_eq k' k); constructor; auto. now apply IH.
Qed.

(** ** One record into the overlay *)

Lemma crop_entry_snoc pre e :
  crop_entry (pre ++ [e])
  = if is_crop e
    then Some (JList (match crop_entry pre with
                      | Some (JList l) => l
                      | _ => []
                      end ++ [new_record e]))
    else crop_entry pre.
Proof.
  unfold crop_entry. rewrite filter_app. simpl.
  destruct (is_crop e); [ | now rewrite app_nil_r].
  destruct (filter is_crop pre) as [ | c cs]; [reflexivity | ].
  simpl. rewrite map_app. reflexivity.
Qed.

Lemma last_of_type_snoc t pre e :
  last_of_type t (pre ++ [e])
  = if is_other e && key_eq (event_type_of e) t
    then Some (new_record e) else last_of_type t pre.
Proof. unfold last_of_type. rewrite fold_left_app. reflexivity. Qed.

Lemma crop_entry_list pre v : crop_entry pre = Some v -> exists l, v = JList l.
Proof.
  unfold crop_entry. destruct (filter is_crop pre); [discriminate | ].
  intros [= <-]. eauto.
Qed.

Lemma convert_item_step pre pd e :
  overlay_of pre pd ->
  (forall pd', convert_item pd e = Some pd' ->
               overlay_of (pre ++ [e]) pd' /\ convertible e) /\
  (convertible e -> exists pd', convert_item pd e = Some pd').
Proof.
  intros (Hk & Hget).
  destruct e as [ | | | | | | it];
    try (split; [discriminate | intros ((it & Hit) & _); discriminate]).
  unfold convert_item, convertible.
  set (t := get_default it "_event_type" JNull).
  assert (Hcrop : is_crop (JDict it) = py_truthy t && py_eq t (JStr "crop"))
    by reflexivity.
  assert (Hother : is_other (JDict it) = py_truthy t && negb (py_eq t (JStr "crop")))
    by reflexivity.
  change (event_type_of (JDict it)) with t.
  pose proof (Hget (JStr "crop") eq_refl) as Hc0.
  change (key_eq (JStr "crop") (JStr "crop")) with true in Hc0. cbv iota in Hc0.
  destruct (py_truthy t) eqn:Ht; simpl in Hcrop, Hother.
  - destruct (py_eq t (JStr "crop")) eqn:Hc; simpl in Hother.
    + assert (Hnew : forall l,
                 match crop_entry pre with Some (JList l0) => l0 | _ => [] end = l ->
                 overlay_of (pre ++ [JDict it])
                   (pd_set (JStr "crop") (JList (l ++ [JDict (new_item it)]))
                      (if negb (pd_has (JStr "crop") pd)
                       then pd_set (JStr "crop") (JList []) pd else pd))).
      { intros l Hl.
        assert (Hk' : hashable_keys (if negb (pd_has (JStr "crop") pd)
                                     then pd_set (JStr "crop") (JList []) pd else pd))
          by (destruct (negb _); [now apply pd_set_hashable | exact Hk]).
        split; [now apply pd_set_hashable | ].
        intros t' Ht'. rewrite (pd_get_set (JStr "crop") _ _ _ Hk' eq_refl Ht').
        rewrite crop_entry_snoc, last_of_type_snoc, Hcrop, Hother, Hl. simpl.
        destruct (key_eq (JStr "crop") t') eqn:E; [reflexivity | ].
        destruct (negb (pd_has (JStr "crop") pd)).
        - rewrite (pd_get_set (JStr "crop") _ _ _ Hk eq_refl Ht'), E, (Hget t' Ht'), E.
          reflexivity.
        - rewrite (Hget t' Ht'), E. reflexivity. }
      assert (Hlist : exists l,
                 pd_get (JStr "crop")
                   (if negb (pd_has (JStr "crop") pd)
                    then pd_set (JStr "crop") (JList []) pd else pd) = Some (JList l) /\
                 match crop_entry pre with Some (JList l0) => l0 | _ => [] end = l).
      { unfold pd_has. rewrite Hc0. destruct (crop_entry pre) as [v | ] eqn:Ev; simpl.
        - destruct (crop_entry_list _ _ Ev) as (l & ->). rewrite Hc0. eauto.
        - rewrite (pd_get_set (JStr "crop") _ (JStr "crop") _ Hk eq_refl eq_refl). simpl. eauto. }
      destruct Hlist as (l & -> & Hl). split.
      * intros pd' [= <-]. split; [now apply Hnew | ].
        split; [eauto | rewrite Hother; discriminate].
      * eauto.
    + destruct (hashable t) eqn:Hh.
      * split; [ | eauto]. intros pd' [= <-].
        split; [ | split; [eauto | reflexivity]].
        split; [now apply pd_set_hashable | ].
        intros t' Ht'. rewrite (pd_get_set _ _ _ _ Hk Hh Ht'), (Hget t' Ht').
        rewrite crop_entry_snoc, last_of_type_snoc, Hcrop, Hother. simpl.
        change (event_type_of (JDict it)) with t.
        destruct (key_eq (JStr "crop") t') eqn:E; [ | reflexivity].
        destruct (key_eq t t') eqn:E'; [ | reflexivity].
        rewrite (key_eq_sym (JStr "crop") t' eq_refl Ht') in E.
        pose proof (key_eq_trans _ _ _ E' E) as Hbad.
        unfold key_eq in Hbad. simpl is_nan in Hbad.
        rewrite Hc, andb_false_r in Hbad. discriminate.
      * split; [discriminate | ]. intros (_ & H). specialize (H Hother). discriminate.
  - split; [ | eauto]. intros pd' [= <-].
    split; [ | split; [eauto | rewrite Hother; discriminate]].
    split; [exact Hk | ]. intros t' Ht'.
    rewrite (Hget t' Ht'), crop_entry_snoc, last_of_type_snoc, Hcrop, Hother.
    reflexivity.
Qed.

Lemma convert_loop : forall rest pre pd,
  overlay_of pre pd ->
  (forall pd', for_each convert_item rest pd = Some pd' ->
               overlay_of (pre ++ rest) pd' /\ Forall convertible rest) /\
  (Forall convertible rest -> exists pd', for_each convert_item rest pd = Some pd').
Proof.
  induction rest as [ | e rest IH]; intros pre pd Hov.
  - split; [ | simpl; eauto]. intros pd' [= <-]. rewrite app_nil_r. auto.
  - destruct (convert_item_step pre pd e Hov) as (Hstep & Hret).
    rewrite for_each_cons. split.
    + intros pd'. destruct (convert_item pd e) as [pd1 | ]; [ | discriminate].
      destruct (Hstep pd1 eq_refl) as (Hov1 & He).
      intros Hrest. destruct (proj1 (IH _ _ Hov1) pd' Hrest) as (Hov' & Hall).
      rewrite <- app_assoc in Hov'. auto.
    + intros Hall. inversion_clear Hall as [ | ? ? He Hrest].
      destruct (Hret He) as (pd1 & Hpd1). rewrite Hpd1.
      destruct (Hstep pd1 Hpd1) as (Hov1 & _).
      apply (proj2 (IH _ _ Hov1) Hrest).
Qed.

Lemma overlay_of_nil : overlay_of [] [].
Proof.
  split; [constructor | ]. intros t _. simpl.
  destruct (key_eq (JStr "crop") t); reflexivity.
Qed.

(** X11. The overlay that [convert_to_event_dict] builds holds, under
    ['crop'], the list of all the crop records, in order (it has no such
    key when there is no crop); under any other key, the last record of
    that event type; and nothing else.  Every record is held without its
    ['_event_type']. *)
Theorem convert_to_event_dict_overlay data event_dict :
  convert_to_event_dict data = Some event_dict ->
  pd_get (JStr "crop") event_dict = crop_entry data /\
  (forall t, hashable t = true -> t <> JStr "crop" ->
             pd_get t event_dict = last_of_type t data).
Proof.
  intros Hrun.
  destruct (proj1 (convert_loop data [] [] overlay_of_nil) _ Hrun) as ((_ & Hget) & _).
  simpl in Hget. split.
  - apply (Hget (JStr "crop") eq_refl).
  - intros t Ht Hne. rewrite (Hget t Ht).
    destruct (key_eq (JStr "crop") t) eqn:E; [ | reflexivity].
    apply key_eq_str in E. contradiction.
Qed.

Lemma convert_to_event_dict_overlay_witness :
  exists event_dict,
    convert_to_event_dict Sample.events = Some event_dict /\
    pd_get (JStr "crop") event_dict
    = Some (JList [new_record (Sample.crop "A" 1200);
                   new_record (Sample.crop "B" 1500);
                   new_record (Sample.crop "A" 900)]) /\
    pd_get (JStr "autoirrigation") event_dict
    = Some (new_record (Sample.irrigation "furrow")).
Proof.
  destruct (convert_to_event_dict Sample.events) as [event_dict | ] eqn:Hrun;
    [ | vm_compute in Hrun; discriminate].
  exists event_dict. split; [reflexivity | ].
  destruct (convert_to_event_dict_overlay Sample.events event_dict Hrun) as (Hc & Ho).
  split; [exact Hc | ].
  rewrite (Ho (JStr "autoirrigation") eq_refl) by discriminate. reflexivity.
Defined.

(** X12. [convert_to_event_dict] returns exactly when every record is a
    dictionary and the event type of every tagged record other than a crop
    is hashable: a record that is not a dictionary, or an event type that
    is a list or a dictionary (and not empty), makes it raise. *)
Theorem convert_to_event_dict_returns data :
  (exists event_dict, convert_to_event_dict data = Some event_dict)
  <-> Forall convertible data.
Proof.
  split.
  - intros (event_dict & Hrun).
    apply (proj1 (convert_loop data [] [] overlay_of_nil) _ Hrun).
  - apply (proj2 (convert_loop data [] [] overlay_of_nil)).
Qed.

(** ** No mapping of the overlay carries the event type *)

Lemma keys_dict_pop k d :
  keys (dict_pop k d) = filter (fun k' => negb (String.eqb k' k)) (keys d).
Proof.
  unfold keys, dict_pop. induction d as [ | [k' v] d IH]; simpl; [reflexivity | ].
  destruct (String.eqb k' k); simpl; now rewrite IH.
Qed.

Lemma dict_pop_absent k d : ~ In k (keys (dict_pop k d)).
Proof.
  rewrite keys_dict_pop. intros H. apply filter_In in H. destruct H as [_ H].
  rewrite String.eqb_refl in H. discriminate.
Qed.

Lemma new_item_keeps_tag it : keeps_tag (JDict (new_item it)) = true.
Proof.
  simpl. apply negb_true_iff. apply Bool.not_true_iff_false. intros H.
  apply dict_has_keys in H. exact (dict_pop_absent _ _ H).
Qed.

Lemma new_item_wf it : json_wf (JDict it) = true -> json_wf (JDict (new_item it)) = true.
Proof.
  simpl. rewrite !andb_true_iff. intros [Hnd Hall]. split.
  - apply nodupb_NoDup. change (map fst (new_item it)) with (keys (new_item it)).
    unfold new_item. rewrite keys_dict_pop. apply NoDup_filter.
    now apply nodupb_NoDup.
  - rewrite forallb_forall in *. intros kv Hkv. apply Hall.
    unfold new_item, dict_pop in Hkv. apply filter_In in Hkv. apply Hkv.
Qed.

Lemma pd_set_keys k v : forall d,
  hashable k = true ->
  map fst (pd_set k v d) = map fst d \/
  (map fst (pd_set k v d) = map fst d ++ [k] /\ ~ In k (map fst d)).
Proof.
  intros d Hk. induction d as [ | [k' v'] d IH]; simpl.
  - right. auto.
  - destruct (key_eq k' k) eqn:E; simpl; [now left | ].
    destruct IH as [-> | (-> & Hin)]; [now left | right].
    split; [reflexivity | ]. intros [-> | H]; [ | contradiction].
    rewrite (key_eq_refl k Hk) in E. discriminate.
Qed.

Lemma pd_set_untagged k v d :
  untagged_overlay d -> hashable k = true ->
  entry_keeps_tags v = true -> json_wf v = true ->
  untagged_overlay (pd_set k v d).
Proof.
  intros (Hnd & Hall) Hk Hv Wv. split.
  - destruct (pd_set_keys k v d Hk) as [-> | (-> & Hin)]; [exact Hnd | ].
    apply NoDup_app; [exact Hnd | constructor; [intros [] | constructor] | ].
    intros a Ha [<- | []]. contradiction.
  - clear Hnd. induction d as [ | [k' v'] d IH]; simpl.
    + constructor; [simpl; auto | constructor].
    + inversion_clear Hall as [ | ? ? (H1 & H2 & H3) Hrest].
      destruct (key_eq k' k); constructor; simpl in *; auto.
Qed.

Lemma pd_get_In t : forall d v, pd_get t d = Some v -> exists k, In (k, v) d.
Proof.
  induction d as [ | [k' v'] d IH]; intros v; simpl; [discriminate | ].
  destruct (key_eq k' t).
  - intros [= <-]. eauto.
  - intros H. destruct (IH _ H) as (k & Hk). eauto.
Qed.

Lemma convert_item_untagged pd e pd' :
  json_wf e = true -> untagged_overlay pd ->
  convert_item pd e = Some pd' -> untagged_overlay pd'.
Proof.
  intros We Hpd. destruct e as [ | | | | | | it]; try discriminate.
  unfold convert_item. set (t := get_default it "_event_type" JNull).
  destruct (py_truthy t); [ | now intros [= <-]].
  destruct (py_eq t (JStr "crop")).
  - set (pd1 := if negb (pd_has (JStr "crop") pd)
                then pd_set (JStr "crop") (JList []) pd else pd).
    assert (Hpd1 : untagged_overlay pd1)
      by (unfold pd1; destruct (negb _); [now apply pd_set_untagged | exact Hpd]).
    destruct (pd_get (JStr "crop") pd1) as [[ | | | | | l | ] | ] eqn:Hl;
      try discriminate.
    intros [= <-].
    destruct (pd_get_In _ _ _ Hl) as (k & Hin).
    destruct Hpd1 as (Hnd & Hall). rewrite Forall_forall in Hall.
    destruct (Hall _ Hin) as (_ & Htags & Wl). simpl in Htags, Wl.
    apply pd_set_untagged; [split; [exact Hnd | now apply Forall_forall] | reflexivity | | ].
    + simpl. rewrite forallb_app, Htags. simpl.
      change (negb (dict_has "_event_type" (new_item it)))
        with (keeps_tag (JDict (new_item it))).
      now rewrite new_item_keeps_tag.
    + cbn [json_wf]. rewrite forallb_app, Wl. cbn [forallb].
      now rewrite (new_item_wf it We).
  - destruct (hashable t) eqn:Hh; [ | discriminate]. intros [= <-].
    apply pd_set_untagged; auto.
    + apply (new_item_keeps_tag it).
    + now apply new_item_wf.
Qed.

Lemma convert_loop_untagged : forall records pd pd',
  json_wf (JList records) = true -> untagged_overlay pd ->
  for_each convert_item records pd = Some pd' -> untagged_overlay pd'.
Proof.
  induction records as [ | e records IH]; intros pd pd' W Hpd.
  - now intros [= <-].
  - simpl in W. apply andb_true_iff in W. destruct W as [We W].
    rewrite for_each_cons.
    destruct (convert_item pd e) as [pd1 | ] eqn:He; [ | discriminate].
    apply IH; [exact W | ]. eapply convert_item_untagged; eauto.
Qed.

(** ** The overlay with string keys *)

Lemma str_keys_inv : forall pd ed,
  str_keys pd = Some ed -> pd = map (fun kv => (JStr (fst kv), snd kv)) ed.
Proof.
  induction pd as [ | [k v] pd IH]; intros ed; simpl.
  - now intros [= <-].
  - destruct k as [ | | | | s | | ]; try discriminate.
    destruct (str_keys pd) as [ed' | ]; [ | discriminate].
    intros [= <-]. simpl. now rewrite (IH ed').
Qed.

Lemma str_keys_get : forall pd ed s,
  str_keys pd = Some ed -> pd_get (JStr s) pd = dict_get s ed.
Proof.
  intros pd ed s H. apply str_keys_inv in H. subst pd.
  induction ed as [ | [k v] ed IH]; simpl; [reflexivity | ].
  unfold key_eq. simpl. rewrite orb_false_r, String.eqb_sym, IH. reflexivity.
Qed.

Lemma str_keys_untagged pd ed :
  untagged_overlay pd -> str_keys pd = Some ed ->
  json_wf (JDict ed) = true /\ overlay_keeps_tags ed = true.
Proof.
  intros (Hnd & Hall) H. apply str_keys_inv in H. subst pd.
  rewrite map_map in Hnd. simpl in Hnd.
  rewrite Forall_forall in Hall.
  assert (Hin : forall kv, In kv ed ->
                  entry_keeps_tags (snd kv) = true /\ json_wf (snd kv) = true).
  { intros kv Hkv.
    apply (Hall (JStr (fst kv), snd kv)).
    apply (in_map (fun kv => (JStr (fst kv), snd kv))) in Hkv. exact Hkv. }
  split.
  - simpl. apply andb_true_iff. split.
    + apply nodupb_NoDup. apply (NoDup_map_inv JStr).
      rewrite map_map. exact Hnd.
    + apply forallb_forall. intros kv Hkv. apply (Hin kv Hkv).
  - unfold overlay_keeps_tags. apply forallb_forall. intros kv Hkv.
    apply (Hin kv Hkv).
Qed.

Lemma untagged_overlay_nil : untagged_overlay [].
Proof. split; constructor. Qed.

(** Merging an overlay that keeps the tags into the result of merging it. *)
Lemma replacement_again event_dict json_data doc' :
  json_wf json_data = true ->
  json_wf (JDict event_dict) = true ->
  overlay_keeps_tags event_dict = true ->
  input_config_replacement event_dict json_data = Some doc' ->
  input_config_replacement event_dict doc' = Some doc'.
Proof.
  intros Wdoc Wov Htags Hrun. pose proof Hrun as Hrun0.
  unfold input_config_replacement in Hrun.
  destruct (locate events_path json_data) as [loc | ] eqn:Hloc; [ | discriminate].
  destruct (py_iter (snd loc)) as [evs | ] eqn:Hit; [ | discriminate].
  destruct (merge_events event_dict evs None) as [[evs1 k1] | ] eqn:Hm; [ | discriminate].
  destruct (located_shape "sites" _ _ _ (proj1 events_path_shape) Hloc) as (Hp & Hget).
  destruct (snd loc) as [ | | | | | l | ] eqn:Hsnd;
    try (injection Hrun as <-; exact Hrun0).
  simpl in Hit. injection Hit as <-. simpl in Hrun.
  assert (Hloc' : locate events_path doc' = Some (fst loc, JList evs1))
    by exact (locate_after_set "sites" _ _ _ _ _ (proj1 events_path_shape) Hloc Hrun).
  unfold input_config_replacement. rewrite Hloc'. simpl.
  rewrite (merge_events_again _ _ _ _ _ Wov Htags (get_path_wf _ _ _ Wdoc Hget) Hm).
  simpl. apply (set_path_idem _ _ _ _ Hrun).
Qed.

(** X13. No mapping of the overlay that [convert_to_event_dict] builds
    from well-formed records carries the key ["_event_type"]; so merging
    that overlay (its keys being strings) is idempotent: merged into the
    document that the merge has returned, it returns that document again. *)
Theorem editor_overlay_idempotent data event_dict :
  json_wf (JList data) = true ->
  convert_to_event_dict data = Some event_dict ->
  (forall t v, pd_get t event_dict = Some v -> entry_keeps_tags v = true) /\
  (forall ed json_data doc',
      str_keys event_dict = Some ed ->
      json_wf json_data = true ->
      input_config_replacement ed json_data = Some doc' ->
      input_config_replacement ed doc' = Some doc').
Proof.
  intros W Hrun.
  pose proof (convert_loop_untagged data [] event_dict W untagged_overlay_nil Hrun)
    as Hinv.
  split.
  - intros t v Hget. destruct (pd_get_In _ _ _ Hget) as (k & Hin).
    destruct Hinv as (_ & Hall). rewrite Forall_forall in Hall.
    apply (Hall _ Hin).
  - intros ed json_data doc' Hstr Wdoc Hmerge.
    destruct (str_keys_untagged _ _ Hinv Hstr) as (Wov & Htags).
    apply (replacement_again ed json_data doc' Wdoc Wov Htags Hmerge).
Qed.

Lemma editor_overlay_idempotent_witness :
  exists event_dict ed doc',
    convert_to_event_dict Sample.events = Some event_dict /\
    str_keys event_dict = Some ed /\
    input_config_replacement ed Sample.doc = Some doc' /\
    input_config_replacement ed doc' = Some doc'.
Proof.
  destruct (convert_to_event_dict Sample.events) as [event_dict | ] eqn:Hrun;
    [ | vm_compute in Hrun; discriminate].
  destruct (str_keys event_dict) as [ed | ] eqn:Hstr;
    [ | vm_compute in Hrun; injection Hrun as <-; vm_compute in Hstr; discriminate].
  destruct (input_config_replacement ed Sample.doc) as [doc' | ] eqn:Hmerge;
    [ | vm_compute in Hrun; injection Hrun as <-;
        vm_compute in Hstr; injection Hstr as <-;
        vm_compute in Hmerge; discriminate].
  exists event_dict, ed, doc'.
  split; [reflexivity | ].
  split; [first [reflexivity | exact Hstr] | ].
  split; [first [reflexivity | exact Hmerge] | ].
  apply (proj2 (editor_overlay_idempotent Sample.events event_dict eq_refl Hrun)
           ed Sample.doc doc' Hstr eq_refl Hmerge).
Defined.

(* ================================================================== *)
(** * Overlays that change nothing *)
(* ================================================================== *)

Lemma assign_items_fixed m : forall ev, held_by ev m -> assign_items m ev = ev.
Proof.
  induction m as [ | [k v] m IH]; intros ev H; [reflexivity | ].
  rewrite assign_items_cons. simpl.
  rewrite (dict_set_get_same k v ev) by (apply (H (k, v)); now left).
  apply IH. intros kv Hkv. apply H. now right.
Qed.

Lemma held_by_last_key ev kv m key :
  held_by ev (kv :: m) ->
  exists k, last_key (kv :: m) key = Some k /\ dict_has k ev = true.
Proof.
  intros H. destruct (last_key_nonempty kv m key) as (k & Hk & Hin).
  exists k. split; [exact Hk | ].
  apply in_map_iff in Hin. destruct Hin as (kv' & <- & Hin).
  unfold dict_has. now rewrite (H kv' Hin).
Qed.

(** The crop loop under mappings that the record of their name holds. *)
Lemma crop_loop_fixed ev : forall ccs key,
  (forall cc, In cc ccs -> py_eq (name_of ev) (name_of cc) = true ->
              cc <> [] /\ held_by ev cc) ->
  exists key', for_each merge_crop (map JDict ccs) (ev, key) = Some (ev, key').
Proof.
  induction ccs as [ | cc ccs IH]; intros key H; [simpl; eauto | ].
  cbn [map]. rewrite for_each_cons.
  destruct (py_eq (name_of ev) (name_of cc)) eqn:Hm.
  - destruct (H cc (or_introl eq_refl) Hm) as (Hne & Hheld).
    rewrite (merge_crop_hit _ _ _ Hm), (assign_items_fixed cc ev Hheld).
    destruct cc as [ | kv m]; [congruence | ].
    destruct (held_by_last_key ev kv m key Hheld) as (k & -> & ->).
    apply IH. intros cc' Hcc'. apply H. now right.
  - rewrite (merge_crop_miss _ _ _ Hm). apply IH.
    intros cc' Hcc'. apply H. now right.
Qed.

Lemma merge_event_fixed event_dict key e :
  agrees event_dict e ->
  exists key', merge_event event_dict key e = Some (e, key').
Proof.
  intros (ev & -> & Hhash & Hentry). unfold merge_event.
  simpl event_type_of in *. set (t := get_default ev "_event_type" JNull) in *.
  destruct (overlay_entry event_dict t) as [entry | ] eqn:Ho.
  - destruct (overlay_entry_inv _ _ _ Ho) as (Ht & Hte & Hget & _).
    rewrite Ht, Hget, Hte.
    destruct (py_eq t (JStr "crop")).
    + destruct Hentry as (ccs & -> & Hccs). simpl py_iter. cbv iota.
      destruct (crop_loop_fixed ev ccs key Hccs) as (key' & Hloop).
      match goal with
      | |- context [for_each ?f ?l ?st] =>
          replace (for_each f l st) with (Some (ev, key')) by (symmetry; exact Hloop)
      end.
      simpl. eauto.
    + destruct Hentry as (m & -> & Hm).
      rewrite (assign_items_fixed m ev Hm).
      destruct m as [ | kv m]; [discriminate | ].
      destruct (held_by_last_key ev kv m key Hm) as (k & -> & ->). eauto.
  - destruct (overlay_entry_none _ _ Ho) as [Ht | [Hn | (x & Hx & Hxt)]].
    + rewrite Ht. eauto.
    + destruct (py_truthy t) eqn:Ht; [ | eauto].
      specialize (Hhash eq_refl). destruct t; simpl in Hn, Hhash; discriminate.
    + rewrite Hx, Hxt. destruct (py_truthy t); eauto.
Qed.

Lemma merge_events_fixed event_dict : forall evs key,
  Forall (agrees event_dict) evs ->
  exists key', merge_events event_dict evs key = Some (evs, key').
Proof.
  induction evs as [ | e evs IH]; intros key Hall; [simpl; eauto | ].
  inversion_clear Hall as [ | ? ? He Hrest].
  destruct (merge_event_fixed event_dict key e He) as (k1 & H1).
  destruct (IH k1 Hrest) as (k2 & H2).
  simpl. rewrite H1. simpl. rewrite H2. simpl. eauto.
Qed.

(** The merge of an overlay that agrees with every event. *)
Lemma agreeing_overlay_fixed event_dict json_data p evs :
  locate events_path json_data = Some (p, JList evs) ->
  Forall (agrees event_dict) evs ->
  input_config_replacement event_dict json_data = Some json_data.
Proof.
  intros Hloc Hall.
  destruct (located_shape "sites" _ _ _ (proj1 events_path_shape) Hloc) as (Hp & Hget).
  simpl in Hp, Hget.
  destruct (merge_events_fixed event_dict evs None Hall) as (key' & Hm).
  unfold input_config_replacement. rewrite Hloc. simpl. rewrite Hm. simpl.
  apply (set_path_same _ _ _ Hp Hget).
Qed.

(** X14. An overlay that agrees with the events changes nothing: when the
    entry that applies to a record holds only items that the record
    already has, the merge returns the document as it was. *)
Theorem agreeing_overlay_unchanged event_dict json_data p evs :
  locate events_path json_data = Some (p, JList evs) ->
  Forall (agrees event_dict) evs ->
  input_config_replacement event_dict json_data = Some json_data.
Proof.
  intros Hloc Hall.
  destruct (located_shape "sites" _ _ _ (proj1 events_path_shape) Hloc) as (Hp & Hget).
  simpl in Hp, Hget.
  destruct (merge_events_fixed event_dict evs None Hall) as (key' & Hm).
  unfold input_config_replacement. rewrite Hloc. simpl. rewrite Hm. simpl.
  apply (set_path_same _ _ _ Hp Hget).
Qed.

Lemma agreeing_overlay_unchanged_witness :
  input_config_replacement Sample.same_overlay Sample.plain_doc = Some Sample.plain_doc.
Proof.
  apply (agreeing_overlay_unchanged Sample.same_overlay Sample.plain_doc
           events_path Sample.plain_events eq_refl).
  repeat constructor.
  - eexists. split; [reflexivity | ]. split; [reflexivity | ].
    exists [[("name", JStr "A"); ("tdd", JFloat 1200)]]. split; [reflexivity | ].
    intros cc [<- | []] _. split; [discriminate | ].
    intros kv [<- | [<- | []]]; reflexivity.
  - eexists. split; [reflexivity | ]. split; [reflexivity | ].
    exists [("method", JStr "drip")]. split; [reflexivity | ].
    intros kv [<- | []]; reflexivity.
Defined.

(** ** The overlay of the document's own records *)

Lemma dict_get_pop_other k k0 d :
  k <> k0 -> dict_get k (dict_pop k0 d) = dict_get k d.
Proof.
  intros Hne. unfold dict_pop. induction d as [ | [k' v] d IH]; simpl; [reflexivity | ].
  destruct (String.eqb_spec k' k0) as [-> | Hk']; simpl.
  - destruct (String.eqb_spec k k0); [contradiction | exact IH].
  - now rewrite IH.
Qed.

Lemma name_of_new_item it : name_of (new_item it) = name_of it.
Proof.
  unfold name_of, get_default, new_item.
  now rewrite dict_get_pop_other by discriminate.
Qed.

Lemma new_item_held it : NoDup (keys it) -> held_by it (new_item it).
Proof.
  intros Hnd [k v] Hkv. unfold new_item, dict_pop in Hkv.
  apply filter_In in Hkv. apply (dict_get_NoDup _ _ _ Hnd (proj1 Hkv)).
Qed.

Lemma last_of_type_some t : forall l r,
  last_of_type t l = Some r ->
  exists e, In e l /\ is_other e = true /\
            key_eq (event_type_of e) t = true /\ r = new_record e.
Proof.
  induction l as [ | e l IH] using rev_ind; intros r; [discriminate | ].
  rewrite last_of_type_snoc.
  destruct (is_other e && key_eq (event_type_of e) t) eqn:E.
  - intros [= <-]. apply andb_true_iff in E. exists e.
    repeat split; try apply E. apply in_or_app. right. now left.
  - intros H. destruct (IH r H) as (e' & Hin & Hrest).
    exists e'. split; [apply in_or_app; now left | exact Hrest].
Qed.

(** Two records of the filtered list that stand for each other are one
    record. *)
Lemma first_seen_same evs e e' :
  In e (first_seen [] evs) -> In e' (first_seen [] evs) ->
  same_kind e e' = true -> same_kind e' e = true -> e = e'.
Proof.
  intros He He' H1 H2.
  destruct (ForallOrdPairs_In (proj1 (first_seen_distinct evs [])) e e' He He')
    as [E | [E | E]]; [exact E | congruence | congruence].
Qed.

Lemma json_wf_In l e : json_wf (JList l) = true -> In e l -> json_wf e = true.
Proof. simpl. rewrite forallb_forall. auto. Qed.

(** X15. The overlay of the document's own records changes nothing: for a
    well-formed document in which no record repeats a crop name or an event
    type (the filtered list of the extractor is its full list) and every
    crop has a key besides its event type, merging the overlay that
    [convert_to_event_dict] builds from the extractor's records (its keys
    being strings) returns the document as it was. *)
Theorem unedited_overlay_unchanged json_data p evs d c o event_dict ed :
  json_wf json_data = true ->
  locate events_path json_data = Some (p, JList evs) ->
  input_config_list json_data = Some (d, c, o, d) ->
  Forall (fun e => is_crop e = true -> new_record e <> JDict []) evs ->
  convert_to_event_dict d = Some event_dict ->
  str_keys event_dict = Some ed ->
  input_config_replacement ed json_data = Some json_data.
Proof.
  intros Wdoc Hloc Hres Hcrops Hconv Hstr.
  apply (agreeing_overlay_fixed ed json_data p evs Hloc).
  destruct (input_config_list_inv _ _ _ _ _ _ _ Hloc eq_refl Hres)
    as (st & Hex & Hd & Hfull & _).
  pose proof (ex_records _ _ Hex) as Hrec.
  assert (Hseen : d = first_seen [] evs) by (rewrite Hd; apply (ex_data _ _ Hex)).
  assert (Htagged : d = filter tagged evs)
    by (rewrite Hfull; apply (ex_data_full _ _ Hex)).
  destruct (located_shape "sites" _ _ _ (proj1 events_path_shape) Hloc) as (_ & Hget).
  pose proof (get_path_wf _ _ _ Wdoc Hget) as Wevs. simpl snd in Wevs.
  destruct (proj1 (convert_loop d [] [] overlay_of_nil) _ Hconv)
    as ((_ & Hov) & _).
  simpl app in Hov.
  rewrite Forall_forall in Hrec, Hcrops. apply Forall_forall. intros e He.
  destruct (Hrec e He) as (ev & ->). exists ev. split; [reflexivity | ].
  pose proof (json_wf_In _ _ Wevs He) as We.
  assert (Hkind : tagged (JDict ev) = is_crop (JDict ev) || is_other (JDict ev))
    by apply tagged_split.
  change (tagged (JDict ev)) with (py_truthy (event_type_of (JDict ev))) in Hkind.
  destruct (is_crop (JDict ev)) eqn:Hc.
  - (* a crop *)
    assert (Ht : event_type_of (JDict ev) = JStr "crop").
    { unfold is_crop in Hc. apply andb_true_iff in Hc. now apply py_eq_crop. }
    rewrite Ht. split; [reflexivity | ].
    assert (Hin : In (JDict ev) d).
    { rewrite Htagged. apply filter_In. split; [exact He | ].
      unfold tagged. now rewrite Ht. }
    assert (Hcin : In (JDict ev) (filter is_crop d))
      by (apply filter_In; auto).
    assert (Hentry : dict_get "crop" ed
                     = Some (JList (map new_record (filter is_crop d)))).
    { rewrite <- (str_keys_get _ _ _ Hstr), (Hov (JStr "crop") eq_refl).
      change (key_eq (JStr "crop") (JStr "crop")) with true. cbv iota.
      unfold crop_entry. destruct (filter is_crop d); [destruct Hcin | reflexivity]. }
    unfold overlay_entry. simpl py_truthy. cbv iota.
    simpl dict_get_key. unfold get_default. rewrite Hentry.
    assert (Htruthy : py_truthy (JList (map new_record (filter is_crop d))) = true)
      by (destruct (filter is_crop d); [destruct Hcin | reflexivity]).
    rewrite Htruthy.
    change (py_eq (JStr "crop") (JStr "crop")) with true. cbv iota.
    exists (map (fun c => new_item (record_dict c)) (filter is_crop d)). split.
    + f_equal. rewrite map_map. apply map_ext_in. intros c1 Hcd.
      apply filter_In in Hcd. destruct Hcd as [Hcd _].
      rewrite Htagged in Hcd. apply filter_In in Hcd.
      destruct (Hrec c1 (proj1 Hcd)) as (cv & ->). reflexivity.
    + intros cc Hcc Hname. apply in_map_iff in Hcc.
      destruct Hcc as (c0 & <- & Hc0). apply filter_In in Hc0.
      destruct Hc0 as [Hc0 Hc0crop].
      assert (Hc0e : In c0 evs)
        by (rewrite Htagged in Hc0; apply filter_In in Hc0; apply Hc0).
      destruct (Hrec c0 Hc0e) as (cv & ->). simpl record_dict in *.
      rewrite name_of_new_item in Hname.
      pose proof (json_wf_In _ _ Wevs Hc0e) as Wc.
      assert (E : JDict ev = JDict cv).
      { apply (first_seen_same evs); try (rewrite <- Hseen; assumption).
        - unfold same_kind. rewrite Hc0crop, Hc. apply py_eq_same. exact Hname.
        - unfold same_kind. rewrite Hc, Hc0crop. apply py_eq_same.
          apply (py_eq_sym _ _ (json_wf_name _ We) (json_wf_name _ Wc) Hname). }
      injection E as <-. split.
      * intros Hnil. apply (Hcrops _ He Hc). simpl. now rewrite Hnil.
      * apply new_item_held. now apply json_wf_dict_keys.
  - (* another record, or a record without a type *)
    rewrite orb_false_l in Hkind. split.
    { intros Ht. rewrite Ht in Hkind.
      assert (Hin : In (JDict ev) d).
      { rewrite Htagged. apply filter_In. split; [exact He | exact Ht]. }
      destruct (proj1 (convert_loop d [] [] overlay_of_nil) _ Hconv) as (_ & Hall).
      rewrite Forall_forall in Hall. apply (Hall _ Hin). now symmetry. }
    destruct (overlay_entry ed (event_type_of (JDict ev))) as [entry | ] eqn:Ho;
      [ | exact I].
    destruct (overlay_entry_inv _ _ _ Ho) as (Ht & Hte & _ & s & Hs & Hentry).
    rewrite Ht in Hkind. symmetry in Hkind.
    assert (Hnc : py_eq (event_type_of (JDict ev)) (JStr "crop") = false).
    { unfold is_crop, tagged in Hc. rewrite Ht in Hc. exact Hc. }
    rewrite Hnc.
    assert (Hin : In (JDict ev) d).
    { rewrite Htagged. apply filter_In. split; [exact He | exact Ht]. }
    rewrite <- (str_keys_get _ _ _ Hstr), (Hov (JStr s) eq_refl) in Hentry.
    assert (Hs' : key_eq (JStr "crop") (JStr s) = false).
    { destruct (key_eq (JStr "crop") (JStr s)) eqn:E; [ | reflexivity].
      apply key_eq_str in E. rewrite Hs, E in Hnc. discriminate. }
    rewrite Hs' in Hentry.
    destruct (last_of_type_some _ _ _ Hentry) as (e' & He' & Ho' & Hk' & ->).
    assert (Ht' : event_type_of e' = JStr s).
    { unfold key_eq in Hk'. simpl is_nan in Hk'. rewrite andb_false_r, orb_false_r in Hk'.
      now apply py_eq_str. }
    assert (Hc' : is_crop e' = false).
    { destruct (is_crop e') eqn:E; [ | reflexivity].
      rewrite (crop_not_other _ E) in Ho'. discriminate. }
    assert (E : JDict ev = e').
    { apply (first_seen_same evs); try (rewrite <- Hseen; assumption).
      - unfold same_kind. rewrite Hc', Hkind, Ht', Hs. apply py_eq_same.
        simpl. apply String.eqb_refl.
      - unfold same_kind. rewrite Hc, Ho', Ht', Hs. apply py_eq_same.
        simpl. apply String.eqb_refl. }
    subst e'. exists (new_item ev). split; [reflexivity | ].
    apply new_item_held. now apply json_wf_dict_keys.
Qed.

Lemma unedited_overlay_unchanged_witness :
  exists event_dict ed,
    convert_to_event_dict Sample.plain_events = Some event_dict /\
    str_keys event_dict = Some ed /\
    input_config_replacement ed Sample.plain_doc = Some Sample.plain_doc.
Proof.
  destruct (convert_to_event_dict Sample.plain_events) as [event_dict | ] eqn:Hrun;
    [ | vm_compute in Hrun; discriminate].
  destruct (str_keys event_dict) as [ed | ] eqn:Hstr;
    [ | vm_compute in Hrun; injection Hrun as <-; vm_compute in Hstr; discriminate].
  exists event_dict, ed.
  split; [reflexivity | ]. split; [first [reflexivity | exact Hstr] | ].
  assert (Hres : input_config_list Sample.plain_doc
                 = Some (Sample.plain_events, [JStr "A"], [JStr "autoirrigation"],
                         Sample.plain_events))
    by (vm_compute; reflexivity).
  apply (unedited_overlay_unchanged Sample.plain_doc events_path Sample.plain_events
           Sample.plain_events [JStr "A"] [JStr "autoirrigation"] event_dict ed
           eq_refl eq_refl Hres); [ | exact Hrun | exact Hstr].
  repeat constructor; intros _; discriminate.
Defined.

(* ================================================================== *)
(** * The widgets: [display_soil_widgets] and the fields of [display_widgets] *)
(* ================================================================== *)

Lemma dict_get_middle k v : forall done rest,
  ~ In k (keys done) -> dict_get k (done ++ (k, v) :: rest) = Some v.
Proof.
  induction done as [ | [k' v'] done IH]; intros rest Hk; simpl.
  - now rewrite String.eqb_refl.
  - destruct (String.eqb_spec k k') as [-> | Hne].
    + elim Hk. now left.
    + apply IH. intros H. apply Hk. now right.
Qed.

Lemma dict_set_middle k v x : forall done rest,
  ~ In k (keys done) ->
  dict_set k x (done ++ (k, v) :: rest) = done ++ (k, x) :: rest.
Proof.
  induction done as [ | [k' v'] done IH]; intros rest Hk; simpl.
  - now rewrite String.eqb_refl.
  - destruct (String.eqb_spec k k') as [-> | Hne].
    + elim Hk. now left.
    + rewrite IH; [reflexivity | ]. intros H. apply Hk. now right.
Qed.

(** A loop over the items of a dictionary that assigns to the key of each
    item in turn: it leaves the items in their places, each with the value
    that its turn assigns. *)
Lemma items_loop (step : dict -> string * json -> option dict)
  (f : string * json -> option json) :
  (forall st kv, dict_get (fst kv) st = Some (snd kv) ->
                 step st kv = match f kv with
                              | Some x => Some (dict_set (fst kv) x st)
                              | None => None
                              end) ->
  forall rest done,
    NoDup (keys (done ++ rest)) ->
    (forall st', for_each step rest (done ++ rest) = Some st' ->
                 exists rest', st' = done ++ rest' /\ Forall2 (item_after f) rest rest') /\
    (forall g, (forall kv, In kv rest -> f kv = Some (g kv)) ->
               for_each step rest (done ++ rest)
               = Some (done ++ map (fun kv => (fst kv, g kv)) rest)).
Proof.
  intros Hstep. induction rest as [ | [k v] rest IH]; intros done Hnd.
  - split.
    + intros st' [= <-]. exists []. split; [reflexivity | constructor].
    + intros g _. reflexivity.
  - assert (Hk : ~ In k (keys done)).
    { unfold keys in *. rewrite map_app in Hnd. simpl in Hnd.
      apply NoDup_remove_2 in Hnd. intros H. apply Hnd. apply in_or_app. now left. }
    assert (Hnd' : forall x, NoDup (keys ((done ++ [(k, x)]) ++ rest))).
    { intros x. unfold keys in *. rewrite <- app_assoc. simpl.
      rewrite map_app in *. exact Hnd. }
    rewrite for_each_cons,
      (Hstep (done ++ (k, v) :: rest) (k, v) (dict_get_middle k v done rest Hk)).
    simpl fst. split.
    + intros st'. destruct (f (k, v)) as [x | ] eqn:Hx; [ | discriminate].
      rewrite (dict_set_middle k v x done rest Hk).
      replace (done ++ (k, x) :: rest) with ((done ++ [(k, x)]) ++ rest)
        by (rewrite <- app_assoc; reflexivity).
      intros Hloop. destruct (proj1 (IH _ (Hnd' x)) st' Hloop) as (rest' & -> & Hall).
      exists ((k, x) :: rest'). split; [now rewrite <- app_assoc | ].
      constructor; [split; [reflexivity | exact Hx] | exact Hall].
    + intros g Hg. rewrite (Hg (k, v) (or_introl eq_refl)).
      rewrite (dict_set_middle k v (g (k, v)) done rest Hk).
      replace (done ++ (k, g (k, v)) :: rest) with ((done ++ [(k, g (k, v))]) ++ rest)
        by (rewrite <- app_assoc; reflexivity).
      rewrite (proj2 (IH _ (Hnd' _)) g) by (intros kv Hkv; apply Hg; now right).
      now rewrite <- app_assoc.
Qed.

Lemma item_after_keys f : forall l l',
  Forall2 (item_after f) l l' -> keys l' = keys l.
Proof.
  induction 1 as [ | kv kv' l l' (Hk & _) _ IH]; simpl; [reflexivity | ].
  now rewrite Hk, IH.
Qed.

Lemma item_after_In f : forall l l',
  Forall2 (item_after f) l l' ->
  forall kv, In kv l -> exists x, f kv = Some x /\ In (fst kv, x) l'.
Proof.
  induction 1 as [ | kv kv' l l' (Hk & Hv) _ IH]; intros kv0 Hin;
    [destruct Hin | destruct Hin as [ | Hin]].
  - subst kv0. exists (snd kv'). split; [exact Hv | ].
    left. rewrite <- Hk. now destruct kv'.
  - destruct (IH kv0 Hin) as (x & Hx & Hx'). exists x. split; [exact Hx | now right].
Qed.

(** ** The soil loop *)

Lemma soil_widget_value ui st kv :
  dict_get (fst kv) st = Some (snd kv) ->
  soil_widget ui st kv = match soil_value ui kv with
                         | Some x => Some (dict_set (fst kv) x st)
                         | None => None
                         end.
Proof.
  intros Hget. unfold soil_widget, soil_value. destruct kv as [key value].
  simpl fst in *. simpl snd in *.
  destruct value as [ | b | z | f | s | l | d]; simpl.
  - now rewrite (dict_set_get_same _ _ _ Hget).
  - destruct (ui (NumberInput key (JBool b))); [ | reflexivity].
    destruct (ui (Checkbox key b)); [ | reflexivity]. now rewrite dict_set_set.
  - destruct (ui (NumberInput key (JInt z))); reflexivity.
  - destruct (ui (NumberInput key (JFloat f))); reflexivity.
  - destruct (bool_text (py_lower s)); destruct (ui _); reflexivity.
  - now rewrite (dict_set_get_same _ _ _ Hget).
  - now rewrite (dict_set_get_same _ _ _ Hget).
Qed.

(** X16. Whatever the user does with the widgets, [display_soil_widgets]
    keeps the keys of the soil record and their order, and a field whose
    value is [None], a list or a dictionary keeps its value. *)
Theorem soil_widgets_keep ui soil_data soil_data' :
  NoDup (keys soil_data) ->
  display_soil_widgets ui soil_data = Some soil_data' ->
  keys soil_data' = keys soil_data /\
  (forall k v, In (k, v) soil_data -> plain v = true -> In (k, v) soil_data').
Proof.
  intros Hnd Hrun.
  destruct (proj1 (items_loop (soil_widget ui) (soil_value ui) (soil_widget_value ui)
                     soil_data [] Hnd) _ Hrun) as (rest' & -> & Hall).
  simpl. split; [apply (item_after_keys _ _ _ Hall) | ].
  intros k v Hin Hplain.
  destruct (item_after_In _ _ _ Hall (k, v) Hin) as (x & Hx & Hx').
  unfold soil_value in Hx. simpl in Hx.
  destruct v; try discriminate; simpl in Hx; injection Hx as <-; exact Hx'.
Qed.

(** X17. When the user touches no widget (every widget gives back the
    value it was offered), [display_soil_widgets] returns the soil record
    as it was, except that a text that reads "true" or "false", in any
    case of letters, has become the boolean. *)
Theorem soil_widgets_untouched ui soil_data :
  NoDup (keys soil_data) ->
  (forall w, ui w = Some (offered w)) ->
  display_soil_widgets ui soil_data
  = Some (map (fun kv => (fst kv, as_edited (snd kv))) soil_data).
Proof.
  intros Hnd Hui.
  apply (proj2 (items_loop (soil_widget ui) (soil_value ui) (soil_widget_value ui)
                  soil_data [] Hnd) (fun kv => as_edited (snd kv))).
  intros [k v] _. unfold soil_value, as_edited. simpl fst. simpl snd.
  destruct v as [ | b | z | f | s | l | d]; simpl; rewrite ?Hui; try reflexivity.
  destruct (bool_text (py_lower s)); rewrite ?Hui; reflexivity.
Qed.

Lemma soil_widgets_keep_witness :
  exists soil_data',
    display_soil_widgets Sample.all_true Sample.soil_flags = Some soil_data' /\
    keys soil_data' = ["clay"; "drained"; "layers"; "texture"] /\
    In ("layers", JList []) soil_data'.
Proof.
  destruct (display_soil_widgets Sample.all_true Sample.soil_flags)
    as [soil_data' | ] eqn:Hrun; [ | vm_compute in Hrun; discriminate].
  exists soil_data'. split; [reflexivity | ].
  assert (Hnd : NoDup (keys Sample.soil_flags)) by (apply nodupb_NoDup; reflexivity).
  destruct (soil_widgets_keep Sample.all_true Sample.soil_flags soil_data' Hnd Hrun)
    as (Hkeys & Hplain).
  split; [exact Hkeys | ].
  apply Hplain; [simpl; auto | reflexivity].
Defined.

Lemma soil_widgets_untouched_witness :
  display_soil_widgets Sample.untouched Sample.soil_flags
  = Some [("clay", JFloat 0.25); ("drained", JBool true); ("layers", JList []);
          ("texture", JStr "loam")].
Proof.
  assert (Hnd : NoDup (keys Sample.soil_flags)) by (apply nodupb_NoDup; reflexivity).
  rewrite (soil_widgets_untouched Sample.untouched Sample.soil_flags Hnd
             (fun w => eq_refl)).
  reflexivity.
Defined.

(** ** The field loops *)

Lemma field_step_value ui shown depth suffix st kv :
  dict_get (fst kv) st = Some (snd kv) ->
  field_step ui shown depth suffix st kv
  = match field_value ui shown depth suffix kv with
    | Some x => Some (dict_set (fst kv) x st)
    | None => None
    end.
Proof.
  intros Hget. unfold field_step, field_value.
  destruct (shown (fst kv)); [ | now rewrite (dict_set_get_same _ _ _ Hget)].
  destruct (field_widget depth _ (fst kv) (snd kv)) as [w | ];
    [ | now rewrite (dict_set_get_same _ _ _ Hget)].
  destruct (ui w); reflexivity.
Qed.

(** The text of an integer never reads "true" or "false". *)
Lemma int_text_not_bool z : bool_text (py_lower (py_str_int z)) = false.
Proof.
  unfold py_str_int. destruct z as [ | p | p]; simpl; [reflexivity | | reflexivity].
  unfold NilZero.string_of_uint. destruct (Pos.to_uint p); reflexivity.
Qed.

(** What a field loop gives back when the user touches nothing. *)
Lemma field_value_untouched ui shown depth suffix kv :
  (forall w, ui w = Some (offered w)) ->
  field_value ui shown depth suffix kv
  = Some (if shown (fst kv) then as_edited (snd kv) else snd kv).
Proof.
  intros Hui. unfold field_value. destruct (shown (fst kv)); [ | reflexivity].
  destruct (snd kv) as [ | b | z | f | s | l | d]; simpl; try reflexivity.
  - destruct b; simpl; rewrite Hui; reflexivity.
  - rewrite int_text_not_bool, Hui. reflexivity.
  - destruct (depth && contains "depth" (fst kv)); rewrite Hui; reflexivity.
  - destruct (bool_text (py_lower s)); rewrite Hui; reflexivity.
Qed.

Lemma field_loop_keeps ui shown depth suffix item item' :
  NoDup (keys item) ->
  for_each (field_step ui shown depth suffix) item item = Some item' ->
  keys item' = keys item /\
  (forall k v, In (k, v) item -> shown k = false \/ plain v = true ->
               In (k, v) item').
Proof.
  intros Hnd Hrun.
  destruct (proj1 (items_loop (field_step ui shown depth suffix)
                     (field_value ui shown depth suffix)
                     (field_step_value ui shown depth suffix) item [] Hnd) _ Hrun)
    as (rest' & -> & Hall).
  simpl. split; [apply (item_after_keys _ _ _ Hall) | ].
  intros k v Hin Hcase.
  destruct (item_after_In _ _ _ Hall (k, v) Hin) as (x & Hx & Hx').
  unfold field_value in Hx. simpl in Hx.
  destruct Hcase as [Hs | Hp].
  - rewrite Hs in Hx. injection Hx as <-. exact Hx'.
  - destruct (shown k); [ | injection Hx as <-; exact Hx'].
    destruct v; try discriminate; simpl in Hx; injection Hx as <-; exact Hx'.
Qed.

(** X18. Whatever the user does with the widgets, the two field loops of
    [display_widgets] keep the keys of the record and their order, leave
    ['_event_type'] as it is, and leave every field whose value is [None],
    a list or a dictionary as it is; the loop for a crop also leaves
    ['name'] and every key with ["frac_"] in it. *)
Theorem field_loops_keep ui unique_id item item' :
  NoDup (keys item) ->
  (event_fields ui unique_id item = Some item' ->
   keys item' = keys item /\
   (forall k v, In (k, v) item ->
                k = "_event_type" \/ plain v = true -> In (k, v) item')) /\
  (crop_fields ui unique_id item = Some item' ->
   keys item' = keys item /\
   (forall k v, In (k, v) item ->
                k = "_event_type" \/ k = "name" \/ contains "frac_" k = true \/
                plain v = true -> In (k, v) item')).
Proof.
  intros Hnd. split; intros Hrun.
  - destruct (field_loop_keeps ui event_shown true (key_suffix unique_id) item item'
                Hnd Hrun) as (Hkeys & Hkeep).
    split; [exact Hkeys | ]. intros k v Hin [-> | Hp]; apply Hkeep; auto.
  - destruct (field_loop_keeps ui crop_shown false (key_suffix unique_id) item item'
                Hnd Hrun) as (Hkeys & Hkeep).
    split; [exact Hkeys | ].
    intros k v Hin [-> | [-> | [Hf | Hp]]]; apply Hkeep; auto.
    left. unfold crop_shown. now rewrite Hf.
Qed.

Lemma field_loops_keep_witness :
  exists item',
    event_fields Sample.all_true "0" Sample.flooding = Some item' /\
    keys item' = keys Sample.flooding /\
    In ("_event_type", JStr "irrigation") item'.
Proof.
  destruct (event_fields Sample.all_true "0" Sample.flooding) as [item' | ] eqn:Hrun;
    [ | vm_compute in Hrun; discriminate].
  exists item'. split; [reflexivity | ].
  assert (Hnd : NoDup (keys Sample.flooding)) by (apply nodupb_NoDup; reflexivity).
  destruct (proj1 (field_loops_keep Sample.all_true "0" Sample.flooding item' Hnd) Hrun)
    as (Hkeys & Hkeep).
  split; [exact Hkeys | ]. apply Hkeep; [simpl; auto | now left].
Defined.

(** X19. When the user touches no widget, the two field loops return the
    record as it was, except that, in a field that is shown, a text that
    reads "true" or "false" has become the boolean: numbers, booleans and
    other texts come back as they were. *)
Theorem field_loops_untouched ui unique_id item :
  NoDup (keys item) ->
  (forall w, ui w = Some (offered w)) ->
  event_fields ui unique_id item
  = Some (map (fun kv => (fst kv, if event_shown (fst kv)
                                  then as_edited (snd kv) else snd kv)) item) /\
  crop_fields ui unique_id item
  = Some (map (fun kv => (fst kv, if crop_shown (fst kv)
                                  then as_edited (snd kv) else snd kv)) item).
Proof.
  intros Hnd Hui. split.
  - apply (proj2 (items_loop (field_step ui event_shown true (key_suffix unique_id))
                    (field_value ui event_shown true (key_suffix unique_id))
                    (field_step_value ui event_shown true (key_suffix unique_id))
                    item [] Hnd)
             (fun kv => if event_shown (fst kv) then as_edited (snd kv) else snd kv)).
    intros kv _. now apply field_value_untouched.
  - apply (proj2 (items_loop (field_step ui crop_shown false (key_suffix unique_id))
                    (field_value ui crop_shown false (key_suffix unique_id))
                    (field_step_value ui crop_shown false (key_suffix unique_id))
                    item [] Hnd)
             (fun kv => if crop_shown (fst kv) then as_edited (snd kv) else snd kv)).
    intros kv _. now apply field_value_untouched.
Qed.

Lemma field_loops_untouched_witness :
  event_fields Sample.untouched "0" Sample.flooding
  = Some [("_event_type", JStr "irrigation"); ("depth", JFloat 5); ("on", JBool true);
          ("times", JInt 3); ("note", JBool false); ("frac_x", JFloat 0.5)].
Proof.
  assert (Hnd : NoDup (keys Sample.flooding)) by (apply nodupb_NoDup; reflexivity).
  rewrite (proj1 (field_loops_untouched Sample.untouched "0" Sample.flooding Hnd
                    (fun w => eq_refl))).
  reflexivity.
Defined.

(* ================================================================== *)
(** * File names: [sanitize_filename] *)
(* ================================================================== *)

Lemma filter_fixed (A : Type) (f : A -> bool) l :
  (forall x, In x l -> f x = true) -> filter f l = l.
Proof.
  induction l as [ | x l IH]; intros H; simpl; [reflexivity | ].
  rewrite (H x (or_introl eq_refl)), IH; [reflexivity | ].
  intros y Hy. apply H. now right.
Qed.

Lemma map_fixed (A : Type) (g : A -> A) l :
  (forall x, In x l -> g x = x) -> map g l = l.
Proof.
  induction l as [ | x l IH]; intros H; simpl; [reflexivity | ].
  rewrite (H x (or_introl eq_refl)), IH; [reflexivity | ].
  intros y Hy. apply H. now right.
Qed.

Lemma sanitized_chars isalnum filename c :
  In c (sanitize_filename isalnum filename) ->
  kept_char isalnum c = true /\ c <> 32%Z.
Proof.
  unfold sanitize_filename. intros H. apply filter_In in H.
  destruct H as [H Hkept]. split; [exact Hkept | ].
  apply in_map_iff in H. destruct H as (x & <- & _).
  destruct (Z.eqb_spec x 32); [discriminate | assumption].
Qed.

(** X20. The name that [sanitize_filename] returns holds no space, and
    nothing but word characters, dots and hyphens; it is not longer than
    the name it was given. *)
Theorem sanitize_filename_safe isalnum filename :
  Forall (fun c => c <> 32%Z /\
                   (word_char isalnum c = true \/ c = 46%Z \/ c = 45%Z))
         (sanitize_filename isalnum filename) /\
  (List.length (sanitize_filename isalnum filename) <= List.length filename)%nat.
Proof.
  split.
  - apply Forall_forall. intros c Hc.
    destruct (sanitized_chars isalnum filename c Hc) as (Hkept & Hspace).
    split; [exact Hspace | ]. unfold kept_char in Hkept.
    rewrite !orb_true_iff, !Z.eqb_eq in Hkept. tauto.
  - unfold sanitize_filename.
    rewrite <- (length_map (fun c => if (c =? 32)%Z then 95%Z else c) filename).
    apply filter_length_le.
Qed.

(** X21. [sanitize_filename] is idempotent, and the names it leaves as
    they are are the names without a space that hold nothing but word
    characters, dots and hyphens. *)
Theorem sanitize_filename_idempotent isalnum filename :
  sanitize_filename isalnum (sanitize_filename isalnum filename)
  = sanitize_filename isalnum filename /\
  (sanitize_filename isalnum filename = filename <->
   Forall (fun c => c <> 32%Z /\ kept_char isalnum c = true) filename).
Proof.
  assert (Hfix : forall l,
             Forall (fun c => c <> 32%Z /\ kept_char isalnum c = true) l ->
             sanitize_filename isalnum l = l).
  { intros l Hl. rewrite Forall_forall in Hl. unfold sanitize_filename.
    rewrite map_fixed.
    - apply filter_fixed. intros c Hc. apply (Hl c Hc).
    - intros c Hc. destruct (Z.eqb_spec c 32); [ | reflexivity].
      now destruct (Hl c Hc). }
  assert (Hsafe : Forall (fun c => c <> 32%Z /\ kept_char isalnum c = true)
                         (sanitize_filename isalnum filename)).
  { apply Forall_forall. intros c Hc.
    destruct (sanitized_chars isalnum filename c Hc). auto. }
  split; [apply Hfix, Hsafe | ]. split.
  - intros E. rewrite <- E. exact Hsafe.
  - apply Hfix.
Qed.

(* ================================================================== *)
(** * The tables: [convert_json_to_dfs_updated] *)
(* ================================================================== *)

Lemma assoc_get_set (V : Type) k k' (v : V) d :
  assoc_get k (assoc_set k' v d)
  = if String.eqb k k' then Some v else assoc_get k d.
Proof.
  induction d as [ | [k0 v0] d IH]; simpl.
  - reflexivity.
  - destruct (String.eqb_spec k' k0) as [-> | Hne]; simpl.
    + destruct (String.eqb k k0); reflexivity.
    + rewrite IH. destruct (String.eqb_spec k k0) as [-> | Hne'];
        [ | reflexivity].
      destruct (String.eqb_spec k0 k'); [congruence | reflexivity].
Qed.

Lemma convert_fold (T : Type) (DataFrame : json -> json -> option T) :
  forall rest dfs category,
    NoDup (keys rest) ->
    assoc_get category (fold_left (convert_category DataFrame) rest dfs)
    = match dict_get category rest with
      | Some category_data =>
          if String.eqb category "crops"
          then Some (Crops (match category_data with
                            | JDict items => crop_tables DataFrame items []
                            | _ => []
                            end))
          else match table DataFrame category_data with
               | Some df => Some (Frame df)
               | None => assoc_get category dfs
               end
      | None => assoc_get category dfs
      end.
Proof.
  induction rest as [ | [k0 v0] rest IH]; intros dfs category Hnd; [reflexivity | ].
  simpl keys in Hnd. inversion_clear Hnd as [ | ? ? Hk0 Hnd'].
  cbn [fold_left]. rewrite (IH _ category Hnd'). cbn [dict_get].
  unfold convert_category. cbn [fst snd].
  destruct (String.eqb_spec category k0) as [-> | Hne].
  - apply dict_get_None in Hk0. rewrite Hk0.
    destruct (String.eqb k0 "crops").
    + now rewrite assoc_get_set, String.eqb_refl.
    + destruct (table DataFrame v0); [ | reflexivity].
      now rewrite assoc_get_set, String.eqb_refl.
  - destruct (dict_get category rest) as [v | ].
    + destruct (String.eqb category "crops"); [reflexivity | ].
      destruct (table DataFrame v); [reflexivity | ].
      destruct (String.eqb k0 "crops").
      * rewrite assoc_get_set. apply String.eqb_neq in Hne. now rewrite Hne.
      * destruct (table DataFrame v0); [ | reflexivity].
        rewrite assoc_get_set. apply String.eqb_neq in Hne. now rewrite Hne.
    + destruct (String.eqb k0 "crops").
      * rewrite assoc_get_set. apply String.eqb_neq in Hne. now rewrite Hne.
      * destruct (table DataFrame v0); [ | reflexivity].
        rewrite assoc_get_set. apply String.eqb_neq in Hne. now rewrite Hne.
Qed.

(** X22. On an object [convert_json_to_dfs_updated] never raises, and what
    it returns holds, of the categories other than ['crops'], exactly those
    that have ['columns'] and ['data'] of which pandas makes a table, each
    with that table: a category that fails is left out and takes no other
    category with it.  ['crops'], when it is there, is always in the
    result. *)
Theorem convert_json_to_dfs_categories (T : Type)
  (DataFrame : json -> json -> option T) (d : dict) :
  NoDup (keys d) ->
  exists dfs,
    convert_json_to_dfs_updated DataFrame (JDict d) = Some dfs /\
    forall category,
      assoc_get category dfs
      = match dict_get category d with
        | Some category_data =>
            if String.eqb category "crops"
            then Some (Crops (match category_data with
                              | JDict items => crop_tables DataFrame items []
                              | _ => []
                              end))
            else option_map (@Frame T) (table DataFrame category_data)
        | None => None
        end.
Proof.
  intros Hnd. eexists. split; [reflexivity | ]. intros category.
  rewrite (convert_fold T DataFrame d [] category Hnd).
  destruct (dict_get category d) as [v | ]; [ | reflexivity].
  destruct (String.eqb category "crops"); [reflexivity | ].
  destruct (table DataFrame v); reflexivity.
Qed.

Lemma assoc_set_new (V : Type) k (v : V) : forall d,
  ~ In k (map fst d) -> assoc_set k v d = d ++ [(k, v)].
Proof.
  induction d as [ | [k0 v0] d IH]; intros Hk; simpl; [reflexivity | ].
  destruct (String.eqb_spec k k0) as [-> | Hne].
  - elim Hk. now left.
  - rewrite IH; [reflexivity | ]. intros H. apply Hk. now right.
Qed.

Lemma crop_tables_loop (T : Type) (DataFrame : json -> json -> option T) rest :
  (rest = [] \/
   exists k bad rest', rest = (k, bad) :: rest' /\ table DataFrame bad = None) ->
  forall pre tabs dfs,
    NoDup (map fst dfs ++ keys pre) ->
    Forall2 (fun kv r => fst r = fst kv /\ table DataFrame (snd kv) = Some (snd r))
            pre tabs ->
    crop_tables DataFrame (pre ++ rest) dfs = dfs ++ tabs.
Proof.
  intros Hrest. induction pre as [ | [k v] pre IH]; intros tabs dfs Hnd Hall.
  - inversion_clear Hall. rewrite app_nil_r. simpl.
    destruct Hrest as [-> | (k & bad & rest' & -> & Hbad)]; [reflexivity | ].
    simpl. now rewrite Hbad.
  - inversion_clear Hall as [ | ? r ? tabs' (Hk & Hv) Hall'].
    simpl in Hk, Hv. simpl. rewrite Hv.
    assert (Hnew : ~ In k (map fst dfs)).
    { simpl in Hnd. apply NoDup_remove_2 in Hnd. intros H. apply Hnd.
      apply in_or_app. now left. }
    rewrite (assoc_set_new T k (snd r) dfs Hnew).
    rewrite (IH tabs' (dfs ++ [(k, snd r)])).
    + rewrite <- app_assoc. simpl. destruct r as [rk rv]. simpl in *. now subst.
    + rewrite map_app, <- app_assoc. exact Hnd.
    + exact Hall'.
Qed.

(** X23. Under ['crops'] the tables are made crop by crop, and the first
    crop that fails ends the loop: the result holds the tables of the crops
    before it, and none of the crops after it, whether they would make a
    table or not. *)
Theorem crop_tables_stop (T : Type) (DataFrame : json -> json -> option T)
  (pre rest : dict) (tabs : list (string * T)) :
  NoDup (keys pre) ->
  Forall2 (fun kv r => fst r = fst kv /\ table DataFrame (snd kv) = Some (snd r))
          pre tabs ->
  (rest = [] \/
   exists k bad rest', rest = (k, bad) :: rest' /\ table DataFrame bad = None) ->
  convert_json_to_dfs_updated DataFrame (JDict [("crops", JDict (pre ++ rest))])
  = Some [("crops", Crops tabs)].
Proof.
  intros Hnd Hall Hrest. unfold convert_json_to_dfs_updated. simpl.
  unfold convert_category. simpl.
  now rewrite (crop_tables_loop T DataFrame rest Hrest pre tabs [] Hnd Hall).
Qed.

Lemma convert_json_to_dfs_categories_witness :
  exists dfs,
    convert_json_to_dfs_updated Sample.frame_of (JDict Sample.output) = Some dfs /\
    assoc_get "soil" dfs
    = Some (Frame (JList [JStr "Year"; JStr "Day"], JList [])) /\
    assoc_get "water" dfs = None.
Proof.
  assert (Hnd : NoDup (keys Sample.output)) by (apply nodupb_NoDup; reflexivity).
  destruct (convert_json_to_dfs_categories _ Sample.frame_of Sample.output Hnd)
    as (dfs & Hrun & Hget).
  exists dfs. split; [exact Hrun | ]. split; rewrite Hget; reflexivity.
Defined.

Lemma crop_tables_stop_witness :
  convert_json_to_dfs_updated Sample.frame_of
    (JDict [("crops", JDict [("maize", Sample.no_rows); ("rye", JNull);
                             ("oats", Sample.no_rows)])])
  = Some [("crops", Crops [("maize", (JList [JStr "Year"; JStr "Day"], JList []))])].
Proof.
  apply (crop_tables_stop _ Sample.frame_of [("maize", Sample.no_rows)]
           [("rye", JNull); ("oats", Sample.no_rows)]
           [("maize", (JList [JStr "Year"; JStr "Day"], JList []))]).
  - apply nodupb_NoDup. reflexivity.
  - constructor; [split; reflexivity | constructor].
  - right. exists "rye", JNull, [("oats", Sample.no_rows)]. split; reflexivity.
Defined.

(* ================================================================== *)
(** * More on the date filter *)
(* ================================================================== *)

Open Scope Z_scope.

Lemma filter_filter_implied (A : Type) (f g : A -> bool) l :
  (forall x, f x = true -> g x = true) -> filter f (filter g l) = filter f l.
Proof.
  intros H. induction l as [ | x l IH]; simpl; [reflexivity | ].
  destruct (g x) eqn:Hg; simpl.
  - now rewrite IH.
  - destruct (f x) eqn:Hf; [ | exact IH].
    rewrite (H x Hf) in Hg. discriminate.
Qed.

(** X24. Asking for a narrower range of dates gives what filtering the
    rows of the wider range to the narrower one gives: the date of a row
    and the order of the rows do not depend on the bounds. *)
Theorem date_filter_narrows (A : Type) (dataframes : list (string * list (row A)))
  (column : string) (lo hi lo' hi' : Z) (rows : list (row A * Z)) :
  return_output_df dataframes column (Some lo') (Some hi') = Some rows ->
  lo' <= lo -> hi <= hi' ->
  return_output_df dataframes column (Some lo) (Some hi)
  = Some (filter (in_range lo hi) rows).
Proof.
  unfold return_output_df. simpl bound.
  destruct (frame dataframes column) as [df_ | ]; [ | discriminate].
  destruct (to_datetime (map (@year_day_text A) df_)) as [dates | ]; [ | discriminate].
  intros [= <-] Hlo Hhi. f_equal. symmetry. apply filter_filter_implied.
  intros [r d]. unfold in_range. simpl. lia.
Qed.

Lemma date_filter_narrows_witness :
  return_output_df
    [("soil", [Row 2020 152 tt; Row 2020 153 tt; Row 2020 154 tt])] "soil"
    (Some (ymd_to_ordinal 2020 6 1)) (Some (ymd_to_ordinal 2020 6 2))
  = Some [(Row 2020 153 tt, ymd_to_ordinal 2020 6 1);
          (Row 2020 154 tt, ymd_to_ordinal 2020 6 2)].
Proof.
  rewrite (date_filter_narrows unit
             [("soil", [Row 2020 152 tt; Row 2020 153 tt; Row 2020 154 tt])] "soil"
             (ymd_to_ordinal 2020 6 1) (ymd_to_ordinal 2020 6 2)
             (ymd_to_ordinal 2020 1 1) (ymd_to_ordinal 2020 12 31)
             [(Row 2020 152 tt, ymd_to_ordinal 2020 5 31);
              (Row 2020 153 tt, ymd_to_ordinal 2020 6 1);
              (Row 2020 154 tt, ymd_to_ordinal 2020 6 2)]).
  - reflexivity.
  - vm_compute. reflexivity.
  - vm_compute. discriminate.
  - vm_compute. discriminate.
Defined.

(** ** A day that is no day of the year *)

Lemma digits_minus s : digits_value (String "-" s) = None.
Proof.
  unfold digits_value. simpl. destruct (NilEmpty.uint_of_string s); reflexivity.
Qed.

Lemma digits_value_text j :
  0 <= j -> digits_value (py_str_int j) = Some j.
Proof.
  intros Hj. destruct (py_str_int_digits j Hj) as (d & Hd & -> & <-).
  unfold digits_value. now rewrite NilEmpty.usu.
Qed.

Lemma negative_text j : j < 0 -> exists s, py_str_int j = String "-" s.
Proof.
  destruct j as [ | p | p]; try lia. intros _. unfold py_str_int. simpl. eauto.
Qed.

(** The text of a four-digit year and of a day that is not from 1 to 366
    does not parse. *)
Lemma bad_day_text y j :
  1000 <= y <= 9999 -> j < 1 \/ 366 < j ->
  strptime_Yj (py_str_int y ++ py_str_int j)%string = None.
Proof.
  intros Hy Hj. destruct (year_text y Hy) as (Ly & Vy).
  unfold strptime_Yj. rewrite string_length_append, Ly.
  destruct ((4 + String.length (py_str_int j) <? 5)%nat
            || (7 <? 4 + String.length (py_str_int j))%nat); [reflexivity | ].
  replace (4 + String.length (py_str_int j) - 4)%nat
    with (String.length (py_str_int j)) by lia.
  rewrite <- Ly at 1. rewrite substring_prefix, Vy.
  rewrite <- Ly at 1. rewrite substring_suffix.
  destruct (Z.lt_ge_cases j 0) as [Hneg | Hpos].
  - destruct (negative_text j Hneg) as (s & ->). now rewrite digits_minus.
  - rewrite (digits_value_text j Hpos).
    destruct Hj as [Hj | Hj].
    + replace (1 <=? j) with false by (symmetry; apply Z.leb_gt; lia).
      now rewrite andb_false_r.
    + replace (j <=? 366) with false by (symmetry; apply Z.leb_gt; lia).
      now rewrite andb_false_r.
Qed.

Lemma to_datetime_fails s : forall l,
  In s l -> strptime_Yj s = None -> to_datetime l = None.
Proof.
  induction l as [ | s0 l IH]; intros Hin Hs; [destruct Hin | ].
  simpl. destruct Hin as [-> | Hin].
  - now rewrite Hs.
  - rewrite (IH Hin Hs). destruct (strptime_Yj s0); [ | reflexivity].
    destruct (in_ns_bounds z); reflexivity.
Qed.

(** X25. One row whose day is not from 1 to 366 (its year having four
    digits) makes the operation raise for the whole table, whatever the
    bounds, even bounds that would leave that row out. *)
Theorem bad_day_fails_table (A : Type) (dataframes : list (string * list (row A)))
  (column : string) (df_ : list (row A)) (r : row A) (min_date max_date : option Z) :
  frame dataframes column = Some df_ ->
  In r df_ ->
  1000 <= Year r <= 9999 ->
  Day r < 1 \/ 366 < Day r ->
  return_output_df dataframes column min_date max_date = None.
Proof.
  intros Hframe Hin Hy Hj. unfold return_output_df. rewrite Hframe.
  rewrite (to_datetime_fails (year_day_text r)); [reflexivity | | ].
  - now apply in_map.
  - unfold year_day_text. now apply bad_day_text.
Qed.

Lemma bad_day_fails_table_witness :
  return_output_df [("soil", [Row 2020 152 tt; Row 2020 0 tt])] "soil"
    (Some (ymd_to_ordinal 2020 5 1)) (Some (ymd_to_ordinal 2020 6 30))
  = None.
Proof.
  apply (bad_day_fails_table unit [("soil", [Row 2020 152 tt; Row 2020 0 tt])] "soil"
           [Row 2020 152 tt; Row 2020 0 tt] (Row 2020 0 tt)).
  - reflexivity.
  - simpl. auto.
  - simpl. lia.
  - simpl. lia.
Defined.

(** ** Day 366 *)

Lemma last_day_checked : forallb last_day_ok (py_range 1678 2262) = true.
Proof. vm_compute. reflexivity. Qed.

Lemma to_datetime_days (A : Type) : forall df_ : list (row A),
  Forall (fun r => 1678 <= Year r <= 2261 /\ 1 <= Day r <= 366) df_ ->
  to_datetime (map (@year_day_text A) df_)
  = Some (map (fun r => days_before_year (Year r) + Day r) df_).
Proof.
  induction df_ as [ | r df_ IH]; intros Hrows; cbn [map to_datetime];
    [reflexivity | ].
  inversion_clear Hrows as [ | ? ? (Hy & Hj) Hrest].
  unfold year_day_text at 1. rewrite strptime_year_day by lia.
  rewrite year_in_ns_bounds by lia.
  now rewrite (IH Hrest).
Qed.

(** X26. Day 366 is taken in every year: for a table whose years lie in
    1678 to 2261 and whose days lie in 1 to 366, the operation returns the
    rows in range, each with the date that is [Day] days after the last day
    of the year before; for day 366 that is the last day of a leap year,
    and January 1st of the next year when the year is no leap year. *)
Theorem day_366_rolls_over (A : Type) (dataframes : list (string * list (row A)))
  (column : string) (df_ : list (row A)) (min_date max_date : option Z) :
  frame dataframes column = Some df_ ->
  Forall (fun r => 1678 <= Year r <= 2261 /\ 1 <= Day r <= 366) df_ ->
  return_output_df dataframes column min_date max_date
  = Some (filter (in_range (bound min_date default_min_date)
                           (bound max_date default_max_date))
                 (map (fun r => (r, days_before_year (Year r) + Day r)) df_)) /\
  (forall r, In r df_ -> Day r = 366 ->
             ordinal_year_day (days_before_year (Year r) + Day r)
             = if is_leap (Year r) then (Year r, 366) else (Year r + 1, 1)).
Proof.
  intros Hframe Hrows. split.
  - unfold return_output_df. rewrite Hframe, (to_datetime_days A df_ Hrows).
    now rewrite combine_map.
  - intros r Hr H366. rewrite Forall_forall in Hrows.
    destruct (Hrows r Hr) as (Hy & _). rewrite H366.
    pose proof last_day_checked as H. rewrite forallb_forall in H.
    specialize (H (Year r) (in_py_range 1678 2262 (Year r) ltac:(lia))).
    unfold last_day_ok in H. cbv zeta in H.
    destruct (ordinal_year_day (days_before_year (Year r) + 366)) as [y' j'].
    simpl fst in H. simpl snd in H.
    destruct (is_leap (Year r)); apply andb_true_iff in H; destruct H as [H1 H2];
      apply Z.eqb_eq in H1, H2; now subst.
Qed.

Lemma day_366_rolls_over_witness :
  exists d,
    return_output_df [("soil", [Row 2021 366 tt])] "soil"
      (Some (ymd_to_ordinal 2021 1 1)) (Some (ymd_to_ordinal 2022 12 31))
    = Some [(Row 2021 366 tt, d)] /\
    ordinal_year_day d = (2022, 1).
Proof.
  assert (Hrows : Forall (fun r : row unit =>
                            1678 <= Year r <= 2261 /\ 1 <= Day r <= 366)
                         [Row 2021 366 tt])
    by (repeat constructor; simpl; lia).
  destruct (day_366_rolls_over unit [("soil", [Row 2021 366 tt])] "soil"
              [Row 2021 366 tt]
              (Some (ymd_to_ordinal 2021 1 1)) (Some (ymd_to_ordinal 2022 12 31))
              eq_refl Hrows) as (Hrun & Hday).
  exists (days_before_year 2021 + 366). split.
  - rewrite Hrun. reflexivity.
  - apply (Hday (Row 2021 366 tt)); [now left | reflexivity].
Defined.

Close Scope Z_scope.
